(** * czsc.traders.rwc: the Redis weights client

    A shallow embedding of [src/czsc/traders/rwc.py]: the Python methods of
    [RedisWeightsClient], the Lua script registered by [register_lua_publish]
    and the Lua script of [get_all_weights], over a model of the Redis
    commands they call.

    Conventions.
    - A Redis database is one key space [gmap string rvalue]; commands on a
      key of the wrong type raise, as Redis answers WRONGTYPE.
    - Python and Lua code that talks to Redis is written in the monad [M]:
      a computation takes the store and returns an outcome (a value or a
      raised error) together with the store it leaves behind.
    - Floating-point numbers (weights, prices, scores) are idealised as exact
      rationals [Q]; a pandas Timestamp is its integer count of nanoseconds.
    - Library routines that are not part of the repository (Lua's tonumber,
      Python's float, json and strftime, pandas' to_datetime, the argument
      encoder of redis-py) are the fields of the class [Runtime]; every
      result holds for any implementation of them. *)

From Stdlib Require Import QArith Qabs Ascii.
From stdpp Require Import gmap strings list fin_maps sorting pretty.

Set Warnings "-register-all,-clear-no-such-hyp".

Close Scope Q_scope.
Open Scope string_scope.

(** ** Strings *)

(** Python: [s.split(":")]. *)
Fixpoint py_split (s : string) : list string :=
  match s with
  | EmptyString => [EmptyString]
  | String c s' =>
      if Ascii.eqb c ":"%char then EmptyString :: py_split s'
      else match py_split s' with
           | [] => [String c EmptyString]
           | w :: ws => String c w :: ws
           end
  end.

Definition nonempty (s : string) : bool :=
  match s with EmptyString => false | String _ _ => true end.

(** Lua: [key:gsub('[^:]+', function(s) table.insert(split_str, s) end)]
    collects the maximal non-empty runs of characters other than a colon. *)
Definition lua_fields (key : string) : list string :=
  List.filter nonempty (py_split key).

(** Lua: [s:match('([^:]+)$')], the run of non-colon characters that ends the
    string, nil when there is none. *)
Definition lua_last_part (s : string) : option string :=
  match last (py_split s) with
  | Some w => if nonempty w then Some w else None
  | None => None
  end.

(** Lua tables and ARGV are indexed from 1; a missing entry is nil. *)
Definition lua_index {A} (l : list A) (i : nat) : option A :=
  match i with O => None | S j => l !! j end.

(** Lua: [string.sub(s, i, j)] for [1 <= i]. *)
Definition lua_sub (s : string) (i j : nat) : string :=
  String.substring (i - 1) (S j - i) s.

(** Lua: [s:gsub(pat, repl)] (its first result) for a pattern without magic
    characters, as the digits of a time stamp are: every occurrence of [pat],
    scanning from the left, is replaced by [repl]. [skip] counts the
    characters of a match still to be dropped. *)
Fixpoint gsub_from (pat repl : string) (skip : nat) (s : string) : string :=
  match s with
  | EmptyString => EmptyString
  | String c s' =>
      match skip with
      | S k => gsub_from pat repl k s'
      | O =>
          if String.prefix pat s
          then repl +:+ gsub_from pat repl (String.length pat - 1) s'
          else String c (gsub_from pat repl 0 s')
      end
  end.

Definition lua_gsub (s pat repl : string) : string := gsub_from pat repl 0 s.

Definition is_digit (c : ascii) : bool :=
  let n := nat_of_ascii c in (48 <=? n)%nat && (n <=? 57)%nat.

Fixpoint all_digits (s : string) : bool :=
  match s with
  | EmptyString => true
  | String c s' => is_digit c && all_digits s'
  end.

(** ** Redis glob patterns (the KEYS command)

    The matcher of Redis: [*] matches any run of characters, [?] one
    character, [[...]] a class of characters (with ranges and [^] negation),
    a backslash quotes the next character. *)

Fixpoint glob_class (p : list ascii) (c : ascii) (m : bool) : bool * list ascii :=
  match p with
  | [] => (m, [])
  | "\"%char :: x :: p' => glob_class p' c (m || Ascii.eqb x c)
  | "]"%char :: p' => (m, p')
  | a :: "-"%char :: b :: p' =>
      let lo := Nat.min (nat_of_ascii a) (nat_of_ascii b) in
      let hi := Nat.max (nat_of_ascii a) (nat_of_ascii b) in
      let n := nat_of_ascii c in
      glob_class p' c (m || ((lo <=? n)%nat && (n <=? hi)%nat))
  | a :: p' => glob_class p' c (m || Ascii.eqb a c)
  end.

Fixpoint glob_star (go : list ascii -> bool) (s : list ascii) : bool :=
  go s || match s with [] => false | _ :: s' => glob_star go s' end.

Fixpoint glob_go (fuel : nat) (p s : list ascii) : bool :=
  match fuel with
  | O => false
  | S fuel =>
      match p with
      | [] => match s with [] => true | _ => false end
      | x :: p' =>
          if Ascii.eqb x "*" then glob_star (glob_go fuel p') s
          else
            match s with
            | [] => false
            | c :: s' =>
                if Ascii.eqb x "?" then glob_go fuel p' s'
                else if Ascii.eqb x "[" then
                  let '(m, rest) :=
                    match p' with
                    | y :: p'' =>
                        if Ascii.eqb y "^"
                        then let '(m, rest) := glob_class p'' c false in (negb m, rest)
                        else glob_class p' c false
                    | [] => glob_class p' c false
                    end in
                  m && glob_go fuel rest s'
                else if Ascii.eqb x "\" then
                  match p' with
                  | y :: p'' => Ascii.eqb y c && glob_go fuel p'' s'
                  | [] => Ascii.eqb x c && glob_go fuel p' s'
                  end
                else Ascii.eqb x c && glob_go fuel p' s'
            end
      end
  end.

Definition glob_match (pattern key : string) : bool :=
  glob_go (S (String.length pattern))
          (String.list_ascii_of_string pattern) (String.list_ascii_of_string key).

(** A name is plain when it holds none of the glob metacharacters. *)
Definition glob_meta (c : ascii) : bool :=
  Ascii.eqb c "*"%char || Ascii.eqb c "?"%char || Ascii.eqb c "["%char || Ascii.eqb c "\"%char.

Fixpoint glob_plain (s : string) : bool :=
  match s with
  | EmptyString => true
  | String c s' => negb (glob_meta c) && glob_plain s'
  end.

(** ** The Redis store *)

Inductive rvalue :=
| RString (s : string)
| RHash (h : gmap string string)
| RZSet (z : gmap string Q)
| RSet (s : gset string).

(** A line written through loguru: its level and its message, the f-string
    of the source with its placeholders left as they are written. *)
Inductive level := INFO | WARNING | ERROR.

Record redis := Redis {
  db : gmap string rvalue;
  (** the messages published so far, oldest first: (channel, message) *)
  published : list (string * string);
  (** what the client has logged so far, oldest first *)
  logged : list (level * string)
}.

Definition set_db (f : gmap string rvalue -> gmap string rvalue) (r : redis) : redis :=
  {| db := f (db r); published := published r; logged := logged r |}.

(** ** Computations that use the store *)

Inductive outcome (A : Type) :=
| Ok (a : A)
| Raise (e : string).
Arguments Ok {A} a.
Arguments Raise {A} e.

Definition M (A : Type) : Type := redis -> outcome A * redis.

Definition ret {A} (a : A) : M A := fun r => (Ok a, r).

Definition raise {A} (e : string) : M A := fun r => (Raise e, r).

Definition bind {A B} (m : M A) (k : A -> M B) : M B :=
  fun r =>
    match m r with
    | (Ok a, r') => k a r'
    | (Raise e, r') => (Raise e, r')
    end.

Notation "x <- m ;; k" := (bind m (fun x => k))
  (at level 100, m at next level, right associativity).
Notation "m ;;; k" := (bind m (fun _ => k))
  (at level 100, right associativity).

Fixpoint forM {A B} (f : A -> M B) (l : list A) : M (list B) :=
  match l with
  | [] => ret []
  | x :: l' => y <- f x ;; ys <- forM f l' ;; ret (y :: ys)
  end.

Definition wrongtype : string :=
  "WRONGTYPE Operation against a key holding the wrong kind of value".

(** ** Redis commands *)

Definition EXISTS (key : string) : M bool :=
  fun r => (Ok (bool_decide (is_Some (db r !! key))), r).

(** DEL removes the named keys, whatever they hold, and answers how many of
    them existed. *)
Definition DEL (keys : list string) : M nat :=
  fun r =>
    (Ok (length (List.filter (fun k => bool_decide (is_Some (db r !! k)))
                             (remove_dups keys))),
     set_db (fun d => foldr delete d keys) r).

Definition hash_set (fvs : list (string * string)) (h : gmap string string) :
  gmap string string :=
  foldl (fun h fv => <[fv.1 := fv.2]> h) h fvs.

(** A status reply as [redis.call] hands it to Lua: a table whose field
    [ok] holds the status text. *)
Record status := Status { ok : option string }.

(** Lua truth value of a string or nil: only nil is false. *)
Definition lua_truthy (o : option string) : bool :=
  match o with Some _ => true | None => false end.

(** HMSET answers the status OK; HSET (redis-py's [hset(key, mapping=...)])
    answers the number of fields it added. *)
Definition HMSET (key : string) (fvs : list (string * string)) : M status :=
  fun r =>
    match db r !! key with
    | None => (Ok (Status (Some "OK")), set_db <[key := RHash (hash_set fvs ∅)]> r)
    | Some (RHash h) =>
        (Ok (Status (Some "OK")), set_db <[key := RHash (hash_set fvs h)]> r)
    | Some _ => (Raise wrongtype, r)
    end.

Definition HSET (key : string) (fvs : list (string * string)) : M nat :=
  fun r =>
    match db r !! key with
    | None =>
        (Ok (size (hash_set fvs ∅)), set_db <[key := RHash (hash_set fvs ∅)]> r)
    | Some (RHash h) =>
        (Ok (size (hash_set fvs h) - size h),
         set_db <[key := RHash (hash_set fvs h)]> r)
    | Some _ => (Raise wrongtype, r)
    end.

Definition HGET (key field : string) : M (option string) :=
  fun r =>
    match db r !! key with
    | None => (Ok None, r)
    | Some (RHash h) => (Ok (h !! field), r)
    | Some _ => (Raise wrongtype, r)
    end.

Definition HMGET (key : string) (fields : list string) : M (list (option string)) :=
  fun r =>
    match db r !! key with
    | None => (Ok ((fun _ => None) <$> fields), r)
    | Some (RHash h) => (Ok ((fun f => h !! f) <$> fields), r)
    | Some _ => (Raise wrongtype, r)
    end.

(** HGETALL as redis-py returns it: a dict, empty for a missing key. *)
Definition HGETALL (key : string) : M (gmap string string) :=
  fun r =>
    match db r !! key with
    | None => (Ok ∅, r)
    | Some (RHash h) => (Ok h, r)
    | Some _ => (Raise wrongtype, r)
    end.

(** HGETALL as a Lua script sees it: the flat array field, value, field,
    value, ... *)
Definition flat_pairs (l : list (string * string)) : list string :=
  l ≫= (fun fv => [fv.1; fv.2]).

Definition HGETALL_flat (key : string) : M (list string) :=
  h <- HGETALL key ;; ret (flat_pairs (map_to_list h)).

Definition ZADD (key : string) (score : Q) (member : string) : M nat :=
  fun r =>
    match db r !! key with
    | None => (Ok 1%nat, set_db <[key := RZSet {[member := score]}]> r)
    | Some (RZSet z) =>
        (Ok (match z !! member with Some _ => 0%nat | None => 1%nat end),
         set_db <[key := RZSet (<[member := score]> z)]> r)
    | Some _ => (Raise wrongtype, r)
    end.

(** The order of a sorted set: by score, then by member. *)
Definition zset_le (a b : string * Q) : Prop :=
  (a.2 < b.2)%Q ∨ ((a.2 == b.2)%Q ∧ String.leb a.1 b.1 = true).

#[global] Instance zset_le_dec a b : Decision (zset_le a b).
Proof.
  unfold zset_le.
  destruct (Qlt_le_dec (a.2) (b.2)) as [Hlt | Hle].
  - left. by left.
  - destruct (Qeq_dec (a.2) (b.2)) as [Heq | Hne].
    + destruct (String.leb a.1 b.1) eqn:E.
      * left. right. by split.
      * right. intros [H | [_ H]]; [| discriminate].
        apply (Qlt_not_le _ _ H). by apply Qle_lteq; right; symmetry.
    + right. intros [H | [H _]]; [| done].
      by apply (Qlt_not_le _ _ H).
Defined.

Definition ZRANGEBYSCORE (key : string) (lo hi : Q) : M (list string) :=
  fun r =>
    match db r !! key with
    | None => (Ok [], r)
    | Some (RZSet z) =>
        (Ok ((merge_sort zset_le
                (List.filter (fun ms => Qle_bool lo ms.2 && Qle_bool ms.2 hi)
                             (map_to_list z))).*1), r)
    | Some _ => (Raise wrongtype, r)
    end.

Definition SADD (key member : string) : M nat :=
  fun r =>
    match db r !! key with
    | None => (Ok 1%nat, set_db <[key := RSet {[member]}]> r)
    | Some (RSet s) =>
        (Ok (if bool_decide (member ∈ s) then 0%nat else 1%nat),
         set_db <[key := RSet ({[member]} ∪ s)]> r)
    | Some _ => (Raise wrongtype, r)
    end.

(** SREM answers the number of members removed; a set left empty is
    removed from the key space. *)
Definition SREM (key member : string) : M nat :=
  fun r =>
    match db r !! key with
    | None => (Ok 0%nat, r)
    | Some (RSet s) =>
        if bool_decide (member ∈ s)
        then (Ok 1%nat,
              set_db (fun d => if bool_decide (s ∖ {[member]} = ∅)
                               then delete key d
                               else <[key := RSet (s ∖ {[member]})]> d) r)
        else (Ok 0%nat, r)
    | Some _ => (Raise wrongtype, r)
    end.

Definition SMEMBERS (key : string) : M (gset string) :=
  fun r =>
    match db r !! key with
    | None => (Ok ∅, r)
    | Some (RSet s) => (Ok s, r)
    | Some _ => (Raise wrongtype, r)
    end.

Definition GET (key : string) : M (option string) :=
  fun r =>
    match db r !! key with
    | None => (Ok None, r)
    | Some (RString s) => (Ok (Some s), r)
    | Some _ => (Raise wrongtype, r)
    end.

Definition SET (key value : string) : M string :=
  fun r => (Ok "OK", set_db <[key := RString value]> r).

Definition KEYS (pattern : string) : M (list string) :=
  fun r => (Ok (List.filter (glob_match pattern) (elements (dom (db r)))), r).

(** PUBLISH answers the number of subscribers that received the message;
    the model has none listening. *)
Definition PUBLISH (channel message : string) : M nat :=
  fun r => (Ok 0%nat, {| db := db r;
                         published := (published r ++ [(channel, message)])%list;
                         logged := logged r |}).

Definition logger (l : level) (message : string) : M unit :=
  fun r => (Ok tt, {| db := db r; published := published r;
                      logged := (logged r ++ [(l, message)])%list |}).

(** ** Python values and the routines of the run-time libraries *)

Inductive pynum :=
| PyInt (z : Z)
| PyFloat (q : Q).

Definition num_val (n : pynum) : Q :=
  match n with PyInt z => inject_Z z | PyFloat q => q end.

(** The objects a reference payload can be: what json reads and writes.
    A dict keeps its items in insertion order. *)
Inductive pyobj :=
| PNone
| PBool (b : bool)
| PNum (n : pynum)
| PStr (s : string)
| PList (l : list pyobj)
| PDict (d : list (string * pyobj)).

(** Python truth value: None, False, zero and empty containers are false. *)
Definition py_truthy (o : pyobj) : bool :=
  match o with
  | PNone => false
  | PBool b => b
  | PNum n => negb (Qeq_bool (num_val n) 0)
  | PStr s => nonempty s
  | PList l => match l with [] => false | _ => true end
  | PDict d => match d with [] => false | _ => true end
  end.

Definition isinstance_dict (o : pyobj) : bool :=
  match o with PDict _ => true | _ => false end.

Class Runtime := {
  (** Lua: [tonumber(s)] of a string; [None] is nil *)
  lua_tonumber : string -> option Q;
  (** Redis: the number a score bound of ZRANGEBYSCORE denotes *)
  redis_score : string -> option Q;
  (** redis-py: the text sent for a float argument, its [repr] *)
  encode_float : Q -> string;
  (** Python: [float(s)]; [None] when it raises ValueError *)
  py_float : string -> option Q;
  (** pandas: [pd.to_datetime(s)] of a string; [None] when it raises *)
  to_datetime : string -> option Z;
  (** [dt.strftime(format)] *)
  strftime : string -> Z -> string;
  (** Python: [json.dumps(o)] and [json.loads(s)] ([None] when it raises) *)
  json_dumps : pyobj -> string;
  json_loads : string -> option pyobj
}.

(** redis-py turns each argument of a command into text: a str goes as it
    is, an int in decimal, a float by its [repr]; anything else is refused. *)
Definition encode_num `{Runtime} (n : pynum) : string :=
  match n with PyInt z => pretty z | PyFloat q => encode_float q end.

Definition encode_arg `{Runtime} (o : pyobj) : M string :=
  match o with
  | PStr s => ret s
  | PNum n => ret (encode_num n)
  | _ => raise "DataError: Invalid input"
  end.

Definition need {A} (o : option A) (e : string) : M A :=
  match o with Some a => ret a | None => raise e end.

(** ** The Lua script of [register_lua_publish] *)

(** [math.abs(a - b) > 0.00001] *)
Definition exceeds_tolerance (a b : Q) : bool :=
  negb (Qle_bool (Qabs (a - b)) (1 # 100000)).

Definition record_fields (symbol sig at_str update_time price ref_str : string) :
  list (string * string) :=
  [("symbol", symbol); ("weight", sig); ("dt", at_str);
   ("update_time", update_time); ("price", price); ("ref", ref_str)].

(** Lines 293-301: the flag [if_pass] stays true when the key is to be
    passed over and is set to false when the key is to be written. *)
Definition lua_if_pass `{Runtime} (overwrite sig : option string) (model_key : string) :
  M bool :=
  if bool_decide (overwrite ≠ Some "0") then ret false
  else
    pos <- HGET (model_key +:+ ":LAST") "weight" ;;
    match pos with
    | None => ret false
    | Some pos =>
        match sig ≫= lua_tonumber, lua_tonumber pos with
        | Some a, Some b => ret (if exceeds_tolerance a b then false else true)
        | _, _ => raise "attempt to perform arithmetic on a nil value"
        end
    end.

Definition nil_argument : string :=
  "Lua redis() command arguments must be strings or integers".

(** Lines 305-307: the time stamp YYYYMMDDHHMMSS of the key written as
    YYYY-MM-DD HH:MM:SS. *)
Definition lua_at_str (action_time : string) : string :=
  lua_sub action_time 1 4 +:+ "-" +:+ lua_sub action_time 5 6 +:+ "-" +:+
  lua_sub action_time 7 8 +:+ " " +:+ lua_sub action_time 9 10 +:+ ":" +:+
  lua_sub action_time 11 12 +:+ ":" +:+ lua_sub action_time 13 14.

(** Lines 304-315: what the script does with a key it does not pass over.
    [s1], [s2] and [s3] are the first three parts of the key and [split_str]
    all of them. *)
Definition lua_write `{Runtime} (update_time sig price ref_str : option string)
    (key : string) (split_str : list string) (s1 s2 s3 : string) (cnt : nat) : M nat :=
  let model_key := s1 +:+ ":" +:+ s2 +:+ ":" +:+ s3 in
  let strategy_name := s2 in
  let symbol := s3 in
  action_time <- need (lua_index split_str 4)
                   "bad argument #1 to 'sub' (string expected, got nil)" ;;
  let at_str := lua_at_str action_time in
  score <- need (lua_tonumber action_time) nil_argument ;;
  ZADD model_key score key ;;;
  sig <- need sig nil_argument ;;
  update_time <- need update_time nil_argument ;;
  price <- need price nil_argument ;;
  ref_str <- need ref_str nil_argument ;;
  ret1 <- HMSET key (record_fields symbol sig at_str update_time price ref_str) ;;
  ret2 <- HMSET (lua_gsub key action_time "LAST")
                (record_fields symbol sig at_str update_time price ref_str) ;;
  if lua_truthy (ok ret1) && lua_truthy (ok ret2) then
    let pubKey := "PUBSUB:" +:+ s1 +:+ ":" +:+ strategy_name +:+ ":" +:+ symbol in
    PUBLISH pubKey (key +:+ ":" +:+ sig +:+ ":" +:+ price +:+ ":" +:+ ref_str) ;;;
    ret (cnt + 1)%nat
  else ret cnt.

(** The body of the loop [for i = 1, #KEYS do ... end] at index [i], with
    [key = KEYS[i]] and the counter [cnt] as it stands; it answers the
    counter after the iteration. *)
Definition lua_publish_key `{Runtime} (overwrite update_time : option string)
    (ARGV : list string) (i : nat) (key : string) (cnt : nat) : M nat :=
  let sig := lua_index ARGV (3 + 3 * (i - 1)) in
  let price := lua_index ARGV (4 + 3 * (i - 1)) in
  let ref_str := lua_index ARGV (5 + 3 * (i - 1)) in
  let split_str := lua_fields key in
  s1 <- need (lua_index split_str 1) "attempt to concatenate a nil value" ;;
  s2 <- need (lua_index split_str 2) "attempt to concatenate a nil value" ;;
  s3 <- need (lua_index split_str 3) "attempt to concatenate a nil value" ;;
  let model_key := s1 +:+ ":" +:+ s2 +:+ ":" +:+ s3 in
  if_pass <- lua_if_pass overwrite sig model_key ;;
  if negb if_pass then
    lua_write update_time sig price ref_str key split_str s1 s2 s3 cnt
  else ret cnt.

Fixpoint lua_publish_loop `{Runtime} (overwrite update_time : option string)
    (ARGV : list string) (i : nat) (keys : list string) (cnt : nat) : M nat :=
  match keys with
  | [] => ret cnt
  | key :: keys' =>
      cnt' <- lua_publish_key overwrite update_time ARGV i key cnt ;;
      lua_publish_loop overwrite update_time ARGV (S i) keys' cnt'
  end.

(** [self.lua_publish(keys=KEYS, args=ARGV)]: one run of the script. *)
Definition lua_publish `{Runtime} (KEYS ARGV : list string) : M nat :=
  let overwrite := lua_index ARGV 1 in
  let update_time := lua_index ARGV 2 in
  lua_publish_loop overwrite update_time ARGV 1 KEYS 0.

(** ** The client: [RedisWeightsClient] *)

Record client := Client {
  strategy_name : string;
  key_prefix : string;
  heartbeat_prefix : string
}.

(** The format of [datetime.now().strftime("%Y-%m-%d %H:%M:%S")]. *)
Definition iso_format : string := "%Y-%m-%d %H:%M:%S".

(** Lines 93-102 of [set_metadata]: the record [meta]. *)
Definition meta_fields `{Runtime} (self : client)
    (base_freq description author outsample_sdt : string)
    (kwargs : list (string * pyobj)) (now : Z) : list (string * string) :=
  [("name", strategy_name self);
   ("base_freq", base_freq);
   ("key_prefix", key_prefix self);
   ("description", description);
   ("author", author);
   ("outsample_sdt", outsample_sdt);
   ("update_time", strftime iso_format now);
   ("kwargs", json_dumps (PDict kwargs))].

(** Lines 92-104 of [set_metadata]: the record is built and written. *)
Definition write_metadata `{Runtime} (self : client)
    (base_freq description author outsample_sdt : string)
    (kwargs : list (string * pyobj)) (now : Z) : M unit :=
  let key := key_prefix self +:+ ":META:" +:+ strategy_name self in
  sdt <- need (to_datetime outsample_sdt) "ValueError: to_datetime" ;;
  let outsample_sdt := strftime "%Y%m%d" sdt in
  let meta := meta_fields self base_freq description author outsample_sdt kwargs now in
  HSET key meta ;;;
  SADD (key_prefix self +:+ ":StrategyNames") (strategy_name self) ;;;
  ret tt.

(** [set_metadata]; [kwargs] are the keyword arguments left after
    [overwrite] is popped and [now] is the reading of the clock. *)
Definition set_metadata `{Runtime} (self : client)
    (base_freq description author outsample_sdt : string)
    (overwrite : bool) (kwargs : list (string * pyobj)) (now : Z) : M unit :=
  let key := key_prefix self +:+ ":META:" +:+ strategy_name self in
  exists_ <- EXISTS key ;;
  if exists_ then
    if negb overwrite then
      logger WARNING "已存在 {self.strategy_name} 的元数据，如需覆盖请设置 overwrite=True" ;;;
      ret tt
    else
      DEL [key] ;;;
      logger WARNING "删除 {self.strategy_name} 的元数据，重新写入" ;;;
      write_metadata self base_freq description author outsample_sdt kwargs now
  else write_metadata self base_freq description author outsample_sdt kwargs now.

Definition update_last `{Runtime} (self : client)
    (kwargs : list (string * pyobj)) (now : Z) : M unit :=
  let key := key_prefix self +:+ ":LAST:" +:+ strategy_name self in
  let last :=
    [("name", strategy_name self);
     ("time", strftime iso_format now);
     ("kwargs", json_dumps (PDict kwargs))] in
  HSET key last ;;;
  logger INFO "更新 {key} 的 last 时间".

(** The property [metadata]. *)
Definition metadata (self : client) : M (gmap string string) :=
  HGETALL (key_prefix self +:+ ":META:" +:+ strategy_name self).

(** One turn of the loop of [__heartbeat] (the thread then sleeps 15 s). *)
Definition heartbeat (self : client) `{Runtime} (now : Z) : M unit :=
  let key := key_prefix self +:+ ":" +:+ heartbeat_prefix self +:+ ":" +:+
             strategy_name self in
  fun r =>
    match SET key (strftime iso_format now) r with
    | (Ok _, r') => (Ok tt, r')
    | (Raise e, r') => logger ERROR "心跳发送失败：{e}" r'
    end.

Definition get_keys (pattern : string) : M (list string) :=
  k <- KEYS pattern ;;
  ret (match k with [] => [] | _ => k end).

Definition get_symbols (self : client) : M (list string) :=
  keys <- get_keys (key_prefix self +:+ ":" +:+ strategy_name self +:+ ":*:LAST") ;;
  symbols <- forM (fun x => need (py_split x !! 2%nat) "IndexError") keys ;;
  ret (elements (list_to_set symbols : gset string)).

Definition last_key (self : client) (symbol : string) : string :=
  key_prefix self +:+ ":" +:+ strategy_name self +:+ ":" +:+ symbol +:+ ":LAST".

(** [get_last_times(symbols)] when [symbols] is one str. *)
Definition get_last_times_str `{Runtime} (self : client) (symbols : string) :
  M (option Z) :=
  row <- HGETALL (last_key self symbols) ;;
  if bool_decide (row = ∅) then ret None
  else
    dt <- need (row !! "dt") "KeyError: 'dt'" ;;
    t <- need (to_datetime dt) "ValueError: to_datetime" ;;
    ret (Some t).

(** [get_last_times(symbols)] when [symbols] is a list, or None (here the
    empty list, which the code treats alike). *)
Definition get_last_times `{Runtime} (self : client) (symbols : list string) :
  M (gmap string Z) :=
  symbols <- (match symbols with [] => get_symbols self | _ => ret symbols end) ;;
  rows <- forM (fun symbol => HGETALL (last_key self symbol)) symbols ;;
  entries <- forM (fun x : gmap string string =>
                     symbol <- need (x !! "symbol") "KeyError: 'symbol'" ;;
                     dt <- need (x !! "dt") "KeyError: 'dt'" ;;
                     t <- need (to_datetime dt) "ValueError: to_datetime" ;;
                     ret (symbol, t)) rows ;;
  ret (foldl (fun (m : gmap string Z) e => <[e.1 := e.2]> m) ∅ entries).

Definition event_key `{Runtime} (self : client) (symbol : string) (dt : Z) : string :=
  key_prefix self +:+ ":" +:+ strategy_name self +:+ ":" +:+ symbol +:+ ":" +:+
  strftime "%Y%m%d%H%M%S" dt.

(** Lines 167-171 of [publish]: the call of the script for one event. *)
Definition publish_send `{Runtime} (self : client) (symbol : string) (dt : Z)
    (weight price : pynum) (ref : pyobj) (overwrite : bool) (now : Z) : M nat :=
  let udt := strftime iso_format now in
  let key := event_key self symbol dt in
  let ref := if py_truthy ref then ref else PStr "{}" in
  let ref_str := if isinstance_dict ref then PStr (json_dumps ref) else ref in
  ARGV <- forM encode_arg
            [PNum (PyInt (if overwrite then 1 else 0)); PStr udt;
             PNum weight; PNum price; ref_str] ;;
  lua_publish [key] ARGV.

(** [publish]. A [dt] that is not a datetime is taken through
    [pd.to_datetime] by the source; here it is a time stamp already. *)
Definition publish `{Runtime} (self : client) (symbol : string) (dt : Z)
    (weight price : pynum) (ref : pyobj) (overwrite : bool) (now : Z) : M nat :=
  if negb overwrite then
    last_dt <- get_last_times_str self symbol ;;
    match last_dt with
    | Some last_dt =>
        if bool_decide (dt ≤ last_dt)%Z then
          logger WARNING "不允许重复写入，已过滤 {symbol} {dt} 的重复信号" ;;;
          ret 0%nat
        else publish_send self symbol dt weight price ref overwrite now
    | None => publish_send self symbol dt weight price ref overwrite now
    end
  else publish_send self symbol dt weight price ref overwrite now.

(** ** Data frames *)

(** One row of the frame given to [publish_dataframe]. *)
Record row := Row {
  symbol : string;
  dt : Z;
  weight : pynum;
  price : pynum;
  ref : pyobj
}.

(** The frame: its rows and whether it came with the optional columns
    ['price'] and ['ref']. *)
Record dataframe := DataFrame {
  df_rows : list row;
  has_price : bool;
  has_ref : bool
}.

Definition str_le (a b : string) : Prop := String.leb a b = true.

#[global] Instance str_le_dec : RelDecision str_le.
Proof. unfold str_le. solve_decision. Defined.

(** [df.sort_values(by)]: the rows in ascending order of the key. Among
    rows of equal keys pandas promises no order (its default sort is not
    stable); here they come as the merge sort leaves them. The results
    below are stated with this sort, and the frames they are tried on have
    no two rows of equal keys. *)
Definition key_le {A K} (R : relation K) (f : A -> K) : relation A :=
  fun a b => R (f a) (f b).

#[global] Instance key_le_dec {A K} (R : relation K) `{!RelDecision R} (f : A -> K) :
  RelDecision (key_le R f).
Proof. unfold key_le. solve_decision. Defined.

Definition sort_values {A K} (R : relation K) `{!RelDecision R} (f : A -> K)
    (l : list A) : list A :=
  merge_sort (key_le R f) l.

(** [df.groupby(by)]: one group per value of the key, in ascending order of
    the key, each with its rows in the order of the frame. *)
Definition groupby {A} (f : A -> string) (l : list A) : list (string * list A) :=
  (fun s => (s, filter (fun x => f x = s) l))
    <$> merge_sort str_le (remove_dups (f <$> l)).

(** [pd.concat(frames, ignore_index=True)]: refuses an empty list. *)
Definition pd_concat {A} (frames : list (list A)) : M (list A) :=
  match frames with
  | [] => raise "ValueError: No objects to concatenate"
  | _ => ret (concat frames)
  end.

(** [series.diff()]: each value less the one before; the first has none. *)
Definition diff (ws : list Q) : list (option Q) :=
  match ws with
  | [] => []
  | _ :: ws' => None :: zip_with (fun prev w => Some (w - prev)%Q) ws ws'
  end.

(** [series.fillna(v)] *)
Definition fillna (v : Q) (l : list (option Q)) : list Q := default v <$> l.

(** [frame[mask]]: the rows where the mask holds. *)
Definition select_mask {A} (l : list A) (mask : list bool) : list A :=
  (List.filter snd (zip l mask)).*1.

(** [dfg[dfg["weight"].diff().fillna(1) != 0]] *)
Definition drop_repeated_weights (dfg : list row) : list row :=
  select_mask dfg
    ((fun d => negb (Qeq_bool d 0)) <$> fillna 1 (diff (num_val ∘ weight <$> dfg))).

(** [range(0, n, step)] for a positive step. *)
Definition py_range (n step : nat) : list nat :=
  (fun k => k * step)%nat <$> seq 0 ((n + step - 1) / step).

(** [l[i:j]] *)
Definition slice {A} (l : list A) (i j : nat) : list A := take (j - i) (drop i l).

Definition with_price (p : pynum) (x : row) : row :=
  {| symbol := symbol x; dt := dt x; weight := weight x; price := p; ref := ref x |}.

Definition with_ref (o : pyobj) (x : row) : row :=
  {| symbol := symbol x; dt := dt x; weight := weight x; price := price x; ref := o |}.

(** The first filter of [publish_dataframe]: per symbol, in time order, the
    rows that repeat the weight before them are dropped; the groups are put
    together again and the frame is sorted by time. *)
Definition dedup_frame (rows : list row) : M (list row) :=
  let _res :=
    (fun g => drop_repeated_weights (sort_values Z.le dt g.2))
      <$> groupby symbol rows in
  df <- pd_concat _res ;;
  ret (sort_values Z.le dt df).

(** The second filter, taken when [overwrite] is false: per symbol, the rows
    not later than the time in [_time] are dropped. *)
Definition filter_stale (_time : gmap string Z) (rows : list row) : M (list row) :=
  let _data :=
    (fun g => match _time !! g.1 with
              | Some last_dt => filter (fun x => (last_dt < dt x)%Z) g.2
              | None => g.2
              end) <$> groupby symbol rows in
  pd_concat _data.

(** The three arguments a row adds to [args]. *)
Definition row_args `{Runtime} (x : row) : list pyobj :=
  [PNum (weight x); PNum (price x);
   if isinstance_dict (ref x) then PStr (json_dumps (ref x)) else ref x].

(** The body of the loop over [range(0, len_keys, batch_size)]. *)
Definition publish_chunk `{Runtime} (keys : list string) (args : list pyobj)
    (overwrite : Z) (udt : string) (batch_size : nat) (i : nat) (pub_cnt : nat) :
  M nat :=
  let len_keys := length keys in
  let '(tmp_keys, tmp_args) :=
    if bool_decide (i + batch_size < len_keys)%nat
    then (slice keys i (i + batch_size),
          ([PNum (PyInt overwrite); PStr udt] ++ slice args (3 * i) (3 * (i + batch_size)))%list)
    else (slice keys i len_keys,
          ([PNum (PyInt overwrite); PStr udt] ++ slice args (3 * i) (3 * len_keys))%list) in
  logger INFO "索引 {i}，即将发布 {len(tmp_keys)} 条权重信号" ;;;
  ARGV <- forM encode_arg tmp_args ;;
  n <- lua_publish tmp_keys ARGV ;;
  let pub_cnt := (pub_cnt + n)%nat in
  logger INFO "已完成 {pub_cnt} 次发布" ;;;
  ret pub_cnt.

Fixpoint publish_chunks `{Runtime} (keys : list string) (args : list pyobj)
    (overwrite : Z) (udt : string) (batch_size : nat) (starts : list nat)
    (pub_cnt : nat) : M nat :=
  match starts with
  | [] => ret pub_cnt
  | i :: starts' =>
      pub_cnt' <- publish_chunk keys args overwrite udt batch_size i pub_cnt ;;
      publish_chunks keys args overwrite udt batch_size starts' pub_cnt'
  end.

(** Lines 182-211 of [publish_dataframe]: the rows that are left to send. *)
Definition prepare_rows `{Runtime} (self : client) (df : dataframe) (overwrite : bool) :
  M (list row) :=
  logger INFO "输入数据中有 {len(df)} 条权重信号" ;;;
  rows <- dedup_frame (df_rows df) ;;
  logger INFO "去除单个品种下相邻时间权重相同的数据后，剩余 {len(df)} 条权重信号" ;;;
  let rows := if has_price df then rows else with_price (PyInt 0) <$> rows in
  let rows := if has_ref df then rows else with_ref (PStr "{}") <$> rows in
  if negb overwrite then
    _time <- get_last_times self [] ;;
    rows <- filter_stale _time rows ;;
    logger INFO "不允许重复写入，已过滤 {raw_count - len(df)} 条重复信号" ;;;
    ret rows
  else ret rows.

(** Lines 213-240: the keys and arguments of the rows, sent in chunks. *)
Definition send_rows `{Runtime} (self : client) (rows : list row) (overwrite : bool)
    (batch_size : nat) (now now_last : Z) : M nat :=
  let keys := (fun x => event_key self (symbol x) (dt x)) <$> rows in
  let args := rows ≫= row_args in
  let udt := strftime iso_format now in
  let overwrite := (if overwrite then 1 else 0)%Z in
  if bool_decide (batch_size = 0)%nat
  then raise "ValueError: range() arg 3 must not be zero"
  else
    pub_cnt <- publish_chunks keys args overwrite udt batch_size
                 (py_range (length keys) batch_size) 0 ;;
    update_last self [] now_last ;;;
    ret pub_cnt.

(** [publish_dataframe]; [now] and [now_last] are the two readings of the
    clock, the one for [udt] and the one inside [update_last]. *)
Definition publish_dataframe `{Runtime} (self : client) (df : dataframe)
    (overwrite : bool) (batch_size : nat) (now now_last : Z) : M nat :=
  rows <- prepare_rows self df overwrite ;;
  send_rows self rows overwrite batch_size now now_last.

(** [str.lower()] on the letters A to Z. *)
Definition lower_char (c : ascii) : ascii :=
  let n := nat_of_ascii c in
  if (65 <=? n)%nat && (n <=? 90)%nat then ascii_of_nat (n + 32) else c.

Fixpoint py_lower (s : string) : string :=
  match s with
  | EmptyString => EmptyString
  | String c s' => String (lower_char c) (py_lower s')
  end.

(** Lines 258-261 of [clear_all]: the keys to delete. *)
Definition keys_to_clear (self : client) : M (list string) :=
  keys <- get_keys (key_prefix self +:+ ":" +:+ strategy_name self +:+ "*") ;;
  let keys := (keys ++ [key_prefix self +:+ ":META:" +:+ strategy_name self])%list in
  let keys := (keys ++ [key_prefix self +:+ ":LAST:" +:+ strategy_name self])%list in
  let keys := (keys ++ [key_prefix self +:+ ":" +:+ heartbeat_prefix self +:+ ":" +:+
                        strategy_name self])%list in
  ret keys.

(** Lines 273-275: the deletion. *)
Definition wipe (self : client) (keys : list string) : M unit :=
  DEL keys ;;;
  cong <- SREM (key_prefix self +:+ ":StrategyNames") (strategy_name self) ;;
  logger INFO "{self.strategy_name} 删除了 {len(keys)} 条记录, {cong} 条策略名".

(** [clear_all]; [human] is what the operator types when asked. *)
Definition clear_all (self : client) (with_human : bool) (human : string) : M unit :=
  keys <- keys_to_clear self ;;
  if bool_decide (length keys = 0)%nat then
    logger WARNING "{self.strategy_name} 没有记录"
  else if with_human then
    if bool_decide (py_lower human ≠ "y") then
      logger WARNING "{self.strategy_name} 删除操作已取消"
    else wipe self keys
  else wipe self keys.

(** ** Reading back *)

(** One row of the frame [get_hist_weights] answers. *)
Record hist_row := HistRow {
  h_strategy_name : string;
  h_symbol : string;
  h_dt : Z;
  h_weight : option Q;
  h_price : option Q;
  h_ref : pyobj
}.

(** [x if x is None else float(x)] *)
Definition float_or_none `{Runtime} (x : option string) : M (option Q) :=
  match x with
  | None => ret None
  | Some s => q <- need (py_float s) "ValueError: could not convert string to float" ;;
              ret (Some q)
  end.

(** [try: ref = json.loads(ref) except Exception: ref = ref]; a missing
    field is None, which json.loads refuses. *)
Definition loads_or_raw `{Runtime} (ref : option string) : pyobj :=
  match ref with
  | None => PNone
  | Some s => match json_loads s with Some o => o | None => PStr s end
  end.

(** redis-py: [zrangebyscore(name, min, max)] with the bounds as text. *)
Definition zrangebyscore `{Runtime} (name min max : string) : M (list string) :=
  lo <- need (redis_score min) "ERR min or max is not a float" ;;
  hi <- need (redis_score max) "ERR min or max is not a float" ;;
  ZRANGEBYSCORE name lo hi.

(** Lines 391-399 of [get_hist_weights]: the row made of a key and of its
    fields [weight], [price] and [ref]. *)
Definition hist_row_of `{Runtime} (self : client) (symbol : string)
    (kr : string * list (option string)) : M hist_row :=
  let '(key, r) := kr in
  last_ <- need (last (py_split key)) "IndexError" ;;
  dt <- need (to_datetime last_) "ValueError: to_datetime" ;;
  match r with
  | [weight; price; ref] =>
      weight <- float_or_none weight ;;
      price <- float_or_none price ;;
      let ref := loads_or_raw ref in
      ret (HistRow (strategy_name self) symbol dt weight price ref)
  | _ => raise "ValueError: not enough values to unpack"
  end.

Definition get_hist_weights `{Runtime} (self : client) (symbol sdt edt : string) :
  M (list hist_row) :=
  sdt' <- need (to_datetime sdt) "ValueError: to_datetime" ;;
  let start_score := strftime "%Y%m%d%H%M%S" sdt' in
  edt' <- need (to_datetime edt) "ValueError: to_datetime" ;;
  let end_score := strftime "%Y%m%d%H%M%S" edt' in
  let model_key := key_prefix self +:+ ":" +:+ strategy_name self +:+ ":" +:+ symbol in
  key_list <- zrangebyscore model_key start_score end_score ;;
  if bool_decide (length key_list = 0)%nat then
    logger WARNING "no history weights: {symbol} - {sdt} - {edt}" ;;;
    ret []
  else
    rows <- forM (fun key => HMGET key ["weight"; "price"; "ref"]) key_list ;;
    weights <- forM (hist_row_of self symbol) (zip key_list rows) ;;
    ret (sort_values Z.le h_dt weights).

(** The Lua script of [get_all_weights]: of the keys that match the
    pattern, those whose last part has 14 characters and is a number are
    read with HGETALL. *)
Definition lua_all_weights `{Runtime} (pattern : string) : M (list (list string)) :=
  keys <- KEYS pattern ;;
  foldl (fun (acc : M (list (list string))) key =>
           results <- acc ;;
           last_part <- need (lua_last_part key) "attempt to get length of a nil value" ;;
           if bool_decide (String.length last_part = 14)%nat &&
              bool_decide (is_Some (lua_tonumber last_part))
           then h <- HGETALL_flat key ;; ret (results ++ [h])%list
           else ret results)
        (ret []) keys.

(** [dict(zip(r[::2], r[1::2]))] *)
Fixpoint pair_up (r : list string) : list (string * string) :=
  match r with
  | f :: v :: r' => (f, v) :: pair_up r'
  | _ => []
  end.

Definition py_dict (l : list (string * string)) : gmap string string :=
  foldl (fun (m : gmap string string) fv => <[fv.1 := fv.2]> m) ∅ l.

(** A row of the frame of weights: the columns the method uses. *)
Record wrow := WRow {
  w_dt : Z;
  w_symbol : string;
  w_weight : Q;
  w_update_time : option string
}.

(** [pd.DataFrame(results)] with [dt] through [pd.to_datetime] and [weight]
    through [astype(float)]. A record without one of the fields [dt],
    [symbol] or [weight] would be carried by pandas as a row with a missing
    cell; the model stops at such a record. *)
Definition to_wrow `{Runtime} (x : gmap string string) : M wrow :=
  dt <- need (x !! "dt") "record without 'dt'" ;;
  t <- need (to_datetime dt) "ValueError: to_datetime" ;;
  symbol <- need (x !! "symbol") "record without 'symbol'" ;;
  weight <- need (x !! "weight") "record without 'weight'" ;;
  w <- need (py_float weight) "ValueError: could not convert string to float" ;;
  ret (WRow t symbol w (x !! "update_time")).

Definition dt_symbol_le : relation (Z * string) :=
  fun a b => (a.1 < b.1)%Z ∨ (a.1 = b.1 ∧ str_le a.2 b.2).

#[global] Instance dt_symbol_le_dec : RelDecision dt_symbol_le.
Proof. unfold dt_symbol_le. solve_decision. Defined.

Definition symbol_dt_le : relation (string * Z) :=
  fun a b => (str_le a.1 b.1 ∧ a.1 ≠ b.1) ∨ (a.1 = b.1 ∧ (a.2 ≤ b.2)%Z).

#[global] Instance symbol_dt_le_dec : RelDecision symbol_dt_le.
Proof. unfold symbol_dt_le. solve_decision. Defined.

(** The mean of a non-empty list, the aggregation of [pd.pivot_table]. *)
Definition mean (l : list Q) : Q :=
  (foldr Qplus 0 l / inject_Z (Z.of_nat (length l)))%Q.

(** [pd.pivot_table(df, index="dt", columns="symbol", values="weight")]:
    one line per time and one column per symbol, both ascending; a cell is
    the mean of the weights of the rows with that time and symbol and is
    missing when there is none. *)
Definition pivot_cell (df : list wrow) (t : Z) (s : string) : option Q :=
  match filter (fun x => w_dt x = t /\ w_symbol x = s) df with
  | [] => None
  | l => Some (mean (w_weight <$> l))
  end.

Record table (C : Type) := Table {
  columns : list string;
  lines : list (Z * list C)
}.
Arguments Table {C} columns lines.
Arguments columns {C} t.
Arguments lines {C} t.

Definition pivot_table (df : list wrow) : table (option Q) :=
  let index := merge_sort Z.le (remove_dups (w_dt <$> df)) in
  let columns := merge_sort str_le (remove_dups (w_symbol <$> df)) in
  Table columns ((fun t => (t, pivot_cell df t <$> columns)) <$> index).

(** [table.ffill()]: down each column, a missing cell takes the value of
    the cell above it. *)
Definition fill_from (above cell : option Q) : option Q :=
  match cell with Some _ => cell | None => above end.

Fixpoint ffill_lines (above : list (option Q)) (ls : list (Z * list (option Q))) :
  list (Z * list (option Q)) :=
  match ls with
  | [] => []
  | (t, cs) :: ls' =>
      let cs' := zip_with fill_from above cs in
      (t, cs') :: ffill_lines cs' ls'
  end.

Definition ffill (tb : table (option Q)) : table (option Q) :=
  Table (columns tb) (ffill_lines (replicate (length (columns tb)) None) (lines tb)).

(** [table.fillna(0)] *)
Definition table_fillna (v : Q) (tb : table (option Q)) : table Q :=
  Table (columns tb) ((fun l => (l.1, fillna v l.2)) <$> lines tb).

(** [pd.melt(table.reset_index(), id_vars="dt", value_vars=table.columns,
    value_name="weight")]: column after column, one row per line. *)
Definition melt (tb : table Q) : list (Z * string * Q) :=
  imap (fun j s => omap (fun l => (fun w => (l.1, s, w)) <$> l.2 !! j) (lines tb))
       (columns tb) ≫= id.

(** [df1.merge(df[["dt", "symbol", "update_time"]], on=["dt", "symbol"],
    how="left")] *)
Definition merge_update_time (df1 : list (Z * string * Q)) (df : list wrow) : list wrow :=
  df1 ≫= (fun x =>
    let '(t, s, w) := x in
    match filter (fun y => w_dt y = t /\ w_symbol y = s) df with
    | [] => [WRow t s w None]
    | ys => (fun y => WRow t s w (w_update_time y)) <$> ys
    end).

(** [series.ffill()] and [series.bfill()] on a column of texts. *)
Fixpoint ffill_col {A} (above : option A) (l : list (option A)) : list (option A) :=
  match l with
  | [] => []
  | c :: l' =>
      let c' := match c with Some _ => c | None => above end in
      c' :: ffill_col c' l'
  end.

Definition bfill_col {A} (l : list (option A)) : list (option A) :=
  reverse (ffill_col None (reverse l)).

Definition with_update_time (u : option string) (x : wrow) : wrow :=
  WRow (w_dt x) (w_symbol x) (w_weight x) u.

(** The loop [for _, dfg in df1.groupby("symbol")] that fills the
    [update_time] of each symbol forward and then backward. As [df1] is
    sorted by symbol and then time, putting the groups one after the other
    gives the frame back in its order. *)
Definition fill_update_time (df1 : list wrow) : list wrow :=
  groupby w_symbol df1 ≫= (fun g =>
    zip_with with_update_time
      (bfill_col (ffill_col None (w_update_time <$> g.2))) g.2).

(** Lines 430-438 and 440: from the frame of records to the dense frame,
    one row per time and symbol. *)
Definition dense_frame (df : list wrow) : list wrow :=
  let df := sort_values dt_symbol_le (fun x => (w_dt x, w_symbol x)) df in
  let df1 := table_fillna 0 (ffill (pivot_table df)) in
  let df1 := melt df1 in
  let df1 := merge_update_time df1 df in
  let df1 := sort_values symbol_dt_le (fun x => (w_symbol x, w_dt x)) df1 in
  fill_update_time df1.

(** [get_all_weights]; an [sdt] or [edt] that is None is the empty text
    here, which the tests [if sdt:] and [if edt:] treat alike. *)
Definition get_all_weights `{Runtime} (self : client) (sdt edt : string) :
  M (list wrow) :=
  let key_pattern := key_prefix self +:+ ":" +:+ strategy_name self +:+ ":*:*" in
  results <- lua_all_weights key_pattern ;;
  let results := (fun r => py_dict (pair_up r)) <$> results in
  if bool_decide (results = []) then raise "KeyError: 'dt'"
  else
    df <- forM to_wrow results ;;
    let df1 := dense_frame df in
    df1 <- (if nonempty sdt then
              t <- need (to_datetime sdt) "ValueError: to_datetime" ;;
              ret (filter (fun x => (t ≤ w_dt x)%Z) df1)
            else ret df1) ;;
    df1 <- (if nonempty edt then
              t <- need (to_datetime edt) "ValueError: to_datetime" ;;
              ret (filter (fun x => (w_dt x ≤ t)%Z) df1)
            else ret df1) ;;
    ret (sort_values dt_symbol_le (fun x => (w_dt x, w_symbol x)) df1).

(** ** The last weights *)

(** The Lua script of [get_last_weights]: every key that matches the
    pattern is read with HGETALL. *)
Definition lua_last_weights (pattern : string) : M (list (list string)) :=
  keys <- KEYS pattern ;;
  forM HGETALL_flat keys.

(** A row of the frame [get_last_weights] answers: the record it was made
    of, with its time, symbol and weight; a cell is missing when the record
    has no such field (pandas: NaT, NaN). *)
Record lrow := LRow {
  l_dt : option Z;
  l_symbol : option string;
  l_weight : option Q;
  l_record : gmap string string
}.

(** A column of the frame exists when one record at least has the field;
    asking for a column that does not exist raises KeyError. *)
Definition has_column (field : string) (rows : list (gmap string string)) : bool :=
  existsb (fun x => bool_decide (is_Some (x !! field))) rows.

(** [pd.to_datetime] on a cell; a missing cell stays missing. *)
Definition datetime_or_none `{Runtime} (x : option string) : M (option Z) :=
  match x with
  | None => ret None
  | Some s => t <- need (to_datetime s) "ValueError: to_datetime" ;; ret (Some t)
  end.

(** [dfw["weight"] != 0]; a missing weight differs from 0. *)
Definition weight_not_zero (x : lrow) : bool :=
  match l_weight x with Some q => negb (Qeq_bool q 0) | None => true end.

(** The order of [sort_values(["dt", "symbol"])]: by time, then by symbol,
    missing cells last. *)
Definition none_lt (a b : option Z) : Prop :=
  match a, b with
  | Some x, Some y => (x < y)%Z
  | Some _, None => True
  | None, _ => False
  end.

Definition none_last_le (a b : option string) : Prop :=
  match a, b with
  | Some x, Some y => str_le x y
  | _, None => True
  | None, Some _ => False
  end.

Definition ldt_symbol_le : relation (option Z * option string) :=
  fun a b => none_lt a.1 b.1 \/ (a.1 = b.1 /\ none_last_le a.2 b.2).

#[global] Instance none_lt_dec : RelDecision none_lt.
Proof. intros [x |] [y |]; cbn; apply _. Defined.

#[global] Instance none_last_le_dec : RelDecision none_last_le.
Proof. intros [x |] [y |]; cbn; apply _. Defined.

#[global] Instance ldt_symbol_le_dec : RelDecision ldt_symbol_le.
Proof. unfold ldt_symbol_le. intros a b. apply _. Defined.

(** Lines 344-349 of [get_last_weights]: the frame made of the records. *)
Definition last_frame `{Runtime} (rows : list (gmap string string)) (ignore_zero : bool) :
  M (list lrow) :=
  if negb (has_column "weight" rows) then raise "KeyError: 'weight'"
  else
    weights <- forM (fun x => float_or_none (x !! "weight")) rows ;;
    if negb (has_column "dt" rows) then raise "KeyError: 'dt'"
    else
      dts <- forM (fun x => datetime_or_none (x !! "dt")) rows ;;
      let dfw :=
        (fun x => LRow x.1.2 (x.2 !! "symbol") x.1.1 x.2) <$> zip (zip weights dts) rows in
      let dfw := if ignore_zero then List.filter weight_not_zero dfw else dfw in
      if negb (has_column "symbol" rows) then raise "KeyError: 'symbol'"
      else ret (sort_values ldt_symbol_le (fun x => (l_dt x, l_symbol x)) dfw).

(** [get_last_weights]; [symbols] that is None is the empty list here, which
    the tests [if symbols:] and [symbols if symbols else ...] treat alike. *)
Definition get_last_weights `{Runtime} (self : client) (symbols : list string)
    (ignore_zero lua : bool) : M (list lrow) :=
  rows <- (if lua then
             let key_pattern :=
               key_prefix self +:+ ":" +:+ strategy_name self +:+ ":*:LAST" in
             results <- lua_last_weights key_pattern ;;
             let rows := (fun r => py_dict (pair_up r)) <$> results in
             match symbols with
             | [] => ret rows
             | _ =>
                 kept <- forM (fun x : gmap string string =>
                                 s <- need (x !! "symbol") "KeyError: 'symbol'" ;;
                                 ret (x, bool_decide (s ∈ symbols))) rows ;;
                 ret ((List.filter snd kept).*1)
             end
           else
             symbols <- (match symbols with [] => get_symbols self | _ => ret symbols end) ;;
             forM (fun symbol => HGETALL (last_key self symbol)) symbols) ;;
  last_frame rows ignore_zero.

(** ** Notions used in the statements *)

(** The store after one more line is logged. *)
Definition log_line (l : level) (msg : string) (r : redis) : redis :=
  {| db := db r; published := published r; logged := (logged r ++ [(l, msg)])%list |}.

(** A part of a key: a text without a colon. *)
Fixpoint colon_free (s : string) : bool :=
  match s with
  | EmptyString => true
  | String c s' => negb (Ascii.eqb c ":"%char) && colon_free s'
  end.

(** [clear_of t front]: the text [t] does not occur in [front +:+ t] before
    its last position. *)
Fixpoint clear_of (t front : string) : bool :=
  match front with
  | EmptyString => true
  | String c f' => negb (String.prefix t (front +:+ t)) && clear_of t f'
  end.

(** What a key holds, read as a hash or as a sorted set; a key that does not
    exist reads as the empty one. *)
Definition hash_at (r : redis) (key : string) : gmap string string :=
  match db r !! key with Some (RHash h) => h | _ => ∅ end.

Definition zset_at (r : redis) (key : string) : gmap string Q :=
  match db r !! key with Some (RZSet z) => z | _ => ∅ end.

Definition holds_hash (r : redis) (key : string) : Prop :=
  db r !! key = None \/ exists h, db r !! key = Some (RHash h).

Definition holds_zset (r : redis) (key : string) : Prop :=
  db r !! key = None \/ exists z, db r !! key = Some (RZSet z).

Definition holds_set (r : redis) (key : string) : Prop :=
  db r !! key = None \/ exists s, db r !! key = Some (RSet s).

(** A part of a key as the client writes it: not empty, without a colon. *)
Definition key_part (s : string) : Prop := nonempty s = true /\ colon_free s = true.

(** The first filter of [publish_dataframe] in the words of the
    specification: in a list of events of one symbol in time order, an event
    is dropped when its weight equals the weight of the event just before
    it, and the first event is kept. *)
Fixpoint keep_changes_from (prev : Q) (l : list row) : list row :=
  match l with
  | [] => []
  | x :: l' =>
      if Qeq_bool (num_val (weight x)) prev
      then keep_changes_from (num_val (weight x)) l'
      else x :: keep_changes_from (num_val (weight x)) l'
  end.

Definition keep_changes (l : list row) : list row :=
  match l with
  | [] => []
  | x :: l' => x :: keep_changes_from (num_val (weight x)) l'
  end.

(** Cutting a list into pieces of [n] elements, the last one maybe shorter. *)
Definition chunks {A} (n : nat) (l : list A) : list (list A) :=
  (fun i => take n (drop i l)) <$> py_range (length l) n.

(** The sending of one chunk of rows: one run of the script with the keys
    of the rows and, after the flag and the update time, the weight, price
    and reference of each row in the same order, between the two lines the
    loop logs; it answers the count of that run. *)
Definition send_chunk `{Runtime} (self : client) (overwrite : Z) (udt : string)
    (chunk : list row) : M nat :=
  logger INFO "索引 {i}，即将发布 {len(tmp_keys)} 条权重信号" ;;;
  ARGV <- forM encode_arg
            ([PNum (PyInt overwrite); PStr udt] ++ (chunk ≫= row_args))%list ;;
  n <- lua_publish ((fun x => event_key self (symbol x) (dt x)) <$> chunk) ARGV ;;
  logger INFO "已完成 {pub_cnt} 次发布" ;;;
  ret n.

(** The sum of a list of counts. *)
Definition sum_counts (ns : list nat) : nat := foldr Nat.add 0%nat ns.

(** A computation that only reads the data base: it leaves the store as it
    is and what it answers depends on the keys of the store only. *)
Definition reads_db {A} (m : M A) : Prop :=
  forall r, (m r).2 = r /\ forall r', db r' = db r -> (m r').1 = (m r).1.

(** The frame after the first filter. *)
Definition deduped (rows : list row) : list row :=
  sort_values Z.le dt
    (concat ((fun g => drop_repeated_weights (sort_values Z.le dt g.2))
               <$> groupby symbol rows)).

(** The frame with the columns ['price'] and ['ref'] it may lack. *)
Definition with_defaults (df : dataframe) (rows : list row) : list row :=
  let rows := if has_price df then rows else with_price (PyInt 0) <$> rows in
  if has_ref df then rows else with_ref (PStr "{}") <$> rows.

(** An event is later than the time recorded for its symbol, if any. *)
Definition later_than (_time : gmap string Z) (x : row) : Prop :=
  match _time !! symbol x with
  | Some last_dt => (last_dt < dt x)%Z
  | None => True
  end.

#[global] Instance later_than_dec (_time : gmap string Z) (x : row) :
  Decision (later_than _time x).
Proof. unfold later_than. destruct (_time !! symbol x); apply _. Defined.

(** The three lines [publish_dataframe] logs before it sends. *)
Definition log1 : string := "输入数据中有 {len(df)} 条权重信号".
Definition log2 : string :=
  "去除单个品种下相邻时间权重相同的数据后，剩余 {len(df)} 条权重信号".
Definition log3 : string := "不允许重复写入，已过滤 {raw_count - len(df)} 条重复信号".


(** What [publish] sends as the reference of an event: the text [{}] for a
    reference that counts as false (None, an empty dict, an empty text), the
    JSON text of a dict, a text as it is. *)
Definition ref_text `{Runtime} (ref : pyobj) : option string :=
  match (if py_truthy ref then ref else PStr "{}") with
  | PDict d => Some (json_dumps (PDict d))
  | PStr s => Some s
  | PNum n => Some (encode_num n)
  | _ => None
  end.

(** A record that [get_hist_weights] can read: a hash (or nothing) under a
    key whose last part is a time, with a weight and a price that are
    numbers when they are there. *)
Definition readable_record `{Runtime} (r : redis) (key : string) : Prop :=
  holds_hash r key
  /\ (exists lp, last (py_split key) = Some lp /\ is_Some (to_datetime lp))
  /\ (forall w, hash_at r key !! "weight" = Some w -> is_Some (py_float w))
  /\ (forall p, hash_at r key !! "price" = Some p -> is_Some (py_float p)).

(** The frame of weights has an event of symbol [s] at time [t]. *)
Definition has_event (df : list wrow) (t : Z) (s : string) : Prop :=
  exists y, y ∈ df /\ w_dt y = t /\ w_symbol y = s.

(** The weight recorded for symbol [s] at time [t]: the mean over the rows
    of that time and symbol (one row, when the records have distinct
    keys). *)
Definition cell_mean (df : list wrow) (t : Z) (s : string) : Q :=
  mean (w_weight <$> filter (fun x => w_dt x = t /\ w_symbol x = s) df).

(** [carried df s t w]: [w] is the weight that symbol [s] has at time [t]
    when the last known weight is carried forward: the weight recorded at
    the latest time at or before [t] at which [s] has an event, and zero
    when [s] has no event at or before [t]. *)
Definition carried (df : list wrow) (s : string) (t : Z) (w : Q) : Prop :=
  (exists t', (t' <= t)%Z /\ has_event df t' s /\ (w == cell_mean df t' s)%Q /\
              forall t'', (t' < t'' <= t)%Z -> ~ has_event df t'' s)
  \/ (w = 0%Q /\ forall t'', (t'' <= t)%Z -> ~ has_event df t'' s).

(** A key ends in a time stamp: its last part is made of 14 digits. *)
Definition has_time_suffix (key : string) : bool :=
  match lua_last_part key with
  | Some lp => bool_decide (String.length lp = 14%nat) && all_digits lp
  | None => false
  end.

(** The test of the script of [get_all_weights] on the last part of a key. *)
Definition numeric_14 `{Runtime} (key : string) : bool :=
  match lua_last_part key with
  | Some lp => bool_decide (String.length lp = 14%nat) &&
               bool_decide (is_Some (lua_tonumber lp))
  | None => false
  end.

(** The number of colons of a text. *)
Fixpoint colons (s : string) : nat :=
  match s with
  | EmptyString => 0
  | String c s' => (if Ascii.eqb c ":"%char then 1 else 0) + colons s'
  end.

(** The number of colons of a list of characters. *)
Definition lcolons (l : list ascii) : nat :=
  length (filter (fun c => c = ":"%char) l).


(** An event that the script can write under the key the client builds for
    it: the parts of the key have no colon, its time stamp is made of digits
    that Lua reads as a number, and the digits of the time stamp do not
    occur in the key before its last part (the script finds the key of the
    LastPointer by replacing them). *)
Definition well_formed_event `{Runtime} (self : client) (symbol : string) (dt : Z) : Prop :=
  let t := strftime "%Y%m%d%H%M%S" dt in
  let model_key := key_prefix self +:+ ":" +:+ strategy_name self +:+ ":" +:+ symbol in
  key_part (key_prefix self) /\ key_part (strategy_name self) /\ key_part symbol
  /\ key_part t /\ all_digits t = true /\ clear_of t (model_key +:+ ":") = true
  /\ is_Some (lua_tonumber t).

(** The three keys of an event hold what the script expects, or nothing. *)
Definition typed_for `{Runtime} (self : client) (symbol : string) (dt : Z) (r : redis) :
  Prop :=
  holds_zset r (key_prefix self +:+ ":" +:+ strategy_name self +:+ ":" +:+ symbol)
  /\ holds_hash r (event_key self symbol dt)
  /\ holds_hash r (last_key self symbol).

(** What one accepted event leaves in the store [r'], from the store [r]:
    the entry of the SymbolIndex, the record, the LastPointer, no other key
    touched, and one message. *)
Definition recorded `{Runtime} (self : client) (symbol : string) (dt : Z)
    (sig price text udt : string) (r r' : redis) : Prop :=
  let model_key := key_prefix self +:+ ":" +:+ strategy_name self +:+ ":" +:+ symbol in
  let key := event_key self symbol dt in
  let last := last_key self symbol in
  let fields :=
    record_fields symbol sig (lua_at_str (strftime "%Y%m%d%H%M%S" dt)) udt price text in
  (exists score, lua_tonumber (strftime "%Y%m%d%H%M%S" dt) = Some score /\
     db r' !! model_key = Some (RZSet (<[key := score]> (zset_at r model_key))))
  /\ db r' !! key = Some (RHash (hash_set fields (hash_at r key)))
  /\ db r' !! last = Some (RHash (hash_set fields (hash_at r last)))
  /\ (forall k, k <> model_key -> k <> key -> k <> last -> db r' !! k = db r !! k)
  /\ published r' =
     (published r ++
        [("PUBSUB:" +:+ key_prefix self +:+ ":" +:+ strategy_name self +:+ ":" +:+ symbol,
          key +:+ ":" +:+ sig +:+ ":" +:+ price +:+ ":" +:+ text)])%list.


(** The row [get_hist_weights] makes of a key of the SymbolIndex: the time
    read from the last part of the key, the weight and the price as floats
    and the reference decoded. *)
Definition row_of_key `{Runtime} (self : client) (symbol : string) (r : redis)
    (key : string) : option hist_row :=
  lp ← last (py_split key);
  t ← to_datetime lp;
  Some (HistRow (strategy_name self) symbol t
          (hash_at r key !! "weight" ≫= py_float)
          (hash_at r key !! "price" ≫= py_float)
          (loads_or_raw (hash_at r key !! "ref"))).


(** The property [heartbeat_time]: [pd.to_datetime(self.r.get(key))];
    pandas answers None for None. *)
Definition heartbeat_time `{Runtime} (self : client) : M (option Z) :=
  let key := key_prefix self +:+ ":" +:+ heartbeat_prefix self +:+ ":" +:+
             strategy_name self in
  v <- GET key ;;
  match v with
  | None => ret None
  | Some s => t <- need (to_datetime s) "ValueError: to_datetime" ;; ret (Some t)
  end.

(** [get_strategy_names]: the members of the directory of names, in the
    order Python lists the set. *)
Definition get_strategy_names (key_prefix : string) : M (list string) :=
  rs <- SMEMBERS (key_prefix +:+ ":StrategyNames") ;;
  ret (elements rs).

(** [clear_strategy]: a client for the strategy, which sends no heartbeat,
    and its [clear_all]. *)
Definition clear_strategy (strategy_name key_prefix heartbeat_prefix : string)
    (with_human : bool) (human : string) : M unit :=
  let rwc := Client strategy_name key_prefix heartbeat_prefix in
  clear_all rwc with_human human.


(** The LastPointer of symbol [s] is recorded with the time [t]: its hash
    names the symbol and holds a time that pandas reads as [t]. *)
Definition last_recorded `{Runtime} (self : client) (r : redis) (s : string) (t : Z) :
  Prop :=
  exists h d, db r !! last_key self s = Some (RHash h)
              /\ h !! "symbol" = Some s /\ h !! "dt" = Some d
              /\ to_datetime d = Some t.


(** [grows r r']: the store [r'] holds all that [r] holds. Every key of [r]
    is still there with a value of the same type; a hash has kept its
    fields and a sorted set its members (their values may have been
    replaced); the messages and the lines of the log of [r] are the first
    of those of [r']. *)
Definition grows (r r' : redis) : Prop :=
  (forall k v, db r !! k = Some v ->
     match v with
     | RHash h => exists h', db r' !! k = Some (RHash h') /\ dom h ⊆ dom h'
     | RZSet z => exists z', db r' !! k = Some (RZSet z') /\ dom z ⊆ dom z'
     | _ => db r' !! k = Some v
     end)
  /\ (exists l, published r' = (published r ++ l)%list)
  /\ (exists l, logged r' = (logged r ++ l)%list).

(** A computation that only adds to the store, whatever it answers. *)
Definition only_adds {A} (m : M A) : Prop :=
  forall r o r', m r = (o, r') -> grows r r'.


(** ** A runtime to compute with

    An implementation of [Runtime] on which the definitions above can be
    evaluated: decimal numbers without exponent, the proleptic Gregorian
    calendar at a resolution of one second, and JSON with integers as its
    only numbers. The general results do not depend on it. *)
Module Sample.

Definition dquote : ascii := ascii_of_nat 34.

Definition digit_val (c : ascii) : Z := Z.of_nat (nat_of_ascii c) - 48.

Fixpoint digits_val (acc : Z) (s : string) : Z :=
  match s with
  | EmptyString => acc
  | String c s' => digits_val (10 * acc + digit_val c) s'
  end.

Fixpoint take_digits (s : string) : string * string :=
  match s with
  | String c s' =>
      if is_digit c then let '(d, rest) := take_digits s' in (String c d, rest)
      else (EmptyString, s)
  | EmptyString => (EmptyString, EmptyString)
  end.

(** [sign digits [. digits]] *)
Definition parse_decimal (s : string) : option Q :=
  let '(neg, s) :=
    match s with
    | String "-" s' => (true, s')
    | _ => (false, s)
    end in
  let '(ip, rest) := take_digits s in
  if nonempty ip then
    let sign (q : Q) := if neg : bool then Qopp q else q in
    match rest with
    | EmptyString => Some (sign (inject_Z (digits_val 0 ip)))
    | String "." fr =>
        let '(fp, rest') := take_digits fr in
        match rest' with
        | EmptyString =>
            Some (sign (Qred (Qmake (digits_val 0 (ip +:+ fp))
                                    (Z.to_pos (10 ^ Z.of_nat (String.length fp))))))
        | _ => None
        end
    | _ => None
    end
  else None.

(** The decimal expansion of a rational, cut after [n] digits. *)
Fixpoint frac_digits (n : nat) (num den : Z) : string :=
  match n with
  | O => EmptyString
  | S n' =>
      if (num =? 0)%Z then EmptyString
      else pretty (10 * num / den)%Z +:+ frac_digits n' ((10 * num) mod den)%Z den
  end.

Definition print_decimal (q : Q) : string :=
  let n := Qnum q in
  let d := Zpos (Qden q) in
  let a := Z.abs n in
  let fr := frac_digits 17 (a mod d)%Z d in
  (if (n <? 0)%Z then "-" else EmptyString) +:+ pretty (a / d)%Z +:+ "." +:+
  (if nonempty fr then fr else "0").

(** Days since 1970-01-01 of a date, and back. *)
Definition days_from_civil (y m d : Z) : Z :=
  let y := (if m <=? 2 then y - 1 else y)%Z in
  let era := (y / 400)%Z in
  let yoe := (y - era * 400)%Z in
  let doy := ((153 * (if 2 <? m then m - 3 else m + 9) + 2) / 5 + d - 1)%Z in
  let doe := (yoe * 365 + yoe / 4 - yoe / 100 + doy)%Z in
  (era * 146097 + doe - 719468)%Z.

Definition civil_from_days (z : Z) : Z * Z * Z :=
  let z := (z + 719468)%Z in
  let era := (z / 146097)%Z in
  let doe := (z - era * 146097)%Z in
  let yoe := ((doe - doe / 1460 + doe / 36524 - doe / 146096) / 365)%Z in
  let doy := (doe - (365 * yoe + yoe / 4 - yoe / 100))%Z in
  let mp := ((5 * doy + 2) / 153)%Z in
  let d := (doy - (153 * mp + 2) / 5 + 1)%Z in
  let m := (if mp <? 10 then mp + 3 else mp - 9)%Z in
  ((yoe + era * 400 + (if m <=? 2 then 1 else 0))%Z, m, d).

Definition ns_per_second : Z := 1000000000.

Definition timestamp (y m d hh mm ss : Z) : Z :=
  ((days_from_civil y m d * 86400 + hh * 3600 + mm * 60 + ss) * ns_per_second)%Z.

Definition pad0 (w : nat) (z : Z) : string :=
  let s := pretty z in
  String.string_of_list_ascii (replicate (w - String.length s) "0"%char) +:+ s.

(** [strftime] for the directives the client uses. *)
Fixpoint format_time (fmt : string) (t : Z) : string :=
  let secs := (t / ns_per_second)%Z in
  let '(y, m, d) := civil_from_days (secs / 86400) in
  let sod := (secs mod 86400)%Z in
  match fmt with
  | String "%" (String c fmt') =>
      (if Ascii.eqb c "Y" then pad0 4 y
       else if Ascii.eqb c "m" then pad0 2 m
       else if Ascii.eqb c "d" then pad0 2 d
       else if Ascii.eqb c "H" then pad0 2 (sod / 3600)
       else if Ascii.eqb c "M" then pad0 2 (sod mod 3600 / 60)
       else if Ascii.eqb c "S" then pad0 2 (sod mod 60)
       else String "%" (String c EmptyString)) +:+ format_time fmt' t
  | String c fmt' => String c (format_time fmt' t)
  | EmptyString => EmptyString
  end.

Definition keep_digits (s : string) : string :=
  String.string_of_list_ascii (List.filter is_digit (String.list_ascii_of_string s)).

(** Dates written as YYYYMMDD, YYYYMMDDHHMMSS, YYYY-MM-DD or
    YYYY-MM-DD HH:MM:SS. *)
Definition parse_time (s : string) : option Z :=
  let d := keep_digits s in
  let num i n := digits_val 0 (String.substring i n d) in
  let shape_ok :=
    bool_decide (s = d) ||
    bool_decide (s = String.substring 0 4 d +:+ "-" +:+ String.substring 4 2 d +:+ "-" +:+
                     String.substring 6 2 d) ||
    bool_decide (s = String.substring 0 4 d +:+ "-" +:+ String.substring 4 2 d +:+ "-" +:+
                     String.substring 6 2 d +:+ " " +:+ String.substring 8 2 d +:+ ":" +:+
                     String.substring 10 2 d +:+ ":" +:+ String.substring 12 2 d) in
  if shape_ok && bool_decide (String.length d = 8)%nat then
    Some (timestamp (num 0 4) (num 4 2) (num 6 2) 0 0 0)%nat
  else if shape_ok && bool_decide (String.length d = 14)%nat then
    Some (timestamp (num 0 4) (num 4 2) (num 6 2) (num 8 2) (num 10 2) (num 12 2))%nat
  else None.

(** JSON text of a string: in quotes, with quotes and backslashes escaped. *)
Fixpoint escape (s : string) : string :=
  match s with
  | EmptyString => EmptyString
  | String c s' =>
      if Ascii.eqb c dquote || Ascii.eqb c "\"
      then String "\" (String c (escape s'))
      else String c (escape s')
  end.

Definition quote (s : string) : string :=
  String dquote (escape s +:+ String dquote EmptyString).

(** [json.dumps] with its default separators. *)
Fixpoint dumps (o : pyobj) : string :=
  match o with
  | PNone => "null"
  | PBool b => if b then "true" else "false"
  | PNum n => match n with PyInt z => pretty z | PyFloat q => print_decimal q end
  | PStr s => quote s
  | PList l =>
      "[" +:+ (fix items (l : list pyobj) : string :=
                 match l with
                 | [] => EmptyString
                 | [x] => dumps x
                 | x :: l' => dumps x +:+ ", " +:+ items l'
                 end) l +:+ "]"
  | PDict d =>
      "{" +:+ (fix items (d : list (string * pyobj)) : string :=
                 match d with
                 | [] => EmptyString
                 | [(k, v)] => quote k +:+ ": " +:+ dumps v
                 | (k, v) :: d' => quote k +:+ ": " +:+ dumps v +:+ ", " +:+ items d'
                 end) d +:+ "}"
  end.

Fixpoint skip_ws (s : string) : string :=
  match s with
  | String c s' => if Ascii.eqb c " " then skip_ws s' else s
  | EmptyString => s
  end.

(** The text of a JSON string after its opening quote. *)
Fixpoint parse_chars (s : string) : option (string * string) :=
  match s with
  | EmptyString => None
  | String c s' =>
      if Ascii.eqb c dquote then Some (EmptyString, s')
      else if Ascii.eqb c "\" then
        match s' with
        | String e s'' =>
            match parse_chars s'' with
            | Some (w, rest) => Some (String e w, rest)
            | None => None
            end
        | EmptyString => None
        end
      else match parse_chars s' with
           | Some (w, rest) => Some (String c w, rest)
           | None => None
           end
  end.

Definition drop_prefix (p s : string) : option string :=
  if String.prefix p s
  then Some (String.substring (String.length p) (String.length s) s)
  else None.

Fixpoint parse_value (fuel : nat) (s : string) : option (pyobj * string) :=
  match fuel with
  | O => None
  | S fuel =>
      let s := skip_ws s in
      match s with
      | EmptyString => None
      | String c s' =>
          if Ascii.eqb c dquote then
            match parse_chars s' with
            | Some (w, rest) => Some (PStr w, rest)
            | None => None
            end
          else if Ascii.eqb c "[" then
            match skip_ws s' with
            | String "]" rest => Some (PList [], rest)
            | _ =>
                (fix items (n : nat) (s : string) (acc : list pyobj) :=
                   match n with
                   | O => None
                   | S n =>
                       match parse_value fuel s with
                       | Some (v, rest) =>
                           match skip_ws rest with
                           | String "," rest' => items n rest' (acc ++ [v])%list
                           | String "]" rest' => Some (PList (acc ++ [v])%list, rest')
                           | _ => None
                           end
                       | None => None
                       end
                   end) (String.length s) s' []
            end
          else if Ascii.eqb c "{" then
            match skip_ws s' with
            | String "}" rest => Some (PDict [], rest)
            | _ =>
                (fix items (n : nat) (s : string) (acc : list (string * pyobj)) :=
                   match n with
                   | O => None
                   | S n =>
                       match skip_ws s with
                       | String q s1 =>
                           if Ascii.eqb q dquote then
                             match parse_chars s1 with
                             | Some (k, s2) =>
                                 match skip_ws s2 with
                                 | String ":" s3 =>
                                     match parse_value fuel s3 with
                                     | Some (v, rest) =>
                                         match skip_ws rest with
                                         | String "," rest' =>
                                             items n rest' (acc ++ [(k, v)])%list
                                         | String "}" rest' =>
                                             Some (PDict (acc ++ [(k, v)])%list, rest')
                                         | _ => None
                                         end
                                     | None => None
                                     end
                                 | _ => None
                                 end
                             | None => None
                             end
                           else None
                       | EmptyString => None
                       end
                   end) (String.length s) s' []
            end
          else
            match drop_prefix "null" s, drop_prefix "true" s, drop_prefix "false" s with
            | Some rest, _, _ => Some (PNone, rest)
            | _, Some rest, _ => Some (PBool true, rest)
            | _, _, Some rest => Some (PBool false, rest)
            | _, _, _ =>
                let '(neg, s1) :=
                  match s with
                  | String "-" s1 => (true, s1)
                  | _ => (false, s)
                  end in
                let '(ds, rest) := take_digits s1 in
                if nonempty ds
                then Some (PNum (PyInt (if neg : bool then - digits_val 0 ds
                                        else digits_val 0 ds)), rest)
                else None
            end
      end
  end.

Definition loads (s : string) : option pyobj :=
  match parse_value (S (String.length s)) s with
  | Some (v, rest) => match skip_ws rest with EmptyString => Some v | _ => None end
  | None => None
  end.

Definition runtime : Runtime := {|
  lua_tonumber := parse_decimal;
  redis_score := parse_decimal;
  encode_float := print_decimal;
  py_float := parse_decimal;
  to_datetime := parse_time;
  strftime := format_time;
  json_dumps := dumps;
  json_loads := loads
|}.

(** The empty store. *)
Definition empty : redis := {| db := ∅; published := []; logged := [] |}.

(** Run a computation and keep what it answers. *)
Definition answer {A} (m : M A) (r : redis) : outcome A := (m r).1.

(** Run a computation and keep the store. *)
Definition after {A} (m : M A) (r : redis) : redis := (m r).2.

(** A strategy, a clock and a few stores to try the client on. *)
Definition strategy : client := Client "S1" "Weights" "heartbeat".

Definition now : Z := timestamp 2024 3 3 12 0 0.

Definition day (d : Z) : Z := timestamp 2023 1 d 9 30 0.

Definition one_event : redis :=
  after (@publish runtime strategy "A" (day 1) (PyFloat (1 # 2)) (PyInt 0) PNone false now)
    empty.

Definition two_events : redis :=
  after (@publish runtime strategy "B" (day 2) (PyFloat (3 # 10)) (PyInt 0) PNone false now)
    one_event.

Definition with_metadata : redis :=
  after (@set_metadata runtime strategy "1m" "first" "ZB" "2022-01-01" false [] now)
    two_events.

Definition live : redis := after (@heartbeat strategy runtime now) with_metadata.

(** An event of the frames given to [publish_dataframe], on the given day. *)
Definition event (s : string) (d : Z) (w : Q) : row :=
  Row s (day d) (PyFloat w) (PyInt 0) (PStr "{}").

End Sample.

(** * Results *)

(** ** Stepping through computations *)

Lemma bind_eq {A B} (m : M A) (k : A -> M B) r :
  bind m k r = match m r with (Ok a, r') => k a r' | (Raise e, r') => (Raise e, r') end.
Proof. reflexivity. Qed.

Lemma bind_ok {A B} (m : M A) (k : A -> M B) r a r' :
  m r = (Ok a, r') -> bind m k r = k a r'.
Proof. intros E. by rewrite bind_eq, E. Qed.

Lemma bind_raise {A B} (m : M A) (k : A -> M B) r e r' :
  m r = (Raise e, r') -> bind m k r = (Raise e, r').
Proof. intros E. by rewrite bind_eq, E. Qed.

Lemma bind_inv {A B} (m : M A) (k : A -> M B) r b r2 :
  bind m k r = (Ok b, r2) -> exists a r1, m r = (Ok a, r1) /\ k a r1 = (Ok b, r2).
Proof.
  rewrite bind_eq. destruct (m r) as [[a | e] r1]; [eauto | discriminate].
Qed.

Lemma need_some {A} (o : option A) e a r : o = Some a -> need o e r = (Ok a, r).
Proof. by intros ->. Qed.

Lemma need_inv {A} (o : option A) e a r r' :
  need o e r = (Ok a, r') -> o = Some a /\ r' = r.
Proof. destruct o; cbn; intros [= -> ->] || intros [=]; done. Qed.

Lemma HGETALL_hash key h r : db r !! key = Some (RHash h) -> HGETALL key r = (Ok h, r).
Proof. intros E. unfold HGETALL. by rewrite E. Qed.

Lemma HGETALL_none key r : db r !! key = None -> HGETALL key r = (Ok ∅, r).
Proof. intros E. unfold HGETALL. by rewrite E. Qed.

(** ** Keys as texts *)

Lemma append_cons c (a b : string) : String c a +:+ b = String c (a +:+ b).
Proof. reflexivity. Qed.

Lemma append_nil (b : string) : EmptyString +:+ b = b.
Proof. reflexivity. Qed.

Lemma py_split_colon_free a : colon_free a = true -> py_split a = [a].
Proof.
  induction a as [| c a IH]; cbn; [done |].
  intros [Hc Ha]%andb_true_iff. apply negb_true_iff in Hc. rewrite Hc.
  by rewrite IH.
Qed.

Lemma py_split_app a b :
  colon_free a = true -> py_split (a +:+ ":" +:+ b) = a :: py_split b.
Proof.
  induction a as [| c a IH]; [done |].
  cbn [colon_free]. intros [Hc Ha]%andb_true_iff. apply negb_true_iff in Hc.
  rewrite append_cons. cbn [py_split]. rewrite Hc. by rewrite IH.
Qed.

Lemma append_assoc (a b c : string) : (a +:+ b) +:+ c = a +:+ (b +:+ c).
Proof. induction a as [| x a IH]; [done |]. rewrite !append_cons. by rewrite IH. Qed.

Lemma lua_fields_key s1 s2 s3 t :
  colon_free s1 = true -> colon_free s2 = true -> colon_free s3 = true ->
  colon_free t = true ->
  nonempty s1 = true -> nonempty s2 = true -> nonempty s3 = true -> nonempty t = true ->
  lua_fields (s1 +:+ ":" +:+ s2 +:+ ":" +:+ s3 +:+ ":" +:+ t) = [s1; s2; s3; t].
Proof.
  intros C1 C2 C3 C4 N1 N2 N3 N4. unfold lua_fields.
  rewrite !py_split_app, py_split_colon_free by done.
  cbn. by rewrite N1, N2, N3, N4.
Qed.

Lemma string_length_app (a b : string) :
  String.length (a +:+ b) = (String.length a + String.length b)%nat.
Proof.
  induction a as [| x a IH]; [done |]. rewrite append_cons. cbn [String.length]. lia.
Qed.

Lemma gsub_from_skip pat repl (s : string) :
  gsub_from pat repl (String.length s) s = EmptyString.
Proof. induction s; cbn; auto. Qed.

Lemma prefix_refl (t : string) : String.prefix t t = true.
Proof. induction t as [| c t IH]; cbn; [done |]. destruct (ascii_dec c c); [done | congruence]. Qed.

Lemma gsub_tail (t repl front : string) :
  nonempty t = true ->
  clear_of t front = true ->
  lua_gsub (front +:+ t) t repl = front +:+ repl.
Proof.
  intros Ht. unfold lua_gsub. induction front as [| c f IH].
  - intros _. destruct t as [| c t]; [done |].
    rewrite !append_nil. cbn [gsub_from]. rewrite prefix_refl.
    replace (String.length (String c t) - 1)%nat with (String.length t)
      by (cbn [String.length]; lia).
    rewrite gsub_from_skip.
    clear. induction repl as [| x p IH]; [done |]. by rewrite append_cons, IH.
  - cbn [clear_of]. intros [Hp Hc]%andb_true_iff. apply negb_true_iff in Hp.
    rewrite !append_cons in *. cbn [gsub_from]. rewrite Hp. by rewrite IH.
Qed.

Section Results.
Context `{Runtime}.

Lemma get_last_times_str_some (self : client) (sym : string) (r : redis)
    (row : gmap string string) (d : string) (last_dt : Z) :
  db r !! last_key self sym = Some (RHash row) ->
  row !! "dt" = Some d ->
  to_datetime d = Some last_dt ->
  get_last_times_str self sym r = (Ok (Some last_dt), r).
Proof.
  intros Hrow Hd Ht. unfold get_last_times_str.
  erewrite bind_ok by (by apply HGETALL_hash).
  rewrite bool_decide_eq_false_2.
  2:{ intros ->. rewrite lookup_empty in Hd. discriminate. }
  erewrite bind_ok by (by apply need_some).
  erewrite bind_ok by (by apply need_some).
  reflexivity.
Qed.

Lemma get_last_times_str_none (self : client) (sym : string) (r : redis) :
  db r !! last_key self sym = None ->
  get_last_times_str self sym r = (Ok None, r).
Proof.
  intros Hrow. unfold get_last_times_str.
  erewrite bind_ok by (by apply HGETALL_none).
  by rewrite bool_decide_eq_true_2.
Qed.

(** C2. A stale write. When [publish] is called with [overwrite=False] and
    the LastPointer of the symbol records a time at or after the time of the
    new event, [publish] returns 0 and raises nothing; the script is not
    called: the store and the channels are as they were, and the only trace
    is one line of the log, at level WARNING. *)
Theorem publish_stale_returns_zero (self : client) (sym : string) (t : Z)
    (w p : pynum) (rf : pyobj) (now : Z) (r : redis)
    (row : gmap string string) (d : string) (last_dt : Z) :
  db r !! last_key self sym = Some (RHash row) ->
  row !! "dt" = Some d ->
  to_datetime d = Some last_dt ->
  (t <= last_dt)%Z ->
  publish self sym t w p rf false now r =
    (Ok 0%nat, log_line WARNING "不允许重复写入，已过滤 {symbol} {dt} 的重复信号" r).
Proof.
  intros Hrow Hd Ht Hle.
  unfold publish. cbn [negb].
  erewrite bind_ok by (by eapply get_last_times_str_some).
  cbv beta iota. by rewrite bool_decide_eq_true_2.
Qed.


(** C7. An empty range. When the range query on the SymbolIndex of the
    symbol, between the start and the end time, answers no key,
    [get_hist_weights] returns an empty frame and raises nothing; the store
    is as it was, with one line of the log at level WARNING. *)
Theorem get_hist_weights_empty_range (self : client) (sym sdt edt : string)
    (r : redis) (s e : Z) :
  to_datetime sdt = Some s ->
  to_datetime edt = Some e ->
  zrangebyscore (key_prefix self +:+ ":" +:+ strategy_name self +:+ ":" +:+ sym)
    (strftime "%Y%m%d%H%M%S" s) (strftime "%Y%m%d%H%M%S" e) r = (Ok [], r) ->
  get_hist_weights self sym sdt edt r =
    (Ok [], log_line WARNING "no history weights: {symbol} - {sdt} - {edt}" r).
Proof.
  intros Hs He Hz. unfold get_hist_weights.
  erewrite bind_ok by (by apply need_some).
  erewrite bind_ok by (by apply need_some).
  erewrite bind_ok by exact Hz.
  reflexivity.
Qed.

Lemma append_inj_l (p a b : string) : p +:+ a = p +:+ b -> a = b.
Proof. induction p as [| c p IH]; cbn; [done |]. intros [= E]. auto. Qed.

Lemma hash_set_snoc fvs f v h : hash_set (fvs ++ [(f, v)]) h = <[f := v]> (hash_set fvs h).
Proof. unfold hash_set. by rewrite foldl_app. Qed.

Lemma EXISTS_eq key r : EXISTS key r = (Ok (bool_decide (is_Some (db r !! key))), r).
Proof. reflexivity. Qed.

Lemma logger_eq l msg r : logger l msg r = (Ok tt, log_line l msg r).
Proof. reflexivity. Qed.

Lemma DEL_eq keys r :
  exists n, DEL keys r = (Ok n, set_db (fun d => foldr delete d keys) r).
Proof. eexists. reflexivity. Qed.

Lemma HSET_fresh key fvs r :
  db r !! key = None ->
  exists n, HSET key fvs r = (Ok n, set_db <[key := RHash (hash_set fvs ∅)]> r).
Proof. intros E. unfold HSET. rewrite E. eauto. Qed.

Lemma SADD_ok key member r :
  (db r !! key = None \/ exists s, db r !! key = Some (RSet s)) ->
  exists n s', SADD key member r = (Ok n, set_db <[key := RSet s']> r) /\ member ∈ s'.
Proof.
  intros [E | [s E]]; unfold SADD; rewrite E; do 2 eexists; (split; [reflexivity |]);
    set_solver.
Qed.

(** C8. Metadata that exists. When the metadata record of the strategy
    exists: [set_metadata] without overwrite returns and leaves the store as
    it was (a warning is logged); with [overwrite=True] it first deletes the
    record, then writes the new one as on a fresh store: the record holds
    exactly the fields of the call, the name of the strategy is in the
    directory of names, and no other key changes. *)
Theorem set_metadata_existing (self : client)
    (base_freq description author outsample_sdt : string)
    (kwargs : list (string * pyobj)) (now : Z) (r : redis) (sdt : Z) :
  let key := key_prefix self +:+ ":META:" +:+ strategy_name self in
  let names := key_prefix self +:+ ":StrategyNames" in
  is_Some (db r !! key) ->
  to_datetime outsample_sdt = Some sdt ->
  (db r !! names = None \/ exists s, db r !! names = Some (RSet s)) ->
  set_metadata self base_freq description author outsample_sdt false kwargs now r =
    (Ok tt, log_line WARNING
              "已存在 {self.strategy_name} 的元数据，如需覆盖请设置 overwrite=True" r)
  /\ exists r',
      set_metadata self base_freq description author outsample_sdt true kwargs now r =
        (Ok tt, r')
      /\ set_metadata self base_freq description author outsample_sdt true kwargs now r =
          write_metadata self base_freq description author outsample_sdt kwargs now
            (log_line WARNING "删除 {self.strategy_name} 的元数据，重新写入"
               (set_db (delete key) r))
      /\ db r' !! key =
          Some (RHash (hash_set
                         (meta_fields self base_freq description author
                            (strftime "%Y%m%d" sdt) kwargs now) ∅))
      /\ (exists s, db r' !! names = Some (RSet s) /\ strategy_name self ∈ s)
      /\ forall k, k <> key -> k <> names -> db r' !! k = db r !! k.
Proof.
  intros key names Hex Hsdt Hnames.
  assert (Hne : key <> names).
  { unfold key, names. intros E. apply append_inj_l in E. discriminate. }
  assert (Hexists : EXISTS key r = (Ok true, r)).
  { by rewrite EXISTS_eq, bool_decide_eq_true_2. }
  unfold set_metadata. fold key.
  rewrite !(bind_ok _ _ _ _ _ Hexists). cbn [negb].
  split; [reflexivity |].
  assert (Hdel : exists n, DEL [key] r = (Ok n, set_db (delete key) r))
    by (eexists; reflexivity).
  destruct Hdel as [n0 Hdel].
  rewrite (bind_ok _ _ _ _ _ Hdel).
  rewrite (bind_ok _ _ _ _ _ (logger_eq _ _ _)).
  set (r1 := log_line _ _ (set_db (delete key) r)).
  assert (Hk1 : db r1 !! key = None) by (cbn; apply lookup_delete_eq).
  assert (Hn1 : db r1 !! names = db r !! names) by (cbn; by apply lookup_delete_ne).
  unfold write_metadata. fold key names.
  erewrite bind_ok by (by apply need_some).
  destruct (HSET_fresh key (meta_fields self base_freq description author
                              (strftime "%Y%m%d" sdt) kwargs now) r1 Hk1) as [n Hset].
  erewrite bind_ok by exact Hset.
  set (r2 := set_db _ r1) in *.
  assert (Hn2 : db r2 !! names = None \/ exists s, db r2 !! names = Some (RSet s)).
  { cbn. rewrite lookup_insert_ne by done. by rewrite lookup_delete_ne. }
  destruct (SADD_ok names (strategy_name self) r2 Hn2) as (m & s' & Hadd & Hin).
  erewrite bind_ok by exact Hadd.
  eexists. split; [reflexivity |]. split; [reflexivity |].
  cbn. split; [| split].
  - rewrite lookup_insert_ne by done. by rewrite lookup_insert_eq.
  - exists s'. by rewrite lookup_insert_eq.
  - intros k Hk Hkn. rewrite !lookup_insert_ne by done. by rewrite lookup_delete_ne.
Qed.


Lemma HGET_none key field r : db r !! key = None -> HGET key field r = (Ok None, r).
Proof. intros E. unfold HGET. by rewrite E. Qed.




Lemma ZADD_ok key score member r :
  holds_zset r key ->
  exists n, ZADD key score member r =
            (Ok n, set_db <[key := RZSet (<[member := score]> (zset_at r key))]> r).
Proof.
  unfold holds_zset, zset_at, ZADD. intros [E | [z E]]; rewrite E; eauto.
Qed.

Lemma HMSET_ok key fvs r :
  holds_hash r key ->
  HMSET key fvs r =
    (Ok (Status (Some "OK")), set_db <[key := RHash (hash_set fvs (hash_at r key))]> r).
Proof.
  unfold holds_hash, hash_at, HMSET. intros [E | [h E]]; rewrite E; eauto.
Qed.

Lemma append_ne_self (a b : string) : nonempty b = true -> a <> a +:+ b.
Proof.
  intros Hb E. apply (f_equal String.length) in E.
  rewrite string_length_app in E. destruct b; [done |]. cbn in E. lia.
Qed.

Lemma all_digits_not_LAST t : all_digits t = true -> t <> "LAST".
Proof. intros Hd ->. by vm_compute in Hd. Qed.

(** The effects of the script on a key it writes. *)
Lemma lua_write_effects (update_time sig price ref_str : string)
    (s1 s2 s3 t : string) (cnt : nat) (r : redis) (score : Q) :
  let model_key := s1 +:+ ":" +:+ s2 +:+ ":" +:+ s3 in
  let key := model_key +:+ ":" +:+ t in
  let last := model_key +:+ ":LAST" in
  let fields := record_fields s3 sig (lua_at_str t) update_time price ref_str in
  key_part s1 -> key_part s2 -> key_part s3 -> key_part t ->
  all_digits t = true ->
  clear_of t (model_key +:+ ":") = true ->
  lua_tonumber t = Some score ->
  holds_zset r model_key -> holds_hash r key -> holds_hash r last ->
  exists r',
    lua_write (Some update_time) (Some sig) (Some price) (Some ref_str)
      key (lua_fields key) s1 s2 s3 cnt r = (Ok (cnt + 1)%nat, r')
    /\ db r' !! model_key = Some (RZSet (<[key := score]> (zset_at r model_key)))
    /\ db r' !! key = Some (RHash (hash_set fields (hash_at r key)))
    /\ db r' !! last = Some (RHash (hash_set fields (hash_at r last)))
    /\ (forall k, k <> model_key -> k <> key -> k <> last -> db r' !! k = db r !! k)
    /\ published r' =
       (published r ++ [("PUBSUB:" +:+ s1 +:+ ":" +:+ s2 +:+ ":" +:+ s3,
                         key +:+ ":" +:+ sig +:+ ":" +:+ price +:+ ":" +:+ ref_str)])%list.
Proof.
  intros model_key key last fields [N1 C1] [N2 C2] [N3 C3] [N4 C4] Hd Hclear Hscore
    Hz Hk Hl.
  assert (Hfields : lua_fields key = [s1; s2; s3; t]).
  { unfold key, model_key. rewrite !append_assoc. by apply lua_fields_key. }
  assert (Hgsub : lua_gsub key t "LAST" = last).
  { unfold key, last. rewrite <- !(append_assoc model_key).
    rewrite gsub_tail by done. by rewrite append_assoc. }
  assert (Hmk : model_key <> key) by (by apply append_ne_self).
  assert (Hml : model_key <> last) by (by apply append_ne_self).
  assert (Hkl : key <> last).
  { unfold key, last. intros E. apply append_inj_l in E. injection E as E.
    by apply all_digits_not_LAST in Hd. }
  unfold lua_write. rewrite Hfields. cbn [lua_index lookup list_lookup].
  erewrite bind_ok by (by apply need_some).
  erewrite bind_ok by (by apply need_some).
  fold model_key.
  destruct (ZADD_ok model_key score key r Hz) as [n Hzadd].
  erewrite bind_ok by exact Hzadd.
  set (r1 := set_db _ r).
  erewrite !bind_ok by (by apply need_some).
  fold fields.
  assert (Hk1 : holds_hash r1 key).
  { unfold holds_hash, r1. cbn. by rewrite lookup_insert_ne. }
  erewrite bind_ok by (by apply HMSET_ok).
  assert (Hh1 : hash_at r1 key = hash_at r key).
  { unfold hash_at, r1. cbn. by rewrite lookup_insert_ne. }
  rewrite Hh1. set (r2 := set_db _ r1).
  rewrite Hgsub.
  assert (Hl2 : holds_hash r2 last).
  { unfold holds_hash, r2, r1. cbn. by rewrite !lookup_insert_ne. }
  erewrite bind_ok by (by apply HMSET_ok).
  assert (Hh2 : hash_at r2 last = hash_at r last).
  { unfold hash_at, r2, r1. cbn. by rewrite !lookup_insert_ne. }
  rewrite Hh2. cbn [ok lua_truthy andb].
  eexists. split; [reflexivity |]. cbn.
  repeat split.
  - rewrite !lookup_insert_ne by done. by rewrite lookup_insert_eq.
  - rewrite lookup_insert_ne by done. by rewrite lookup_insert_eq.
  - by rewrite lookup_insert_eq.
  - intros k ? ? ?. by rewrite !lookup_insert_ne.
Qed.

(** The test of the script reads the store and leaves it as it is. *)
Lemma lua_if_pass_reads overwrite sig model_key r o r' :
  lua_if_pass overwrite sig model_key r = (o, r') -> r' = r.
Proof.
  unfold lua_if_pass, bind, HGET, ret, raise.
  repeat case_match; intros ?; by simplify_eq.
Qed.

Lemma ZADD_published key score member r n r' :
  ZADD key score member r = (Ok n, r') -> published r' = published r.
Proof. unfold ZADD. repeat case_match; by intros [= <- <-]. Qed.

Lemma HMSET_published key fvs r st r' :
  HMSET key fvs r = (Ok st, r') -> published r' = published r.
Proof. unfold HMSET. repeat case_match; by intros [= <- <-]. Qed.

Lemma HMSET_status key fvs r st r' :
  HMSET key fvs r = (Ok st, r') -> st = Status (Some "OK").
Proof. unfold HMSET. repeat case_match; by intros [= <- <-]. Qed.

(** One turn of the loop counts one key and publishes one message, or counts
    none and leaves the store as it is. *)
Lemma lua_publish_key_counts overwrite update_time ARGV i key cnt r n r' :
  lua_publish_key overwrite update_time ARGV i key cnt r = (Ok n, r') ->
  (n = cnt /\ r' = r) \/
  (n = (cnt + 1)%nat /\ exists m, published r' = (published r ++ [m])%list).
Proof.
  unfold lua_publish_key. intros E.
  apply bind_inv in E as (s1 & r1 & E1 & E). apply need_inv in E1 as [_ ->].
  apply bind_inv in E as (s2 & r2 & E2 & E). apply need_inv in E2 as [_ ->].
  apply bind_inv in E as (s3 & r3 & E3 & E). apply need_inv in E3 as [_ ->].
  apply bind_inv in E as (b & r4 & E4 & E). apply lua_if_pass_reads in E4 as ->.
  destruct b; cbn [negb] in E.
  - left. by injection E as <- <-.
  - right. unfold lua_write in E.
    apply bind_inv in E as (t & r5 & E5 & E). apply need_inv in E5 as [_ ->].
    apply bind_inv in E as (sc & r6 & E6 & E). apply need_inv in E6 as [_ ->].
    apply bind_inv in E as (n1 & r7 & Ez & E). apply ZADD_published in Ez.
    apply bind_inv in E as (a1 & r8 & E8 & E). apply need_inv in E8 as [_ ->].
    apply bind_inv in E as (a2 & r9 & E9 & E). apply need_inv in E9 as [_ ->].
    apply bind_inv in E as (a3 & r10 & E10 & E). apply need_inv in E10 as [_ ->].
    apply bind_inv in E as (a4 & r11 & E11 & E). apply need_inv in E11 as [_ ->].
    apply bind_inv in E as (st1 & r12 & Eh1 & E).
    apply bind_inv in E as (st2 & r13 & Eh2 & E).
    pose proof (HMSET_status _ _ _ _ _ Eh1) as ->.
    pose proof (HMSET_status _ _ _ _ _ Eh2) as ->.
    apply HMSET_published in Eh1, Eh2.
    cbn in E. injection E as <- <-. split; [done |]. eexists. cbn.
    rewrite Eh2, Eh1, Ez. reflexivity.
Qed.

Lemma lua_publish_loop_counts overwrite update_time ARGV keys :
  forall i cnt r n r',
  lua_publish_loop overwrite update_time ARGV i keys cnt r = (Ok n, r') ->
  (cnt <= n <= cnt + length keys)%nat /\
  length (published r') = (length (published r) + (n - cnt))%nat.
Proof.
  induction keys as [| key keys IH]; intros i cnt r n r' E; cbn in E.
  - injection E as <- <-. cbn. lia.
  - apply bind_inv in E as (c1 & r1 & E1 & E).
    apply IH in E as [Hn Hlen].
    apply lua_publish_key_counts in E1 as [[-> ->] | [-> [m Hm]]]; cbn [length].
    + split; lia.
    + rewrite Hm, length_app in Hlen. cbn in Hlen. split; lia.
Qed.

(** C5. Effects of the script. (1) A key [prefix:strategy:symbol:time] that
    the test does not pass over is added with its time as score to the index
    of its symbol, its record and the LastPointer of its symbol are written
    with the six fields, the counter goes up by one and one message
    [key:weight:price:reference] is published on the channel of the strategy
    and symbol; every other key of the store is left as it is. (2) A key
    that the test passes over leaves the counter and the whole store,
    messages included, as they are. (3) A run of the script answers a count
    that is the number of messages it published, at most one per key. *)
Theorem publish_transaction_effects :
  (forall (overwrite : option string) (update_time sig price ref_str : string)
          (ARGV : list string) (i : nat) (s1 s2 s3 t : string) (cnt : nat)
          (r : redis) (score : Q),
      let model_key := s1 +:+ ":" +:+ s2 +:+ ":" +:+ s3 in
      let key := model_key +:+ ":" +:+ t in
      let last := model_key +:+ ":LAST" in
      let fields := record_fields s3 sig (lua_at_str t) update_time price ref_str in
      key_part s1 -> key_part s2 -> key_part s3 -> key_part t ->
      all_digits t = true ->
      clear_of t (model_key +:+ ":") = true ->
      lua_tonumber t = Some score ->
      holds_zset r model_key -> holds_hash r key -> holds_hash r last ->
      lua_index ARGV (3 + 3 * (i - 1)) = Some sig ->
      lua_index ARGV (4 + 3 * (i - 1)) = Some price ->
      lua_index ARGV (5 + 3 * (i - 1)) = Some ref_str ->
      lua_if_pass overwrite (Some sig) model_key r = (Ok false, r) ->
      exists r',
        lua_publish_key overwrite (Some update_time) ARGV i key cnt r =
          (Ok (cnt + 1)%nat, r')
        /\ db r' !! model_key = Some (RZSet (<[key := score]> (zset_at r model_key)))
        /\ db r' !! key = Some (RHash (hash_set fields (hash_at r key)))
        /\ db r' !! last = Some (RHash (hash_set fields (hash_at r last)))
        /\ (forall k, k <> model_key -> k <> key -> k <> last ->
                      db r' !! k = db r !! k)
        /\ published r' =
           (published r ++
              [("PUBSUB:" +:+ s1 +:+ ":" +:+ s2 +:+ ":" +:+ s3,
                key +:+ ":" +:+ sig +:+ ":" +:+ price +:+ ":" +:+ ref_str)])%list)
  /\ (forall (overwrite update_time : option string) (ARGV : list string) (i : nat)
             (key : string) (s1 s2 s3 : string) (rest : list string) (cnt : nat)
             (r : redis),
         lua_fields key = s1 :: s2 :: s3 :: rest ->
         lua_if_pass overwrite (lua_index ARGV (3 + 3 * (i - 1)))
           (s1 +:+ ":" +:+ s2 +:+ ":" +:+ s3) r = (Ok true, r) ->
         lua_publish_key overwrite update_time ARGV i key cnt r = (Ok cnt, r))
  /\ (forall (KEYS ARGV : list string) (r : redis) (n : nat) (r' : redis),
         lua_publish KEYS ARGV r = (Ok n, r') ->
         (n <= length KEYS)%nat /\
         length (published r') = (length (published r) + n)%nat).
Proof.
  split; [| split].
  - intros overwrite update_time sig price ref_str ARGV i s1 s2 s3 t cnt r score
      model_key key last fields K1 K2 K3 K4 Hd Hclear Hscore Hz Hk Hl Hsig Hprice Href
      Hpass.
    destruct (lua_write_effects update_time sig price ref_str s1 s2 s3 t cnt r score
                K1 K2 K3 K4 Hd Hclear Hscore Hz Hk Hl) as (r' & Hw & Heff).
    exists r'. split; [| exact Heff].
    assert (Hfields : lua_fields key = [s1; s2; s3; t]).
    { destruct K1, K2, K3, K4. unfold key, model_key. rewrite !append_assoc.
      by apply lua_fields_key. }
    assert (Hi1 : lua_index (lua_fields key) 1 = Some s1) by (by rewrite Hfields).
    assert (Hi2 : lua_index (lua_fields key) 2 = Some s2) by (by rewrite Hfields).
    assert (Hi3 : lua_index (lua_fields key) 3 = Some s3) by (by rewrite Hfields).
    unfold lua_publish_key. rewrite Hsig, Hprice, Href, Hi1, Hi2, Hi3.
    erewrite !bind_ok by (by apply need_some). fold model_key.
    erewrite bind_ok by exact Hpass. cbn [negb]. exact Hw.
  - intros overwrite update_time ARGV i key s1 s2 s3 rest cnt r Hf Hpass.
    unfold lua_publish_key. rewrite Hf. cbn [lua_index lookup list_lookup].
    erewrite !bind_ok by (by apply need_some).
    erewrite bind_ok by exact Hpass. reflexivity.
  - intros KEYS ARGV r n r' E. unfold lua_publish in E.
    apply lua_publish_loop_counts in E as [Hn Hlen]. split; [lia |].
    rewrite Hlen. lia.
Qed.

(** *** Glob patterns *)

Lemma glob_star_here (go : list ascii -> bool) s : go s = true -> glob_star go s = true.
Proof. intros E. destruct s; cbn; by rewrite E. Qed.

Lemma glob_star_end (go : list ascii -> bool) s : go [] = true -> glob_star go s = true.
Proof.
  intros E. induction s as [| c s IH]; cbn; [by rewrite E |].
  rewrite IH. by destruct (go (c :: s)).
Qed.

Lemma glob_meta_false c :
  glob_meta c = false ->
  Ascii.eqb c "*" = false /\ Ascii.eqb c "?" = false /\
  Ascii.eqb c "[" = false /\ Ascii.eqb c "\" = false.
Proof.
  unfold glob_meta. intros E.
  repeat (apply orb_false_iff in E as [E ?]). auto.
Qed.

Lemma list_ascii_app (a b : string) :
  String.list_ascii_of_string (a +:+ b) =
  (String.list_ascii_of_string a ++ String.list_ascii_of_string b)%list.
Proof. induction a as [| c a IH]; [done |]. rewrite append_cons. cbn. by rewrite IH. Qed.

Lemma list_ascii_length (a : string) :
  length (String.list_ascii_of_string a) = String.length a.
Proof. induction a; cbn; auto. Qed.

(** A plain text followed by a star matches every text it begins. *)
Lemma glob_go_plain_star (p : string) (s : list ascii) (fuel : nat) :
  glob_plain p = true ->
  (String.length p + 2 <= fuel)%nat ->
  glob_go fuel (String.list_ascii_of_string p ++ ["*"%char])
               (String.list_ascii_of_string p ++ s) = true.
Proof.
  revert fuel. induction p as [| c p IH]; intros fuel Hp Hf.
  - destruct fuel as [| [| fuel]]; [cbn in Hf; lia .. |].
    cbn. by apply glob_star_end.
  - cbn [glob_plain] in Hp. apply andb_true_iff in Hp as [Hc Hp].
    apply negb_true_iff, glob_meta_false in Hc as (E1 & E2 & E3 & E4).
    destruct fuel as [| fuel]; [cbn in Hf; lia |].
    cbn [String.list_ascii_of_string app glob_go].
    rewrite E1, E2, E3, E4, Ascii.eqb_refl. cbn [andb].
    apply IH; [done |]. cbn in Hf. lia.
Qed.

Lemma prefix_split (p k : string) :
  String.prefix p k = true -> exists s, k = p +:+ s.
Proof.
  revert k. induction p as [| c p IH]; intros k; [by exists k |].
  destruct k as [| c' k]; cbn; [done |].
  destruct (ascii_dec c c') as [<- |]; [| done].
  intros [s ->]%IH. by exists s.
Qed.

Lemma prefix_app (p s : string) : String.prefix p (p +:+ s) = true.
Proof.
  induction p as [| c p IH]; [by destruct s |].
  rewrite append_cons. cbn. by destruct (ascii_dec c c).
Qed.

Lemma glob_match_prefix (p k : string) :
  glob_plain p = true -> String.prefix p k = true -> glob_match (p +:+ "*") k = true.
Proof.
  intros Hp [s ->]%prefix_split. unfold glob_match.
  rewrite !list_ascii_app. cbn [String.list_ascii_of_string].
  apply glob_go_plain_star; [done |].
  rewrite string_length_app. cbn. lia.
Qed.

Lemma glob_plain_app (a b : string) :
  glob_plain (a +:+ b) = glob_plain a && glob_plain b.
Proof.
  induction a as [| c a IH]; [done |]. rewrite append_cons. cbn.
  by rewrite IH, andb_assoc.
Qed.

(** *** Deleting keys *)

Lemma lookup_foldr_delete (d : gmap string rvalue) (keys : list string) (k : string) :
  foldr delete d keys !! k = if decide (k ∈ keys) then None else d !! k.
Proof.
  induction keys as [| x keys IH]; cbn.
  - by rewrite decide_False by set_solver.
  - destruct (decide (x = k)) as [-> | Hne].
    + rewrite lookup_delete_eq. by rewrite decide_True by set_solver.
    + rewrite lookup_delete_ne, IH by done.
      destruct (decide (k ∈ keys)).
      * by rewrite decide_True by set_solver.
      * by rewrite decide_False by set_solver.
Qed.

Lemma KEYS_eq pattern r :
  KEYS pattern r = (Ok (List.filter (glob_match pattern) (elements (dom (db r)))), r).
Proof. reflexivity. Qed.

Lemma get_keys_eq pattern r :
  get_keys pattern r = (Ok (List.filter (glob_match pattern) (elements (dom (db r)))), r).
Proof.
  unfold get_keys. rewrite (bind_ok _ _ _ _ _ (KEYS_eq pattern r)).
  by destruct (List.filter _ _).
Qed.

Lemma SREM_removes key member r :
  holds_set r key ->
  exists n r', SREM key member r = (Ok n, r')
    /\ (db r' !! key = None \/ exists s, db r' !! key = Some (RSet s) /\ member ∉ s)
    /\ (forall k, k <> key -> db r' !! k = db r !! k)
    /\ published r' = published r.
Proof.
  intros [E | [s E]]; unfold SREM; rewrite E.
  - exists 0%nat, r. repeat split; auto.
  - case_bool_decide as Hin.
    + do 2 eexists. split; [reflexivity |]. cbn. split; [| split; [| done]].
      * case_bool_decide.
        -- left. apply lookup_delete_eq.
        -- right. rewrite lookup_insert_eq. eexists. split; [done |]. set_solver.
      * intros k Hk. case_bool_decide.
        -- by rewrite lookup_delete_ne.
        -- by rewrite lookup_insert_ne.
    + exists 0%nat, r. repeat split; auto. right. eauto.
Qed.

(** C9. Wiping a strategy. When the wipe is confirmed (no confirmation is
    asked for, or the operator answers y or Y) every key that begins with
    [prefix:strategy], so every event record, LastPointer and index of the
    strategy, is gone, as are the metadata record, the last-update marker
    and the heartbeat key; the name of the strategy is no longer in the
    directory of names; and looking up the last time of any symbol answers
    None. When confirmation is asked for and the operator answers anything
    else, the keys and the messages of the store are what they were. *)
Theorem clear_all_wipes (self : client) (with_human : bool) (human : string)
    (r : redis) :
  let base := key_prefix self +:+ ":" +:+ strategy_name self in
  let names := key_prefix self +:+ ":StrategyNames" in
  glob_plain base = true ->
  holds_set r names ->
  (with_human = false \/ py_lower human = "y" ->
   exists r',
     clear_all self with_human human r = (Ok tt, r')
     /\ (forall k, String.prefix base k = true -> db r' !! k = None)
     /\ db r' !! (key_prefix self +:+ ":META:" +:+ strategy_name self) = None
     /\ db r' !! (key_prefix self +:+ ":LAST:" +:+ strategy_name self) = None
     /\ db r' !! (key_prefix self +:+ ":" +:+ heartbeat_prefix self +:+ ":" +:+
                  strategy_name self) = None
     /\ (db r' !! names = None \/
         exists s, db r' !! names = Some (RSet s) /\ strategy_name self ∉ s)
     /\ (forall symbol, get_last_times_str self symbol r' = (Ok None, r')))
  /\ (with_human = true -> py_lower human <> "y" ->
      clear_all self with_human human r =
        (Ok tt, log_line WARNING "{self.strategy_name} 删除操作已取消" r)).
Proof.
  intros base names Hplain Hnames.
  set (keys := (List.filter (glob_match (base +:+ "*")) (elements (dom (db r))) ++
                [key_prefix self +:+ ":META:" +:+ strategy_name self] ++
                [key_prefix self +:+ ":LAST:" +:+ strategy_name self] ++
                [key_prefix self +:+ ":" +:+ heartbeat_prefix self +:+ ":" +:+
                 strategy_name self])%list).
  assert (Hkeys : keys_to_clear self r = (Ok keys, r)).
  { assert (Hpat : base +:+ "*" =
                    key_prefix self +:+ ":" +:+ strategy_name self +:+ "*")
      by (unfold base; by rewrite !append_assoc).
    unfold keys_to_clear. rewrite <- Hpat.
    rewrite (bind_ok _ _ _ _ _ (get_keys_eq _ r)). unfold keys.
    by rewrite <- !app_assoc. }
  assert (Hlen : length keys <> 0%nat).
  { unfold keys. rewrite !length_app. cbn. lia. }
  split.
  - intros Hgo.
    set (r1 := set_db (fun d => foldr delete d keys) r).
    assert (Hwipe : clear_all self with_human human r = wipe self keys r).
    { unfold clear_all. rewrite (bind_ok _ _ _ _ _ Hkeys).
      rewrite bool_decide_eq_false_2 by done.
      destruct with_human; [| done].
      destruct Hgo as [? | Hy]; [done |]. by rewrite bool_decide_eq_false_2 by naive_solver. }
    assert (Hgone : forall k, k ∈ keys -> db r1 !! k = None).
    { intros k Hk. cbn. rewrite lookup_foldr_delete. by rewrite decide_True. }
    assert (Hkept : forall k, db r !! k = None -> db r1 !! k = None).
    { intros k Hk. cbn. rewrite lookup_foldr_delete. by destruct (decide _). }
    assert (Hnames1 : holds_set r1 names).
    { unfold holds_set. cbn. rewrite lookup_foldr_delete.
      destruct (decide _); [by left | done]. }
    destruct (SREM_removes names (strategy_name self) r1 Hnames1)
      as (n & r2 & Hsrem & Hset & Hother & _).
    assert (Hgone2 : forall k, db r1 !! k = None -> db r2 !! k = None).
    { intros k Hk. destruct (decide (k = names)) as [-> | Hne].
      - unfold SREM in Hsrem. rewrite Hk in Hsrem. by injection Hsrem as _ <-.
      - by rewrite Hother. }
    assert (Hbase : forall k, String.prefix base k = true -> db r2 !! k = None).
    { intros k Hk. apply Hgone2.
      destruct (db r !! k) as [v |] eqn:Ek; [| by apply Hkept].
      apply Hgone. unfold keys. apply elem_of_app. left.
      apply list_elem_of_In, filter_In. split.
      - apply list_elem_of_In, elem_of_elements, elem_of_dom. eauto.
      - by apply glob_match_prefix. }
    exists (log_line INFO "{self.strategy_name} 删除了 {len(keys)} 条记录, {cong} 条策略名" r2).
    split; [| split; [| split; [| split; [| split; [| split]]]]].
    + rewrite Hwipe. unfold wipe.
      destruct (DEL_eq keys r) as [m Hdel]. fold r1 in Hdel.
      rewrite (bind_ok _ _ _ _ _ Hdel).
      by rewrite (bind_ok _ _ _ _ _ Hsrem).
    + exact Hbase.
    + cbn. apply Hgone2, Hgone. unfold keys. set_solver.
    + cbn. apply Hgone2, Hgone. unfold keys. set_solver.
    + cbn. apply Hgone2, Hgone. unfold keys. set_solver.
    + exact Hset.
    + intros symbol. apply get_last_times_str_none. cbn. apply Hbase.
      replace (last_key self symbol) with (base +:+ (":" +:+ symbol +:+ ":LAST"))
        by (unfold last_key, base; by rewrite !append_assoc).
      apply prefix_app.
  - intros -> Hno. unfold clear_all. rewrite (bind_ok _ _ _ _ _ Hkeys).
    rewrite bool_decide_eq_false_2 by done.
    by rewrite bool_decide_eq_true_2.
Qed.

(** *** Cutting into chunks *)

Lemma take_take_drop {A} (l : list A) (a b : nat) :
  (take a l ++ take b (drop a l))%list = take (a + b) l.
Proof.
  revert l. induction a as [| a IH]; intros l; [done |].
  destruct l as [| x l]; cbn; [by rewrite take_nil |]. by rewrite IH.
Qed.

Lemma concat_chunks_upto {A} (n : nat) (l : list A) (m : nat) :
  concat ((fun i => take n (drop i l)) <$> ((fun k => k * n)%nat <$> seq 0 m)) =
  take (m * n) l.
Proof.
  induction m as [| m IH]; [done |].
  rewrite seq_S, !fmap_app, concat_app, IH. cbn [fmap list_fmap concat].
  rewrite app_nil_r, take_take_drop. f_equal. lia.
Qed.

Lemma ceil_div_covers (n k : nat) : (0 < k)%nat -> (n <= (n + k - 1) / k * k)%nat.
Proof.
  intros Hk. pose proof (Nat.div_mod_eq (n + k - 1) k) as E.
  pose proof (Nat.mod_upper_bound (n + k - 1) k). nia.
Qed.

Lemma concat_chunks {A} (n : nat) (l : list A) : (0 < n)%nat -> concat (chunks n l) = l.
Proof.
  intros Hn. unfold chunks, py_range. rewrite concat_chunks_upto.
  apply take_ge. by apply ceil_div_covers.
Qed.

Lemma chunks_length {A} (n : nat) (l : list A) (c : list A) :
  c ∈ chunks n l -> (length c <= n)%nat.
Proof.
  unfold chunks. intros (i & -> & _)%list_elem_of_fmap.
  rewrite length_take. lia.
Qed.

Lemma bind_drop3 {A B} (f : A -> list B) (l : list A) (i : nat) :
  (forall x, length (f x) = 3%nat) ->
  drop (3 * i) (l ≫= f) = drop i l ≫= f.
Proof.
  intros Hf. revert l. induction i as [| i IH]; intros l; [done |].
  destruct l as [| x l]; [done |].
  cbn [mbind list_bind drop]. replace (3 * S i)%nat with (length (f x) + 3 * i)%nat
    by (rewrite Hf; lia).
  rewrite drop_app_add. apply IH.
Qed.

Lemma bind_take3 {A B} (f : A -> list B) (l : list A) (i : nat) :
  (forall x, length (f x) = 3%nat) ->
  take (3 * i) (l ≫= f) = take i l ≫= f.
Proof.
  intros Hf. revert l. induction i as [| i IH]; intros l; [done |].
  destruct l as [| x l]; [done |].
  cbn [mbind list_bind take]. replace (3 * S i)%nat with (length (f x) + 3 * i)%nat
    by (rewrite Hf; lia).
  rewrite take_app_add. by rewrite IH.
Qed.

Lemma bind_length3 {A B} (f : A -> list B) (l : list A) :
  (forall x, length (f x) = 3%nat) -> length (l ≫= f) = (3 * length l)%nat.
Proof.
  intros Hf. induction l as [| x l IH]; [done |].
  cbn [mbind list_bind]. rewrite length_app, Hf. cbn [length].
  change (length (l ≫= f)) with (length (mbind f l)) in IH. lia.
Qed.

Lemma slice_keys {A} (l : list A) (bs i : nat) :
  (if bool_decide (i + bs < length l)%nat
   then slice l i (i + bs) else slice l i (length l)) = take bs (drop i l).
Proof.
  unfold slice. case_bool_decide.
  - f_equal. lia.
  - rewrite !take_ge; [done | |]; rewrite length_drop; lia.
Qed.

Lemma slice_args {A} (l : list A) (n bs i : nat) :
  length l = (3 * n)%nat ->
  (if bool_decide (i + bs < n)%nat
   then slice l (3 * i) (3 * (i + bs)) else slice l (3 * i) (3 * n)) =
  take (3 * bs) (drop (3 * i) l).
Proof.
  intros Hl. unfold slice. case_bool_decide.
  - f_equal. lia.
  - rewrite !take_ge; [done | |]; rewrite length_drop; lia.
Qed.

Lemma row_args_length (x : row) : length (row_args x) = 3%nat.
Proof. reflexivity. Qed.

(** One turn of the loop over the chunks sends the rows from place [i] on,
    at most [batch_size] of them. *)
Lemma publish_chunk_rows (self : client) (rows : list row) (overwrite : Z)
    (udt : string) (batch_size i pub_cnt : nat) (r : redis) :
  publish_chunk ((fun x => event_key self (symbol x) (dt x)) <$> rows)
    (rows ≫= row_args) overwrite udt batch_size i pub_cnt r =
  (n <- send_chunk self overwrite udt (take batch_size (drop i rows)) ;;
   ret (pub_cnt + n)%nat) r.
Proof.
  unfold publish_chunk.
  pose proof (slice_keys ((fun x => event_key self (symbol x) (dt x)) <$> rows)
                batch_size i) as Hk.
  pose proof (slice_args (rows ≫= row_args) (length rows) batch_size i
                (bind_length3 _ _ row_args_length)) as Ha.
  rewrite length_fmap in *.
  destruct (bool_decide (i + batch_size < length rows)%nat);
    rewrite Hk, Ha, bind_drop3, bind_take3, <- fmap_drop, <- fmap_take
      by apply row_args_length;
    unfold send_chunk, bind, ret; repeat case_match; simplify_eq; done.
Qed.

Lemma publish_chunks_rows (self : client) (rows : list row) (overwrite : Z)
    (udt : string) (batch_size : nat) (starts : list nat) :
  forall (pub_cnt : nat) (r : redis),
  publish_chunks ((fun x => event_key self (symbol x) (dt x)) <$> rows)
    (rows ≫= row_args) overwrite udt batch_size starts pub_cnt r =
  (ns <- forM (send_chunk self overwrite udt)
           ((fun i => take batch_size (drop i rows)) <$> starts) ;;
   ret (pub_cnt + sum_counts ns)%nat) r.
Proof.
  induction starts as [| i starts IH]; intros pub_cnt r.
  - cbn. unfold ret. f_equal. f_equal. unfold sum_counts. cbn. lia.
  - cbn [publish_chunks fmap list_fmap forM].
    rewrite bind_eq, publish_chunk_rows.
    rewrite !bind_eq.
    destruct (send_chunk self overwrite udt (take batch_size (drop i rows)) r)
      as [[n | e] r1]; [| done].
    cbn [ret]. rewrite IH, !bind_eq.
    destruct (forM _ _ r1) as [[ns | e] r2]; [| done].
    cbn. unfold ret. f_equal. f_equal. unfold sum_counts. cbn. lia.
Qed.

(** The rows are sent chunk by chunk and the counts of the runs are added. *)
Lemma send_rows_chunks (self : client) (rows : list row) (overwrite : bool)
    (batch_size : nat) (now now_last : Z) (r : redis) :
  (0 < batch_size)%nat ->
  send_rows self rows overwrite batch_size now now_last r =
  (ns <- forM (send_chunk self (if overwrite then 1 else 0)%Z (strftime iso_format now))
           (chunks batch_size rows) ;;
   update_last self [] now_last ;;;
   ret (sum_counts ns)) r.
Proof.
  intros Hbs. unfold send_rows.
  rewrite bool_decide_eq_false_2 by lia.
  rewrite bind_eq, publish_chunks_rows, length_fmap. fold (chunks batch_size rows).
  rewrite !bind_eq.
  destruct (forM _ _ r) as [[ns | e] r1]; [| done].
  reflexivity.
Qed.

Lemma forM_inv {A B} (f : A -> M B) (l : list A) :
  forall r ys r', forM f l r = (Ok ys, r') ->
  Forall2 (fun x y => exists r1 r2, f x r1 = (Ok y, r2)) l ys.
Proof.
  induction l as [| x l IH]; intros r ys r' E; cbn in E.
  - injection E as <- <-. constructor.
  - apply bind_inv in E as (y & r1 & E1 & E).
    apply bind_inv in E as (ys' & r2 & E2 & E).
    injection E as <- <-. apply IH in E2. constructor; eauto.
Qed.

Lemma send_chunk_count (self : client) (overwrite : Z) (udt : string)
    (chunk : list row) (r : redis) (n : nat) (r' : redis) :
  send_chunk self overwrite udt chunk r = (Ok n, r') -> (n <= length chunk)%nat.
Proof.
  unfold send_chunk. intros E.
  apply bind_inv in E as (u & r1 & _ & E).
  apply bind_inv in E as (ARGV & r2 & _ & E).
  apply bind_inv in E as (m & r3 & E3 & E).
  apply bind_inv in E as (u' & r4 & _ & E). injection E as <- <-.
  unfold lua_publish in E3. apply lua_publish_loop_counts in E3 as [Hn _].
  rewrite length_fmap in Hn. lia.
Qed.

Lemma sum_counts_le_concat {A} (cs : list (list A)) (ns : list nat) :
  Forall2 (fun c n => (n <= length c)%nat) cs ns ->
  (sum_counts ns <= length (concat cs))%nat.
Proof.
  induction 1 as [| c n cs ns Hn _ IH]; cbn; [done |].
  rewrite length_app. unfold sum_counts in IH. lia.
Qed.

(** No more events are counted than rows are sent. *)
Lemma send_rows_count (self : client) (rows : list row) (overwrite : bool)
    (batch_size : nat) (now now_last : Z) (r : redis) (n : nat) (r' : redis) :
  send_rows self rows overwrite batch_size now now_last r = (Ok n, r') ->
  (n <= length rows)%nat.
Proof.
  intros E. destruct (decide (batch_size = 0)%nat) as [-> | Hbs].
  { unfold send_rows in E. by rewrite bool_decide_eq_true_2 in E. }
  rewrite send_rows_chunks in E by lia.
  apply bind_inv in E as (ns & r1 & E1 & E).
  apply bind_inv in E as (u & r2 & _ & E). injection E as <- <-.
  apply forM_inv in E1 as Hall.
  replace (length rows) with (length (concat (chunks batch_size rows)))
    by (rewrite concat_chunks; [done | lia]).
  apply sum_counts_le_concat. eapply Forall2_impl; [exact Hall |].
  intros c m (r3 & r4 & Hc). cbn. by eapply send_chunk_count.
Qed.

(** *** The filter on repeated weights *)

Lemma Qeq_bool_minus (a b : Q) : Qeq_bool (a - b) 0 = Qeq_bool a b.
Proof.
  apply eq_true_iff_eq. rewrite !Qeq_bool_iff. split; intros E.
  - rewrite <- (Qplus_0_r b), <- E. ring.
  - rewrite E. ring.
Qed.

Lemma select_mask_cons {A} (x : A) (l : list A) (m : bool) (ms : list bool) :
  select_mask (x :: l) (m :: ms) =
  if m then x :: select_mask l ms else select_mask l ms.
Proof. unfold select_mask. cbn. by destruct m. Qed.

Lemma drop_repeated_from (prev : Q) (l : list row) :
  select_mask l
    ((fun d => negb (Qeq_bool d 0)) <$>
       fillna 1 (zip_with (fun prev w => Some (w - prev)%Q)
                   (prev :: (num_val ∘ weight <$> l)) (num_val ∘ weight <$> l))) =
  keep_changes_from prev l.
Proof.
  unfold fillna. revert prev. induction l as [| x l IH]; intros prev; [done |].
  rewrite fmap_cons.
  change (zip_with ?f (?a :: ?l1) (?b :: ?l2)) with (f a b :: zip_with f l1 l2).
  rewrite !fmap_cons, select_mask_cons.
  cbn [default keep_changes_from compose]. unfold id.
  rewrite Qeq_bool_minus.
  destruct (Qeq_bool (num_val (weight x)) prev); cbn [negb]; by rewrite <- IH.
Qed.

(** The filter of the source is the filter of the specification. *)
Lemma drop_repeated_weights_spec (l : list row) :
  drop_repeated_weights l = keep_changes l.
Proof.
  destruct l as [| x l]; [done |].
  unfold drop_repeated_weights, diff. rewrite fmap_cons.
  unfold fillna. rewrite !fmap_cons, select_mask_cons. fold (fillna 1).
  cbn [default keep_changes]. unfold id.
  change (negb (Qeq_bool 1 0)) with true. cbn iota. f_equal.
  apply drop_repeated_from.
Qed.

(** An event just after another is dropped exactly when the two weights are
    equal, whatever became of the one before. *)
Lemma keep_changes_from_app (prev : Q) (l1 l2 : list row) (x : row) :
  keep_changes_from prev (l1 ++ x :: l2) =
  (keep_changes_from prev (l1 ++ [x]) ++ keep_changes_from (num_val (weight x)) l2)%list.
Proof.
  revert prev. induction l1 as [| y l1 IH]; intros prev; cbn.
  - by destruct (Qeq_bool _ _).
  - rewrite IH. by destruct (Qeq_bool _ _).
Qed.

Lemma keep_changes_adjacent (l1 l2 : list row) (x y : row) :
  keep_changes (l1 ++ x :: y :: l2) =
  (keep_changes (l1 ++ [x]) ++
   (if Qeq_bool (num_val (weight y)) (num_val (weight x)) then [] else [y]) ++
   keep_changes_from (num_val (weight y)) l2)%list.
Proof.
  destruct l1 as [| z l1]; cbn.
  - by destruct (Qeq_bool _ _).
  - rewrite keep_changes_from_app. cbn [keep_changes_from]. f_equal. f_equal.
    by destruct (Qeq_bool (num_val (weight y)) _).
Qed.

Lemma keep_changes_from_sublist (prev : Q) (l : list row) :
  keep_changes_from prev l `sublist_of` l.
Proof.
  revert prev. induction l as [| x l IH]; intros prev; cbn; [done |].
  destruct (Qeq_bool _ _); [by apply sublist_cons | by apply sublist_skip].
Qed.

Lemma keep_changes_sublist (l : list row) : keep_changes l `sublist_of` l.
Proof.
  destruct l as [| x l]; cbn; [done |]. apply sublist_skip, keep_changes_from_sublist.
Qed.

(** *** Groups *)

#[local] Instance str_le_total : Total str_le.
Proof. intros a b. apply String.leb_total. Qed.

#[local] Instance key_le_total {A K} (R : relation K) `{!Total R} (f : A -> K) :
  Total (key_le R f).
Proof. intros a b. apply (total R). Qed.

Lemma group_keys_NoDup {A} (f : A -> string) (l : list A) :
  NoDup (merge_sort str_le (remove_dups (f <$> l))).
Proof. rewrite merge_sort_Permutation. apply NoDup_remove_dups. Qed.

Lemma group_keys_elem {A} (f : A -> string) (l : list A) (s : string) :
  s ∈ merge_sort str_le (remove_dups (f <$> l)) <-> exists x, x ∈ l /\ f x = s.
Proof.
  rewrite merge_sort_Permutation, elem_of_remove_dups, list_elem_of_fmap.
  naive_solver.
Qed.

Lemma filter_nil_iff {A} (P : A -> Prop) `{!forall x, Decision (P x)} (l : list A) :
  (forall x, x ∈ l -> ~ P x) -> filter P l = [].
Proof.
  induction l as [| x l IH]; intros Hl; [done |].
  rewrite filter_cons_False by (apply Hl; left). apply IH.
  intros y Hy. apply Hl. by right.
Qed.

Lemma filter_all {A} (P : A -> Prop) `{!forall x, Decision (P x)} (l : list A) :
  (forall x, x ∈ l -> P x) -> filter P l = l.
Proof.
  induction l as [| x l IH]; intros Hl; [done |].
  rewrite filter_cons_True by (apply Hl; left). f_equal. apply IH.
  intros y Hy. apply Hl. by right.
Qed.

(** Taking the rows of one key out of groups put one after the other gives
    the group of that key. *)
Lemma filter_concat_groups {A} (f : A -> string) (g : string -> list A)
    (ks : list string) (s : string) :
  (forall k x, x ∈ g k -> f x = k) ->
  NoDup ks ->
  filter (fun x => f x = s) (concat (g <$> ks)) = if decide (s ∈ ks) then g s else [].
Proof.
  intros Hg. induction 1 as [| k ks Hk Hnd IH]; [done |].
  cbn [fmap list_fmap concat]. rewrite filter_app, IH.
  destruct (decide (k = s)) as [-> | Hne].
  - rewrite (decide_True (P := s ∈ s :: ks)) by left.
    rewrite (decide_False (P := s ∈ ks)) by done.
    rewrite app_nil_r. apply filter_all. intros x Hx. by apply Hg in Hx.
  - rewrite filter_nil_iff by (intros x Hx%Hg; congruence). cbn [app].
    destruct (decide (s ∈ ks)).
    + by rewrite (decide_True (P := s ∈ k :: ks)) by (by right).
    + rewrite (decide_False (P := s ∈ k :: ks)); [done |].
      by intros [-> | ?]%elem_of_cons.
Qed.

(** The groups of a list hold the elements of the list. *)
Lemma concat_groups_perm {A} (f : A -> string) (l : list A) (ks : list string) :
  NoDup ks -> (forall x, x ∈ l -> f x ∈ ks) ->
  concat ((fun s => filter (fun x => f x = s) l) <$> ks) ≡ₚ l.
Proof.
  intros Hnd. induction l as [| x l IH]; intros Hin.
  - induction ks as [| k ks IHk]; [done |]. cbn.
    apply IHk; [by apply NoDup_cons in Hnd as [_ ?] | intros ? []%elem_of_nil].
  - assert (Hx : f x ∈ ks) by (apply Hin; left).
    assert (IH' : concat ((fun s => filter (fun x => f x = s) l) <$> ks) ≡ₚ l)
      by (apply IH; intros y Hy; apply Hin; by right).
    etrans; [| apply Permutation_cons; [done | exact IH']]. clear IH IH' Hin.
    induction Hnd as [| k ks Hk Hnd IHk]; [by apply elem_of_nil in Hx |].
    cbn [fmap list_fmap concat].
    destruct (decide (f x = k)) as [E | Hne].
    + rewrite filter_cons_True by done. cbn [app]. constructor.
      apply Permutation_app_head.
      assert (Hnot : f x ∉ ks) by (by rewrite E).
      clear -Hnot. induction ks as [| k' ks IH]; [done |].
      cbn [fmap list_fmap concat].
      rewrite filter_cons_False by (intros E; apply Hnot; rewrite E; left).
      f_equiv. apply IH. intros ?. apply Hnot. by right.
    + rewrite filter_cons_False by done.
      rewrite IHk by (apply elem_of_cons in Hx as [? | ?]; congruence).
      by rewrite Permutation_middle.
Qed.

Lemma groupby_concat_length {A} (f : A -> string) (g : list A -> list A) (l : list A) :
  (forall l', length (g l') <= length l')%nat ->
  (length (concat ((fun gr => g gr.2) <$> groupby f l)) <= length l)%nat.
Proof.
  intros Hg. unfold groupby. rewrite <- list_fmap_compose.
  assert (Hperm := concat_groups_perm f l (merge_sort str_le (remove_dups (f <$> l)))
                     (group_keys_NoDup f l)
                     (fun x Hx => proj2 (group_keys_elem f l (f x))
                                    (ex_intro _ x (conj Hx eq_refl)))).
  apply Permutation_length in Hperm. rewrite <- Hperm. clear Hperm.
  generalize (merge_sort str_le (remove_dups (f <$> l))). intros ks.
  induction ks as [| k ks IH]; [done |]. cbn. rewrite !length_app.
  specialize (Hg (filter (fun x => f x = k) l)). lia.
Qed.

Lemma groupby_nonempty {A} (f : A -> string) (l : list A) :
  l <> [] -> groupby f l <> [].
Proof.
  intros Hl E. destruct l as [| x l]; [done |].
  assert (Hx : f x ∈ merge_sort str_le (remove_dups (f <$> (x :: l)))).
  { apply group_keys_elem. exists x. split; [left | done]. }
  unfold groupby in E. apply fmap_nil_inv in E. rewrite E in Hx.
  by apply elem_of_nil in Hx.
Qed.

Lemma pd_concat_ok {A} (frames : list (list A)) (r : redis) :
  frames <> [] -> pd_concat frames r = (Ok (concat frames), r).
Proof. by destruct frames. Qed.

Lemma pd_concat_inv {A} (frames : list (list A)) (r : redis) out r' :
  pd_concat frames r = (Ok out, r') -> out = concat frames /\ r' = r.
Proof. destruct frames; [done |]. by intros [= <- <-]. Qed.

Lemma dedup_frame_ok (rows : list row) (r : redis) :
  rows <> [] -> dedup_frame rows r = (Ok (deduped rows), r).
Proof.
  intros Hrows. unfold dedup_frame.
  erewrite bind_ok; [reflexivity |]. apply pd_concat_ok.
  intros E%fmap_nil_inv. by apply groupby_nonempty in E.
Qed.

Lemma dedup_frame_inv (rows : list row) (r : redis) out r' :
  dedup_frame rows r = (Ok out, r') -> out = deduped rows /\ r' = r.
Proof.
  unfold dedup_frame. intros E. apply bind_inv in E as (df & r1 & E1 & E).
  apply pd_concat_inv in E1 as [-> ->]. by injection E as <- <-.
Qed.

Lemma drop_repeated_length (l : list row) :
  (length (drop_repeated_weights l) <= length l)%nat.
Proof. rewrite drop_repeated_weights_spec. apply sublist_length, keep_changes_sublist. Qed.

Lemma deduped_length (rows : list row) : (length (deduped rows) <= length rows)%nat.
Proof.
  unfold deduped, sort_values. rewrite merge_sort_Permutation.
  apply (groupby_concat_length symbol
           (fun l => drop_repeated_weights (sort_values Z.le dt l))).
  intros l. etrans; [apply drop_repeated_length |].
  unfold sort_values. by rewrite merge_sort_Permutation.
Qed.

(** Per symbol, the frame after the first filter holds the events of the
    symbol in time order without those that repeat the weight before. *)
Lemma deduped_symbol (rows : list row) (s : string) :
  filter (fun x => symbol x = s) (deduped rows) ≡ₚ
  keep_changes (sort_values Z.le dt (filter (fun x => symbol x = s) rows)).
Proof.
  unfold deduped, sort_values at 1. rewrite merge_sort_Permutation.
  assert (Hg : (fun g : string * list row =>
                  drop_repeated_weights (sort_values Z.le dt g.2))
                 <$> groupby symbol rows =
               (fun k => drop_repeated_weights
                           (sort_values Z.le dt (filter (fun x => symbol x = k) rows)))
                 <$> merge_sort str_le (remove_dups (symbol <$> rows))).
  { unfold groupby. by rewrite <- list_fmap_compose. }
  rewrite Hg.
  rewrite (filter_concat_groups symbol
             (fun k => drop_repeated_weights
                         (sort_values Z.le dt (filter (fun x => symbol x = k) rows)))).
  - rewrite drop_repeated_weights_spec. case_decide as Hs; [done |].
    rewrite filter_nil_iff; [done |]. intros x Hx E. apply Hs.
    apply group_keys_elem. eauto.
  - intros k x Hx. rewrite drop_repeated_weights_spec in Hx.
    apply (fun Hx => elem_of_sublist _ _ _ Hx (keep_changes_sublist _)) in Hx.
    unfold sort_values in Hx. rewrite merge_sort_Permutation in Hx.
    by apply list_elem_of_filter in Hx as [? _].
  - apply group_keys_NoDup.
Qed.

(** *** Computations that only read *)

Lemma reads_ret {A} (a : A) : reads_db (ret a).
Proof. intros r. split; [done |]. by intros. Qed.

Lemma reads_raise {A} (e : string) : reads_db (raise e : M A).
Proof. intros r. split; [done |]. by intros. Qed.

Lemma reads_need {A} (o : option A) (e : string) : reads_db (need o e).
Proof. destruct o; [apply reads_ret | apply reads_raise]. Qed.

Lemma reads_bind {A B} (m : M A) (k : A -> M B) :
  reads_db m -> (forall a, reads_db (k a)) -> reads_db (bind m k).
Proof.
  intros Hm Hk r. destruct (Hm r) as [Hs Ha]. unfold bind.
  destruct (m r) as [o r1] eqn:E. cbn in Hs. subst r1. split.
  - destruct o as [a | e]; [apply Hk | done].
  - intros r' Hr'. specialize (Ha r' Hr'). destruct (Hm r') as [Hs' _].
    destruct (m r') as [o' r1'] eqn:E'. cbn in *. subst.
    destruct o as [a | e]; [| done]. by apply Hk.
Qed.

Lemma reads_forM {A B} (f : A -> M B) (l : list A) :
  (forall x, reads_db (f x)) -> reads_db (forM f l).
Proof.
  intros Hf. induction l as [| x l IH]; [apply reads_ret |].
  cbn. apply reads_bind; [apply Hf |]. intros y.
  apply reads_bind; [apply IH |]. intros ys. apply reads_ret.
Qed.

Lemma reads_HGETALL key : reads_db (HGETALL key).
Proof.
  intros r. unfold HGETALL. split; [by repeat case_match |].
  intros r' Hr'. rewrite Hr'. by repeat case_match.
Qed.

Lemma reads_KEYS pattern : reads_db (KEYS pattern).
Proof. intros r. unfold KEYS. split; [done |]. intros r' Hr'. cbn. by rewrite Hr'. Qed.

Lemma reads_get_symbols self : reads_db (get_symbols self).
Proof.
  unfold get_symbols, get_keys.
  repeat (apply reads_bind || apply reads_KEYS || apply reads_ret ||
          apply reads_forM || apply reads_need || intros ?).
Qed.

Lemma reads_get_last_times self symbols : reads_db (get_last_times self symbols).
Proof.
  unfold get_last_times.
  apply reads_bind; [destruct symbols; [apply reads_get_symbols | apply reads_ret] |].
  intros ?. apply reads_bind; [apply reads_forM; intros; apply reads_HGETALL |].
  intros ?. apply reads_bind; [| intros; apply reads_ret].
  apply reads_forM. intros ?.
  repeat (apply reads_bind || apply reads_ret || apply reads_need || intros ?).
Qed.

Lemma reads_run {A} (m : M A) (r r' : redis) (o : outcome A) :
  reads_db m -> m r = (o, r) -> db r' = db r -> m r' = (o, r').
Proof.
  intros Hm E Hdb. destruct (Hm r') as [Hs _]. destruct (Hm r) as [_ Ha].
  specialize (Ha r' Hdb). rewrite E in Ha. cbn in Ha.
  destruct (m r') as [o' r1]. cbn in *. by subst.
Qed.

(** *** The second filter *)

Lemma StronglySorted_sublist {A} (R : relation A) (l1 l2 : list A) :
  l1 `sublist_of` l2 -> StronglySorted R l2 -> StronglySorted R l1.
Proof.
  induction 1 as [| x l1 l2 Hsub IH | x l1 l2 Hsub IH]; intros Hs; [done | |].
  - apply StronglySorted_inv in Hs as [Hs Hall]. constructor; [by apply IH |].
    rewrite Forall_forall in *. intros y Hy. apply Hall.
    by eapply elem_of_sublist.
  - apply StronglySorted_inv in Hs as [Hs _]. by apply IH.
Qed.

Lemma StronglySorted_fmap_key {A K} (R : relation K) (f : A -> K) (h : A -> A)
    (l : list A) :
  (forall x, f (h x) = f x) ->
  StronglySorted (key_le R f) l -> StronglySorted (key_le R f) (h <$> l).
Proof.
  intros Hh. induction 1 as [| x l Hs IH Hall]; [constructor |].
  cbn. constructor; [done |]. rewrite Forall_fmap. eapply Forall_impl; [exact Hall |].
  intros y Hy. unfold key_le in *. cbn. by rewrite !Hh.
Qed.

#[local] Instance key_le_trans {A K} (R : relation K) `{!Transitive R} (f : A -> K) :
  Transitive (key_le R f).
Proof. intros a b c. unfold key_le. apply transitivity. Qed.

Lemma deduped_sorted (rows : list row) :
  StronglySorted (key_le Z.le dt) (deduped rows).
Proof. unfold deduped, sort_values. apply StronglySorted_merge_sort; apply _. Qed.

Lemma with_defaults_sorted (df : dataframe) (rows : list row) :
  StronglySorted (key_le Z.le dt) rows ->
  StronglySorted (key_le Z.le dt) (with_defaults df rows).
Proof.
  intros Hs. unfold with_defaults.
  destruct (has_price df), (has_ref df);
    repeat (apply StronglySorted_fmap_key; [done |]); done.
Qed.

Lemma with_defaults_length (df : dataframe) (rows : list row) :
  length (with_defaults df rows) = length rows.
Proof.
  unfold with_defaults. destruct (has_price df), (has_ref df);
    by rewrite ?length_fmap.
Qed.

(** What the second filter leaves of a frame. *)
Lemma filter_stale_groups (_time : gmap string Z) (rows : list row) :
  (fun g : string * list row =>
     match _time !! g.1 with
     | Some last_dt => filter (fun x => (last_dt < dt x)%Z) g.2
     | None => g.2
     end) <$> groupby symbol rows =
  (fun s => filter (later_than _time) (filter (fun x => symbol x = s) rows))
    <$> merge_sort str_le (remove_dups (symbol <$> rows)).
Proof.
  unfold groupby. rewrite <- list_fmap_compose. apply list_fmap_ext.
  intros _ s _. cbn.
  destruct (_time !! s) as [last_dt |] eqn:E.
  - rewrite !list_filter_filter. apply list_filter_iff. intros x.
    unfold later_than. split.
    + intros [? <-]. by rewrite E.
    + intros [Hl <-]. by rewrite E in Hl.
  - symmetry. apply filter_all. intros x [<- _]%list_elem_of_filter.
    unfold later_than. by rewrite E.
Qed.

Lemma filter_stale_ok (_time : gmap string Z) (rows : list row) (r : redis) :
  rows <> [] ->
  filter_stale _time rows r =
    (Ok (concat ((fun s => filter (later_than _time)
                             (filter (fun x => symbol x = s) rows))
                   <$> merge_sort str_le (remove_dups (symbol <$> rows)))), r).
Proof.
  intros Hrows. unfold filter_stale. rewrite pd_concat_ok.
  - by rewrite filter_stale_groups.
  - intros E%fmap_nil_inv. by apply groupby_nonempty in E.
Qed.

Lemma filter_stale_length (_time : gmap string Z) (rows : list row) (r : redis)
    out r' :
  filter_stale _time rows r = (Ok out, r') -> (length out <= length rows)%nat.
Proof.
  unfold filter_stale. intros [-> _]%pd_concat_inv.
  rewrite filter_stale_groups.
  pose proof (groupby_concat_length symbol (filter (later_than _time)) rows
                (fun l => length_filter _ l)) as Hlen.
  unfold groupby in Hlen. by rewrite <- list_fmap_compose in Hlen.
Qed.

(** *** [prepare_rows] *)

Lemma merge_sort_nil_inv {A} (R : relation A) `{!RelDecision R} (l : list A) :
  merge_sort R l = [] -> l = [].
Proof.
  intros E. apply Permutation_nil_r. rewrite <- E. by rewrite merge_sort_Permutation.
Qed.

Lemma deduped_nonempty (rows : list row) : rows <> [] -> deduped rows <> [].
Proof.
  destruct rows as [| x rows]; [done |]. intros _ E.
  pose proof (deduped_symbol (x :: rows) (symbol x)) as Hp.
  rewrite E, filter_nil in Hp. apply Permutation_nil_l in Hp.
  rewrite filter_cons_True in Hp by done.
  destruct (sort_values Z.le dt _) as [| y l] eqn:Es; [| done].
  by apply merge_sort_nil_inv in Es.
Qed.

Lemma with_defaults_nonempty df rows : rows <> [] -> with_defaults df rows <> [].
Proof.
  intros Hr E. apply (f_equal length) in E. rewrite with_defaults_length in E.
  by destruct rows.
Qed.

Lemma prepare_rows_overwrite (self : client) (df : dataframe) (r : redis) :
  df_rows df <> [] ->
  prepare_rows self df true r =
    (Ok (with_defaults df (deduped (df_rows df))),
     log_line INFO log2 (log_line INFO log1 r)).
Proof.
  intros Hrows. unfold prepare_rows.
  rewrite (bind_ok _ _ _ _ _ (logger_eq _ _ _)).
  rewrite (bind_ok _ _ _ _ _ (dedup_frame_ok _ _ Hrows)).
  rewrite (bind_ok _ _ _ _ _ (logger_eq _ _ _)).
  reflexivity.
Qed.

Lemma prepare_rows_fresh (self : client) (df : dataframe) (r : redis)
    (_time : gmap string Z) :
  df_rows df <> [] ->
  get_last_times self [] r = (Ok _time, r) ->
  let rows0 := with_defaults df (deduped (df_rows df)) in
  prepare_rows self df false r =
    (Ok (concat ((fun s => filter (later_than _time)
                             (filter (fun x => symbol x = s) rows0))
                   <$> merge_sort str_le (remove_dups (symbol <$> rows0)))),
     log_line INFO log3 (log_line INFO log2 (log_line INFO log1 r))).
Proof.
  intros Hrows Htime rows0. unfold prepare_rows.
  rewrite (bind_ok _ _ _ _ _ (logger_eq _ _ _)).
  rewrite (bind_ok _ _ _ _ _ (dedup_frame_ok _ _ Hrows)).
  rewrite (bind_ok _ _ _ _ _ (logger_eq _ _ _)).
  cbn [negb]. fold (with_defaults df (deduped (df_rows df))). fold rows0.
  erewrite bind_ok; cycle 1.
  { eapply reads_run; [apply reads_get_last_times | exact Htime | done]. }
  erewrite bind_ok; cycle 1.
  { apply filter_stale_ok. by apply with_defaults_nonempty, deduped_nonempty. }
  by rewrite (bind_ok _ _ _ _ _ (logger_eq _ _ _)).
Qed.

Lemma prepare_rows_length (self : client) (df : dataframe) (overwrite : bool)
    (r : redis) rows r' :
  prepare_rows self df overwrite r = (Ok rows, r') ->
  (length rows <= length (deduped (df_rows df)))%nat.
Proof.
  unfold prepare_rows. intros E.
  apply bind_inv in E as (u1 & r1 & _ & E).
  apply bind_inv in E as (rows0 & r2 & E2 & E).
  apply dedup_frame_inv in E2 as [-> ->].
  apply bind_inv in E as (u2 & r3 & _ & E).
  fold (with_defaults df (deduped (df_rows df))) in E.
  destruct overwrite; cbn [negb] in E.
  - injection E as <- <-. by rewrite with_defaults_length.
  - apply bind_inv in E as (_time & r4 & _ & E).
    apply bind_inv in E as (rows1 & r5 & E5 & E).
    apply bind_inv in E as (u3 & r6 & _ & E). injection E as <- <-.
    apply filter_stale_length in E5. by rewrite with_defaults_length in E5.
Qed.

(** C3. The first filter of [publish_dataframe]. For a frame with at least
    one row: the filter leaves, for every symbol, the events of the symbol
    in time order without those whose weight equals (exactly, as a number)
    the weight of the event just before; the filter of the source is the
    filter written after the words of the specification; the first event of
    every symbol is kept; of two events that follow each other the second is
    dropped exactly when the two weights are equal; and all this happens
    before the store is touched, so that the count [publish_dataframe]
    answers is at most the number of events the filter keeps. *)
Theorem publish_dataframe_drops_repeats (self : client) (df : dataframe)
    (overwrite : bool) (batch_size : nat) (now now_last : Z) (r : redis) :
  df_rows df <> [] ->
  let in_order s := sort_values Z.le dt (filter (fun x => symbol x = s) (df_rows df)) in
  dedup_frame (df_rows df) r = (Ok (deduped (df_rows df)), r)
  /\ (forall s, filter (fun x => symbol x = s) (deduped (df_rows df)) ≡ₚ
                keep_changes (in_order s))
  /\ (forall l, drop_repeated_weights l = keep_changes l)
  /\ (forall s x l, in_order s = x :: l -> x ∈ deduped (df_rows df))
  /\ (forall l1 x y l2,
         keep_changes (l1 ++ x :: y :: l2) =
         (keep_changes (l1 ++ [x]) ++
          (if Qeq_bool (num_val (weight y)) (num_val (weight x)) then [] else [y]) ++
          keep_changes_from (num_val (weight y)) l2)%list)
  /\ (forall n r',
         publish_dataframe self df overwrite batch_size now now_last r = (Ok n, r') ->
         (n <= length (deduped (df_rows df)))%nat).
Proof.
  intros Hrows in_order. repeat split.
  - by apply dedup_frame_ok.
  - intros s. apply deduped_symbol.
  - apply drop_repeated_weights_spec.
  - intros s x l E. pose proof (deduped_symbol (df_rows df) s) as Hp.
    fold (in_order s) in Hp. rewrite E in Hp. cbn in Hp.
    assert (Hx : x ∈ filter (fun x => symbol x = s) (deduped (df_rows df)))
      by (rewrite Hp; left).
    by apply list_elem_of_filter in Hx as [_ ?].
  - intros l1 x y l2. apply keep_changes_adjacent.
  - intros n r' E. unfold publish_dataframe in E.
    apply bind_inv in E as (rows & r1 & E1 & E).
    apply prepare_rows_length in E1. apply send_rows_count in E. lia.
Qed.

(** X6. The second filter and the sending. With [overwrite=False], for a frame
    with at least one row, a positive [batch_size] and the times [_time] that
    [get_last_times()] answers: the rows left to send are, symbol by symbol,
    the events of the filtered frame that are later than the time recorded
    for their symbol (all of them when none is recorded); they are put one
    symbol after the other, the symbols in ascending order, the events of
    each symbol in ascending time; they are sent in chunks of at most
    [batch_size] rows, which put together are the rows, each chunk with the
    keys of its rows and the weight, price and reference of each of them;
    and the count answered is the sum of the counts of the chunks. Only
    lines of the log are added before the first chunk is sent. *)
Theorem publish_dataframe_batches (self : client) (df : dataframe)
    (batch_size : nat) (now now_last : Z) (r : redis) (_time : gmap string Z) :
  df_rows df <> [] ->
  (0 < batch_size)%nat ->
  get_last_times self [] r = (Ok _time, r) ->
  let rows0 := with_defaults df (deduped (df_rows df)) in
  exists rows r1,
    prepare_rows self df false r = (Ok rows, r1)
    /\ db r1 = db r /\ published r1 = published r
    /\ (forall s, filter (fun x => symbol x = s) rows =
                  filter (later_than _time) (filter (fun x => symbol x = s) rows0))
    /\ (exists syms, Sorted str_le syms /\ NoDup syms /\
                     rows = concat ((fun s => filter (fun x => symbol x = s) rows) <$> syms))
    /\ (forall s, StronglySorted (key_le Z.le dt) (filter (fun x => symbol x = s) rows))
    /\ publish_dataframe self df false batch_size now now_last r =
       (ns <- forM (send_chunk self 0 (strftime iso_format now))
                (chunks batch_size rows) ;;
        update_last self [] now_last ;;;
        ret (sum_counts ns)) r1
    /\ concat (chunks batch_size rows) = rows
    /\ (forall c, c ∈ chunks batch_size rows -> (length c <= batch_size)%nat).
Proof.
  intros Hrows Hbs Htime rows0.
  set (syms := merge_sort str_le (remove_dups (symbol <$> rows0))).
  set (block := fun s => filter (later_than _time)
                           (filter (fun x => symbol x = s) rows0)).
  assert (Hblock : forall s, filter (fun x => symbol x = s) (concat (block <$> syms)) =
                             block s).
  { intros s. rewrite (filter_concat_groups symbol block).
    - case_decide as Hs; [done |]. unfold block. symmetry.
      rewrite (filter_nil_iff (fun x => symbol x = s)); [done |].
      intros x Hx E. apply Hs. apply group_keys_elem. eauto.
    - intros k x Hx. unfold block in Hx.
      apply list_elem_of_filter in Hx as [_ Hx].
      by apply list_elem_of_filter in Hx as [? _].
    - apply group_keys_NoDup. }
  exists (concat (block <$> syms)), (log_line INFO log3 (log_line INFO log2 (log_line INFO log1 r))).
  split; [by apply prepare_rows_fresh |].
  split; [done |]. split; [done |]. split; [exact Hblock |].
  split; [| split; [| split; [| split]]].
  - exists syms. split; [apply Sorted_merge_sort; apply _ |].
    split; [apply group_keys_NoDup |].
    f_equal. apply list_fmap_ext. intros _ s _. by rewrite Hblock.
  - intros s. rewrite Hblock. unfold block.
    eapply StronglySorted_sublist; [apply sublist_filter |].
    eapply StronglySorted_sublist; [apply sublist_filter |].
    apply with_defaults_sorted, deduped_sorted.
  - unfold publish_dataframe.
    rewrite (bind_ok _ _ _ _ _ (prepare_rows_fresh self df r _time Hrows Htime)).
    by apply send_rows_chunks.
  - by apply concat_chunks.
  - intros c. apply chunks_length.
Qed.

(** *** Reading a published event back *)

Lemma hash_set_lookup_last fvs f v (h : gmap string string) :
  hash_set (fvs ++ [(f, v)]) h !! f = Some v.
Proof. rewrite hash_set_snoc. apply lookup_insert_eq. Qed.

Lemma record_fields_ref symbol sig at_str update_time price ref_str h :
  hash_set (record_fields symbol sig at_str update_time price ref_str) h !! "ref" =
  Some ref_str.
Proof.
  unfold record_fields.
  change [("symbol", symbol); ("weight", sig); ("dt", at_str);
          ("update_time", update_time); ("price", price); ("ref", ref_str)]
    with ([("symbol", symbol); ("weight", sig); ("dt", at_str);
           ("update_time", update_time); ("price", price)] ++ [("ref", ref_str)])%list.
  apply hash_set_lookup_last.
Qed.

Lemma HMSET_inv key fvs r st r' :
  HMSET key fvs r = (Ok st, r') ->
  exists h, r' = set_db <[key := RHash (hash_set fvs h)]> r.
Proof. unfold HMSET. repeat case_match; intros [= <- <-]; eauto. Qed.

Lemma ZADD_inv key score member r n r' :
  ZADD key score member r = (Ok n, r') ->
  exists z, r' = set_db <[key := RZSet (<[member := score]> z)]> r.
Proof.
  unfold ZADD. repeat case_match; intros [= <- <-]; eauto.
Qed.

(** A key that the script counts has its record, with the reference sent
    for it, and is in the index of its symbol with its time as score. *)
Lemma lua_publish_key_written overwrite update_time ARGV i key cnt r r'
    (s1 s2 s3 t : string) (rest : list string) :
  lua_fields key = s1 :: s2 :: s3 :: t :: rest ->
  lua_publish_key overwrite update_time ARGV i key cnt r = (Ok (S cnt), r') ->
  exists ref_str score h z,
    lua_index ARGV (5 + 3 * (i - 1)) = Some ref_str
    /\ lua_tonumber t = Some score
    /\ db r' !! key = Some (RHash h) /\ h !! "ref" = Some ref_str
    /\ db r' !! (s1 +:+ ":" +:+ s2 +:+ ":" +:+ s3) = Some (RZSet z)
    /\ z !! key = Some score.
Proof.
  intros Hf E. unfold lua_publish_key in E. rewrite Hf in E.
  cbn [lua_index lookup list_lookup] in E.
  apply bind_inv in E as (? & r1 & E1 & E). apply need_inv in E1 as [[= <-] ->].
  apply bind_inv in E as (? & r2 & E2 & E). apply need_inv in E2 as [[= <-] ->].
  apply bind_inv in E as (? & r3 & E3 & E). apply need_inv in E3 as [[= <-] ->].
  apply bind_inv in E as (b & r4 & E4 & E). apply lua_if_pass_reads in E4 as ->.
  destruct b; cbn [negb] in E; [injection E as E _; lia |].
  unfold lua_write in E. cbn [lua_index lookup list_lookup] in E.
  apply bind_inv in E as (? & r5 & E5 & E). apply need_inv in E5 as [[= <-] ->].
  apply bind_inv in E as (sc & r6 & E6 & E). apply need_inv in E6 as [Hsc ->].
  apply bind_inv in E as (n1 & r7 & Ez & E). apply ZADD_inv in Ez as [z ->].
  apply bind_inv in E as (a1 & r8 & E8 & E). apply need_inv in E8 as [_ ->].
  apply bind_inv in E as (a2 & r9 & E9 & E). apply need_inv in E9 as [_ ->].
  apply bind_inv in E as (a3 & r10 & E10 & E). apply need_inv in E10 as [_ ->].
  apply bind_inv in E as (a4 & r11 & E11 & E). apply need_inv in E11 as [Hr ->].
  apply bind_inv in E as (st1 & r12 & Eh1 & E).
  apply bind_inv in E as (st2 & r13 & Eh2 & E).
  pose proof (HMSET_status _ _ _ _ _ Eh1) as ->.
  pose proof (HMSET_status _ _ _ _ _ Eh2) as ->.
  cbn [ok lua_truthy andb] in E.
  apply bind_inv in E as (u & r14 & Ep & E). injection E as _ <-.
  unfold PUBLISH in Ep. injection Ep as _ <-. cbn [db].
  set (mk := s1 +:+ ":" +:+ s2 +:+ ":" +:+ s3) in *.
  set (last := lua_gsub key t "LAST") in *.
  set (fields := record_fields _ _ _ _ _ _) in *.
  (* the two HMSET succeeded on a store where [mk] holds a sorted set *)
  assert (Hkm : key <> mk).
  { intros ->. unfold HMSET in Eh1. cbn in Eh1.
    by rewrite lookup_insert_eq in Eh1. }
  apply HMSET_inv in Eh1 as Hr12. destruct Hr12 as [h1 ->].
  assert (Hlm : last <> mk).
  { intros El. unfold HMSET in Eh2. cbn in Eh2. rewrite El in Eh2.
    rewrite lookup_insert_ne in Eh2 by done.
    by rewrite lookup_insert_eq in Eh2. }
  exists a4, sc.
  destruct (decide (last = key)) as [El | Hlk].
  - unfold HMSET in Eh2. cbn in Eh2. rewrite El, lookup_insert_eq in Eh2.
    injection Eh2 as <-. cbn.
    exists (hash_set fields (hash_set fields h1)), (<[key := sc]> z).
    repeat split; try done.
    + by rewrite lookup_insert_eq.
    + apply record_fields_ref.
    + rewrite !lookup_insert_ne by done. by rewrite lookup_insert_eq.
    + by rewrite lookup_insert_eq.
  - apply HMSET_inv in Eh2 as [h2 ->]. cbn.
    exists (hash_set fields h1), (<[key := sc]> z).
    repeat split; try done.
    + rewrite lookup_insert_ne by done. by rewrite lookup_insert_eq.
    + apply record_fields_ref.
    + rewrite !lookup_insert_ne by done. by rewrite lookup_insert_eq.
    + by rewrite lookup_insert_eq.
Qed.

Lemma get_last_times_str_reads self symbol r o r' :
  get_last_times_str self symbol r = (o, r') -> r' = r.
Proof.
  unfold get_last_times_str, bind, HGETALL, need, ret, raise.
  repeat case_match; intros ?; by simplify_eq.
Qed.

Lemma encode_arg_reads (o : pyobj) r x r' : encode_arg o r = (x, r') -> r' = r.
Proof. unfold encode_arg, ret, raise. destruct o; intros ?; by simplify_eq. Qed.

Lemma forM_encode_inv (l : list pyobj) r ys r' :
  forM encode_arg l r = (Ok ys, r') ->
  r' = r /\ Forall2 (fun o y => encode_arg o r = (Ok y, r)) l ys.
Proof.
  revert r ys r'. induction l as [| o l IH]; intros r ys r' E; cbn in E.
  - injection E as <- <-. split; [done | constructor].
  - apply bind_inv in E as (y & r1 & E1 & E).
    pose proof (encode_arg_reads _ _ _ _ E1) as ->.
    apply bind_inv in E as (ys' & r2 & E2 & E). injection E as <- <-.
    apply IH in E2 as [-> Hall]. split; [done |]. by constructor.
Qed.

Lemma encode_ref_text (ref : pyobj) r text :
  encode_arg (if isinstance_dict (if py_truthy ref then ref else PStr "{}")
              then PStr (json_dumps (if py_truthy ref then ref else PStr "{}"))
              else if py_truthy ref then ref else PStr "{}") r = (Ok text, r) ->
  ref_text ref = Some text.
Proof.
  unfold ref_text, encode_arg, ret, raise.
  destruct (py_truthy ref); [| by intros [= <-]].
  destruct ref; cbn; intros ?; by simplify_eq.
Qed.

(** An event that [publish] counts is recorded with the text of its
    reference and indexed under its symbol. *)
Lemma publish_accepted_record (self : client) (symbol : string) (dt : Z)
    (weight price : pynum) (ref : pyobj) (overwrite : bool) (now : Z)
    (r r1 : redis) :
  let t := strftime "%Y%m%d%H%M%S" dt in
  let model_key := key_prefix self +:+ ":" +:+ strategy_name self +:+ ":" +:+ symbol in
  key_part (key_prefix self) -> key_part (strategy_name self) -> key_part symbol ->
  key_part t ->
  publish self symbol dt weight price ref overwrite now r = (Ok 1%nat, r1) ->
  exists text score h z,
    ref_text ref = Some text
    /\ lua_tonumber t = Some score
    /\ db r1 !! event_key self symbol dt = Some (RHash h) /\ h !! "ref" = Some text
    /\ db r1 !! model_key = Some (RZSet z)
    /\ z !! event_key self symbol dt = Some score.
Proof.
  intros t model_key [N1 C1] [N2 C2] [N3 C3] [N4 C4] E.
  assert (Hsend : publish_send self symbol dt weight price ref overwrite now r =
                  (Ok 1%nat, r1)).
  { unfold publish in E. destruct overwrite; cbn [negb] in E; [done |].
    apply bind_inv in E as (last_dt & r0 & E0 & E).
    apply get_last_times_str_reads in E0 as ->.
    destruct last_dt as [last_dt |]; [| done].
    case_bool_decide; [| done].
    apply bind_inv in E as (u & r2 & _ & E). by injection E as ?. }
  clear E. unfold publish_send in Hsend.
  apply bind_inv in Hsend as (ARGV & r0 & E0 & E).
  apply forM_encode_inv in E0 as [-> Hall].
  apply Forall2_cons_inv_l in Hall as (a1 & l1 & _ & Hall & ->).
  apply Forall2_cons_inv_l in Hall as (a2 & l2 & _ & Hall & ->).
  apply Forall2_cons_inv_l in Hall as (a3 & l3 & _ & Hall & ->).
  apply Forall2_cons_inv_l in Hall as (a4 & l4 & _ & Hall & ->).
  apply Forall2_cons_inv_l in Hall as (a5 & l5 & Href & Hall & ->).
  apply Forall2_nil_inv_l in Hall as ->.
  apply encode_ref_text in Href.
  unfold lua_publish in E. cbn [lua_publish_loop] in E.
  apply bind_inv in E as (n & r2 & E & E'). injection E' as -> ->.
  assert (Hf : lua_fields (event_key self symbol dt) =
               [key_prefix self; strategy_name self; symbol; t]).
  { unfold event_key. by apply lua_fields_key. }
  destruct (lua_publish_key_written _ _ _ _ _ _ _ _ _ _ _ _ _ Hf E)
    as (ref_str & score & h & z & Hr & Hs & Hk & Hh & Hz & Hzk).
  cbn in Hr. injection Hr as <-.
  exists a5, score, h, z. by repeat split.
Qed.

Lemma forM_reads_ok {A B} (f : A -> M B) (l : list A) (r : redis) :
  (forall x, x ∈ l -> exists y, f x r = (Ok y, r)) ->
  exists ys, forM f l r = (Ok ys, r) /\ Forall2 (fun x y => f x r = (Ok y, r)) l ys.
Proof.
  induction l as [| x l IH]; intros Hl.
  - exists []. split; [done | constructor].
  - destruct (Hl x) as [y Hy]; [left |].
    destruct IH as (ys & Hys & Hall); [intros; apply Hl; by right |].
    exists (y :: ys). split; [| by constructor].
    cbn. rewrite (bind_ok _ _ _ _ _ Hy), (bind_ok _ _ _ _ _ Hys). done.
Qed.

Lemma HMGET_ok key fields r :
  holds_hash r key ->
  HMGET key fields r = (Ok ((fun f => hash_at r key !! f) <$> fields), r).
Proof.
  unfold holds_hash, hash_at, HMGET. intros [E | [h E]]; rewrite E; [| done].
  f_equal.
Qed.

Lemma float_or_none_ok (x : option string) (r : redis) :
  (forall s, x = Some s -> is_Some (py_float s)) ->
  exists q, float_or_none x r = (Ok q, r).
Proof.
  intros Hx. destruct x as [s |]; [| by exists None].
  destruct (Hx s eq_refl) as [q Hq]. exists (Some q). unfold float_or_none.
  by rewrite (bind_ok _ _ _ _ _ (need_some _ _ _ _ Hq)).
Qed.

Lemma hist_row_of_ok (self : client) (symbol key : string) (r : redis) :
  readable_record r key ->
  exists row,
    hist_row_of self symbol
      (key, (fun f => hash_at r key !! f) <$> ["weight"; "price"; "ref"]) r = (Ok row, r)
    /\ h_symbol row = symbol
    /\ h_ref row = loads_or_raw (hash_at r key !! "ref")
    /\ exists lp, last (py_split key) = Some lp /\ to_datetime lp = Some (h_dt row).
Proof.
  intros (Hh & (lp & Hlp & [t Ht]) & Hw & Hp).
  destruct (float_or_none_ok (hash_at r key !! "weight") r) as [w Ew]; [auto |].
  destruct (float_or_none_ok (hash_at r key !! "price") r) as [p Ep]; [auto |].
  eexists. split; [| split; [| split]].
  - unfold hist_row_of. cbn [fmap list_fmap].
    rewrite (bind_ok _ _ _ _ _ (need_some _ _ _ _ Hlp)).
    rewrite (bind_ok _ _ _ _ _ (need_some _ _ _ _ Ht)).
    rewrite (bind_ok _ _ _ _ _ Ew), (bind_ok _ _ _ _ _ Ep). reflexivity.
  - done.
  - done.
  - exists lp. by split.
Qed.

Lemma ZRANGEBYSCORE_elem (key : string) (lo hi : Q) (r : redis) (z : gmap string Q) :
  db r !! key = Some (RZSet z) ->
  exists key_list,
    ZRANGEBYSCORE key lo hi r = (Ok key_list, r)
    /\ forall m, m ∈ key_list <->
                 exists score, z !! m = Some score /\ (lo <= score)%Q /\ (score <= hi)%Q.
Proof.
  intros E. unfold ZRANGEBYSCORE. rewrite E. eexists. split; [reflexivity |].
  intros m. rewrite list_elem_of_fmap. split.
  - intros ([m' sc] & -> & Hin). rewrite merge_sort_Permutation in Hin.
    apply list_elem_of_In, filter_In in Hin as [Hin Hb].
    apply list_elem_of_In, elem_of_map_to_list in Hin.
    apply andb_true_iff in Hb as [H1 H2]. apply Qle_bool_iff in H1, H2.
    exists sc. by repeat split.
  - intros (sc & Hz & H1 & H2). exists (m, sc). split; [done |].
    rewrite merge_sort_Permutation. apply list_elem_of_In, filter_In. split.
    + by apply list_elem_of_In, elem_of_map_to_list.
    + apply andb_true_iff. split; by apply Qle_bool_iff.
Qed.

Lemma forM_HMGET (fields : list string) (keys : list string) (r : redis) :
  (forall k, k ∈ keys -> holds_hash r k) ->
  forM (fun key => HMGET key fields) keys r =
    (Ok ((fun k => (fun f => hash_at r k !! f) <$> fields) <$> keys), r).
Proof.
  induction keys as [| k keys IH]; intros Hk; [done |].
  cbn [forM]. rewrite (bind_ok _ _ _ _ _ (HMGET_ok k fields r (Hk k ltac:(left)))).
  rewrite (bind_ok _ _ _ _ _ (IH (fun k' Hk' => Hk k' ltac:(by right)))). done.
Qed.

Lemma zip_fmap_self {A B} (f : A -> B) (l : list A) :
  zip l (f <$> l) = (fun x => (x, f x)) <$> l.
Proof. induction l as [| x l IH]; [done |]. cbn. by rewrite IH. Qed.

(** Reading the history over a range that holds the time of a recorded key
    answers a row for that key, with the reference decoded. *)
Lemma get_hist_weights_record (self : client) (symbol sdt edt : string)
    (r : redis) (s e : Z) (lo hi score : Q) (key : string)
    (z : gmap string Q) :
  let model_key := key_prefix self +:+ ":" +:+ strategy_name self +:+ ":" +:+ symbol in
  to_datetime sdt = Some s -> to_datetime edt = Some e ->
  redis_score (strftime "%Y%m%d%H%M%S" s) = Some lo ->
  redis_score (strftime "%Y%m%d%H%M%S" e) = Some hi ->
  db r !! model_key = Some (RZSet z) ->
  z !! key = Some score -> (lo <= score)%Q -> (score <= hi)%Q ->
  (forall k, k ∈ dom z -> readable_record r k) ->
  exists rows,
    get_hist_weights self symbol sdt edt r = (Ok rows, r)
    /\ exists row, row ∈ rows /\ h_symbol row = symbol
         /\ h_ref row = loads_or_raw (hash_at r key !! "ref")
         /\ exists lp, last (py_split key) = Some lp /\ to_datetime lp = Some (h_dt row).
Proof.
  intros model_key Hs He Hlo Hhi Hz Hzk Hl Hh Hread.
  destruct (ZRANGEBYSCORE_elem model_key lo hi r z Hz) as (key_list & Hrange & Hin).
  assert (Hkey : key ∈ key_list) by (apply Hin; eauto).
  assert (Hall : forall k, k ∈ key_list -> readable_record r k).
  { intros k (sc & Hk & _)%Hin. apply Hread, elem_of_dom. eauto. }
  destruct (forM_reads_ok (hist_row_of self symbol)
              ((fun k => (k, (fun f => hash_at r k !! f) <$> ["weight"; "price"; "ref"]))
                 <$> key_list) r) as (weights & Hw & Hrows).
  { intros kr (k & -> & Hk)%list_elem_of_fmap.
    destruct (hist_row_of_ok self symbol k r (Hall k Hk)) as (row & Hrow & _). eauto. }
  exists (sort_values Z.le h_dt weights). split.
  - unfold get_hist_weights. fold model_key.
    rewrite (bind_ok _ _ _ _ _ (need_some _ _ _ _ Hs)).
    rewrite (bind_ok _ _ _ _ _ (need_some _ _ _ _ He)).
    erewrite bind_ok; cycle 1.
    { unfold zrangebyscore.
      rewrite (bind_ok _ _ _ _ _ (need_some _ _ _ _ Hlo)).
      rewrite (bind_ok _ _ _ _ _ (need_some _ _ _ _ Hhi)). exact Hrange. }
    rewrite bool_decide_eq_false_2 by (destruct key_list; [by apply elem_of_nil in Hkey | done]).
    erewrite bind_ok; cycle 1.
    { apply forM_HMGET. intros k Hk. by destruct (Hall k Hk). }
    rewrite zip_fmap_self. by rewrite (bind_ok _ _ _ _ _ Hw).
  - apply list_elem_of_lookup in Hkey as [i Hi].
    assert (Hi' : ((fun k => (k, (fun f => hash_at r k !! f) <$> ["weight"; "price"; "ref"]))
                     <$> key_list) !! i =
                  Some (key, (fun f => hash_at r key !! f) <$> ["weight"; "price"; "ref"]))
      by (by rewrite list_lookup_fmap, Hi).
    destruct (Forall2_lookup_l _ _ _ _ _ Hrows Hi') as (row & Hrow & Hrun).
    destruct (hist_row_of_ok self symbol key r (Hall key ltac:(apply list_elem_of_lookup; eauto)))
      as (row' & Hrow' & Hsym & Href & Hdt).
    rewrite Hrun in Hrow'. injection Hrow' as <-.
    exists row. split; [| by repeat split].
    unfold sort_values. rewrite merge_sort_Permutation.
    apply list_elem_of_lookup. eauto.
Qed.

(** C10, as the code has it. An event that [publish] counts, with a
    reference that is None, a dict or a text, is read back by
    [get_hist_weights] over any range that holds its time, in a store where
    the records of the index of the symbol are readable: the row of the
    event carries the reference decoded from the text that was sent. So a
    dict that JSON writes and reads back unchanged comes back equal; a
    reference that counts as false (None, an empty dict, an empty text) is
    sent as the text of two braces and comes back as what JSON reads from
    it, the empty dict; a text that is not empty and that JSON does not
    decode comes back unchanged. *)
Theorem reference_round_trip (self : client) (symbol : string) (dt : Z)
    (weight price : pynum) (ref : pyobj) (overwrite : bool) (now : Z)
    (r r1 : redis) (sdt edt : string) (s e : Z) (lo hi : Q) :
  let t := strftime "%Y%m%d%H%M%S" dt in
  let model_key := key_prefix self +:+ ":" +:+ strategy_name self +:+ ":" +:+ symbol in
  key_part (key_prefix self) -> key_part (strategy_name self) -> key_part symbol ->
  key_part t ->
  publish self symbol dt weight price ref overwrite now r = (Ok 1%nat, r1) ->
  to_datetime sdt = Some s -> to_datetime edt = Some e ->
  redis_score (strftime "%Y%m%d%H%M%S" s) = Some lo ->
  redis_score (strftime "%Y%m%d%H%M%S" e) = Some hi ->
  (forall score, lua_tonumber t = Some score -> (lo <= score)%Q /\ (score <= hi)%Q) ->
  (forall k, k ∈ dom (zset_at r1 model_key) -> readable_record r1 k) ->
  exists text rows row,
    ref_text ref = Some text
    /\ get_hist_weights self symbol sdt edt r1 = (Ok rows, r1)
    /\ row ∈ rows /\ h_symbol row = symbol
    /\ to_datetime t = Some (h_dt row)
    /\ h_ref row = loads_or_raw (Some text)
    /\ (forall d, ref = PDict d -> d <> [] ->
                  json_loads (json_dumps (PDict d)) = Some (PDict d) ->
                  h_ref row = PDict d)
    /\ (py_truthy ref = false -> json_loads "{}" = Some (PDict []) ->
        h_ref row = PDict [])
    /\ (forall s, ref = PStr s -> s <> EmptyString -> json_loads s = None ->
                  h_ref row = PStr s).
Proof.
  intros t model_key K1 K2 K3 K4 Hpub Hs He Hlo Hhi Hrange Hread.
  destruct (publish_accepted_record self symbol dt weight price ref overwrite now r r1
              K1 K2 K3 K4 Hpub) as (text & score & h & z & Htext & Hsc & Hk & Hh & Hz & Hzk).
  fold model_key in Hz. destruct (Hrange score Hsc) as [Hl Hu].
  assert (Hzat : zset_at r1 model_key = z) by (unfold zset_at; by rewrite Hz).
  rewrite Hzat in Hread.
  destruct (get_hist_weights_record self symbol sdt edt r1 s e lo hi score
              (event_key self symbol dt) z Hs He Hlo Hhi Hz Hzk Hl Hu Hread)
    as (rows & Hrows & row & Hin & Hsym & Href & lp & Hlp & Hdt).
  assert (Hat : hash_at r1 (event_key self symbol dt) !! "ref" = Some text)
    by (unfold hash_at; by rewrite Hk).
  rewrite Hat in Href.
  assert (Hlast : last (py_split (event_key self symbol dt)) = Some t).
  { destruct K1 as [_ C1], K2 as [_ C2], K3 as [_ C3], K4 as [_ C4].
    unfold event_key. by rewrite !py_split_app, py_split_colon_free. }
  rewrite Hlast in Hlp. injection Hlp as <-.
  exists text, rows, row. repeat split; try done.
  - intros d -> Hd Hjson. rewrite Href. unfold ref_text in Htext.
    destruct d; [done |]. cbn in Htext. injection Htext as <-.
    unfold loads_or_raw. by rewrite Hjson.
  - intros Hfalse Hjson. rewrite Href. unfold ref_text in Htext.
    rewrite Hfalse in Htext. injection Htext as <-.
    unfold loads_or_raw. by rewrite Hjson.
  - intros s' -> Hne Hjson. rewrite Href. unfold ref_text in Htext.
    destruct s'; [done |]. cbn in Htext. injection Htext as <-.
    unfold loads_or_raw. by rewrite Hjson.
Qed.

(** *** Carrying the last weight forward *)

(** A cell of a filled line holds the value of the latest line at or above
    it that has a value in that column, or what was above the table. *)
Lemma ffill_lines_spec (ls : list (Z * list (option Q))) :
  forall (above : list (option Q)) (i : nat) (t : Z) (cs' : list (option Q))
         (j : nat) (v : option Q),
  ffill_lines above ls !! i = Some (t, cs') -> cs' !! j = Some v ->
  (exists cs, ls !! i = Some (t, cs)) /\
  ((exists i' t' cs0 w, (i' <= i)%nat /\ ls !! i' = Some (t', cs0) /\
       cs0 !! j = Some (Some w) /\ v = Some w /\
       forall i'' t'' cs'', (i' < i'' <= i)%nat -> ls !! i'' = Some (t'', cs'') ->
                            cs'' !! j = Some None)
   \/ (above !! j = Some v /\
       forall i'' t'' cs'', (i'' <= i)%nat -> ls !! i'' = Some (t'', cs'') ->
                            cs'' !! j = Some None)).
Proof.
  induction ls as [| [t0 cs0] ls IH]; intros above i t cs' j v Hi Hj; [done |].
  cbn [ffill_lines] in Hi. destruct i as [| i].
  - cbn in Hi. injection Hi as <- <-.
    apply lookup_zip_with_Some in Hj as (a & c & -> & Ha & Hc).
    split; [by exists cs0 |]. destruct c as [w |]; cbn.
    + left. exists 0%nat, t0, cs0, w. repeat split; try done.
      intros i'' t'' cs'' Hlt. lia.
    + right. split; [done |]. intros i'' t'' cs'' Hle Hl.
      assert (i'' = 0)%nat as -> by lia. cbn in Hl. by injection Hl as <- <-.
  - cbn in Hi. destruct (IH _ _ _ _ _ _ Hi Hj) as [[cs Hcs] Hcases].
    split; [by exists cs |].
    destruct Hcases as [(i' & t' & cs1 & w & Hle & Hl & Hc & -> & Hnone) | [Habove Hnone]].
    + left. exists (S i'), t', cs1, w. repeat split; try done; [lia |].
      intros i'' t'' cs'' Hlt Hl''. destruct i'' as [| i'']; [lia |].
      cbn in Hl''. eapply Hnone; [| exact Hl'']. lia.
    + apply lookup_zip_with_Some in Habove as (a & c & Hv & Ha & Hc).
      destruct c as [w |]; cbn in Hv; subst v.
      * left. exists 0%nat, t0, cs0, w. repeat split; try done; [lia |].
        intros i'' t'' cs'' Hlt Hl''. destruct i'' as [| i'']; [lia |].
        cbn in Hl''. eapply Hnone; [| exact Hl'']. lia.
      * right. split; [done |]. intros i'' t'' cs'' Hle Hl''.
        destruct i'' as [| i''].
        -- cbn in Hl''. by injection Hl'' as <- <-.
        -- cbn in Hl''. eapply Hnone; [| exact Hl'']. lia.
Qed.

Lemma ffill_lines_lookup (ls : list (Z * list (option Q))) (n : nat) :
  forall (above : list (option Q)) (i : nat) (t : Z) (cs : list (option Q)),
  length above = n -> (forall l, l ∈ ls -> length l.2 = n) ->
  ls !! i = Some (t, cs) ->
  exists cs', ffill_lines above ls !! i = Some (t, cs') /\ length cs' = n.
Proof.
  induction ls as [| [t0 cs0] ls IH]; intros above i t cs Ha Hl Hi; [done |].
  assert (Hlen : length (zip_with fill_from above cs0) = n).
  { rewrite length_zip_with, Ha. specialize (Hl (t0, cs0) ltac:(left)). cbn in Hl. lia. }
  destruct i as [| i]; cbn in Hi |- *.
  - injection Hi as <- <-. eauto.
  - eapply IH; [done | | done]. intros l Hin. apply Hl. by right.
Qed.

Lemma StronglySorted_lookup_lt {A} (R : relation A) (l : list A) (i j : nat) (a b : A) :
  StronglySorted R l -> (i < j)%nat -> l !! i = Some a -> l !! j = Some b -> R a b.
Proof.
  intros Hs. revert i j. induction Hs as [| x l Hs IH Hall]; intros i j Hlt Hi Hj; [done |].
  destruct j as [| j]; [lia |]. cbn in Hj. destruct i as [| i].
  - cbn in Hi. injection Hi as <-. rewrite Forall_forall in Hall.
    apply Hall. by eapply list_elem_of_lookup_2.
  - cbn in Hi. eapply IH; [| done..]. lia.
Qed.

(** In a list of times in ascending order without repetition the places
    are ordered as the times. *)
Lemma sorted_index_lt (l : list Z) (i j : nat) (a b : Z) :
  StronglySorted Z.le l -> NoDup l -> l !! i = Some a -> l !! j = Some b ->
  ((i < j)%nat <-> (a < b)%Z).
Proof.
  intros Hs Hnd Hi Hj. split.
  - intros Hlt. pose proof (StronglySorted_lookup_lt _ _ _ _ _ _ Hs Hlt Hi Hj).
    assert (a <> b) by (intros ->; pose proof (NoDup_lookup _ _ _ _ Hnd Hi Hj); lia).
    lia.
  - intros Hlt. destruct (decide (i < j)%nat) as [| Hge]; [done |].
    destruct (decide (i = j)) as [-> | Hne]; [rewrite Hi in Hj; injection Hj; lia |].
    assert (j < i)%nat as Hji by lia.
    pose proof (StronglySorted_lookup_lt _ _ _ _ _ _ Hs Hji Hj Hi). lia.
Qed.

Lemma sum_perm (l l' : list Q) : l ≡ₚ l' -> (foldr Qplus 0 l == foldr Qplus 0 l')%Q.
Proof.
  induction 1 as [| x l l' _ IH | x y l | l1 l2 l3 _ IH1 _ IH2]; cbn.
  - reflexivity.
  - by rewrite IH.
  - ring.
  - by rewrite IH1.
Qed.

Lemma mean_perm (l l' : list Q) : l ≡ₚ l' -> (mean l == mean l')%Q.
Proof.
  intros Hp. unfold mean. rewrite (sum_perm _ _ Hp).
  by rewrite (Permutation_length Hp).
Qed.

Lemma mean_singleton (w : Q) : (mean [w] == w)%Q.
Proof. unfold mean. cbn. field. Qed.

Lemma has_event_perm (df df' : list wrow) (t : Z) (s : string) :
  df ≡ₚ df' -> has_event df t s <-> has_event df' t s.
Proof. intros Hp. unfold has_event. by setoid_rewrite Hp. Qed.

Lemma cell_mean_perm (df df' : list wrow) (t : Z) (s : string) :
  df ≡ₚ df' -> (cell_mean df t s == cell_mean df' t s)%Q.
Proof. intros Hp. unfold cell_mean. apply mean_perm. by rewrite Hp. Qed.

Lemma pivot_cell_None (df : list wrow) (t : Z) (s : string) :
  pivot_cell df t s = None <-> ~ has_event df t s.
Proof.
  unfold pivot_cell, has_event.
  destruct (filter _ df) as [| y l] eqn:E; split; try done.
  - intros _ (y & Hy & Ht & Hs).
    assert (y ∈ filter (fun x => w_dt x = t /\ w_symbol x = s) df)
      by (by apply list_elem_of_filter).
    rewrite E in *. by apply elem_of_nil in H0.
  - intros Hno. exfalso. apply Hno.
    assert (Hy : y ∈ filter (fun x => w_dt x = t /\ w_symbol x = s) df)
      by (rewrite E; left).
    apply list_elem_of_filter in Hy as [[? ?] ?]. eauto.
Qed.

Lemma pivot_cell_Some (df : list wrow) (t : Z) (s : string) (w : Q) :
  pivot_cell df t s = Some w -> has_event df t s /\ w = cell_mean df t s.
Proof.
  unfold pivot_cell, cell_mean, has_event.
  destruct (filter _ df) as [| y l] eqn:E; [done |]. intros [= <-]. split; [| done].
  assert (Hy : y ∈ filter (fun x => w_dt x = t /\ w_symbol x = s) df)
    by (rewrite E; left).
  apply list_elem_of_filter in Hy as [[? ?] ?]. eauto.
Qed.

(** *** From the table back to rows *)

Lemma elem_of_melt (tb : table Q) (t : Z) (s : string) (w : Q) :
  (t, s, w) ∈ melt tb <->
  exists j l, columns tb !! j = Some s /\ l ∈ lines tb /\ l.1 = t /\ l.2 !! j = Some w.
Proof.
  unfold melt. rewrite list_elem_of_bind. split.
  - intros (y & Hx & Hy). apply elem_of_lookup_imap in Hy as (j & s' & -> & Hj).
    unfold id in Hx. apply list_elem_of_omap in Hx as (l & Hl & Hw).
    destruct (l.2 !! j) as [w' |] eqn:E; [| done]. cbn in Hw. injection Hw as <- <- <-.
    exists j, l. by repeat split.
  - intros (j & l & Hj & Hl & <- & Hw).
    exists (omap (fun l : Z * list Q => (fun w => (l.1, s, w)) <$> l.2 !! j) (lines tb)).
    split.
    + unfold id. apply list_elem_of_omap. exists l. split; [done |].
      rewrite Hw. reflexivity.
    + apply elem_of_lookup_imap. exists j, s. by split.
Qed.

Lemma elem_of_merge_update_time (df1 : list (Z * string * Q)) (df : list wrow)
    (x : wrow) :
  x ∈ merge_update_time df1 df -> (w_dt x, w_symbol x, w_weight x) ∈ df1.
Proof.
  unfold merge_update_time. intros ([[t s] w] & Hx & Hy)%list_elem_of_bind.
  destruct (filter _ df) as [| y ys].
  - apply list_elem_of_singleton in Hx as ->. done.
  - apply list_elem_of_fmap in Hx as (y' & -> & _). done.
Qed.

Lemma merge_update_time_elem (df1 : list (Z * string * Q)) (df : list wrow)
    (t : Z) (s : string) (w : Q) :
  (t, s, w) ∈ df1 ->
  exists x, x ∈ merge_update_time df1 df /\ w_dt x = t /\ w_symbol x = s /\ w_weight x = w.
Proof.
  intros Hin. unfold merge_update_time.
  destruct (filter (fun y => w_dt y = t /\ w_symbol y = s) df) as [| y ys] eqn:E.
  - exists (WRow t s w None). split; [| done].
    apply list_elem_of_bind. exists (t, s, w). split; [| done]. rewrite E. left.
  - exists (WRow t s w (w_update_time y)). split; [| done].
    apply list_elem_of_bind. exists (t, s, w). split; [| done]. rewrite E. left.
Qed.

Lemma ffill_col_length {A} (l : list (option A)) (above : option A) :
  length (ffill_col above l) = length l.
Proof. revert above. induction l as [| c l IH]; intros above; cbn; [done |]. by rewrite IH. Qed.

Lemma bfill_col_length {A} (l : list (option A)) : length (bfill_col l) = length l.
Proof. unfold bfill_col. by rewrite length_reverse, ffill_col_length, length_reverse. Qed.

Lemma elem_of_fill_update_time (df1 : list wrow) (x : wrow) :
  x ∈ fill_update_time df1 ->
  exists y, y ∈ df1 /\ w_dt x = w_dt y /\ w_symbol x = w_symbol y /\
            w_weight x = w_weight y.
Proof.
  unfold fill_update_time. intros ([s g] & Hx & Hg)%list_elem_of_bind.
  apply elem_of_zip_with in Hx as (u & y & -> & _ & Hy). cbn in Hy.
  unfold groupby in Hg. apply list_elem_of_fmap in Hg as (s' & [= -> ->] & _).
  apply list_elem_of_filter in Hy as [_ Hy]. exists y. by repeat split.
Qed.

Lemma fill_update_time_elem (df1 : list wrow) (y : wrow) :
  y ∈ df1 ->
  exists x, x ∈ fill_update_time df1 /\ w_dt x = w_dt y /\ w_symbol x = w_symbol y /\
            w_weight x = w_weight y.
Proof.
  intros Hy. unfold fill_update_time.
  set (g := filter (fun x => w_symbol x = w_symbol y) df1).
  assert (Hg : y ∈ g) by (by apply list_elem_of_filter).
  apply list_elem_of_lookup in Hg as [i Hi].
  destruct (lookup_lt_is_Some_2 (bfill_col (ffill_col None (w_update_time <$> g))) i)
    as [u Hu].
  { rewrite bfill_col_length, ffill_col_length, length_fmap.
    by eapply lookup_lt_Some. }
  exists (with_update_time u y). split; [| done].
  apply list_elem_of_bind. exists (w_symbol y, g). split.
  - cbn. apply elem_of_lookup_zip_with. exists i, u, y. by repeat split.
  - unfold groupby. apply list_elem_of_fmap. exists (w_symbol y). split; [done |].
    apply group_keys_elem. eauto.
Qed.

(** *** The dense frame *)

Lemma time_index_elem (df : list wrow) (t : Z) :
  t ∈ merge_sort Z.le (remove_dups (w_dt <$> df)) <-> exists y, y ∈ df /\ w_dt y = t.
Proof.
  rewrite merge_sort_Permutation, elem_of_remove_dups, list_elem_of_fmap.
  naive_solver.
Qed.

Lemma time_index_sorted (df : list wrow) :
  StronglySorted Z.le (merge_sort Z.le (remove_dups (w_dt <$> df))).
Proof. apply StronglySorted_merge_sort; apply _. Qed.

Lemma time_index_NoDup (df : list wrow) :
  NoDup (merge_sort Z.le (remove_dups (w_dt <$> df))).
Proof. rewrite merge_sort_Permutation. apply NoDup_remove_dups. Qed.

(** A row of the dense frame comes from a cell of the filled table. *)
Lemma dense_frame_cell (df : list wrow) (x : wrow) :
  let df' := sort_values dt_symbol_le (fun x => (w_dt x, w_symbol x)) df in
  let tb := pivot_table df' in
  x ∈ dense_frame df ->
  exists i j cs' v,
    columns tb !! j = Some (w_symbol x)
    /\ ffill_lines (replicate (length (columns tb)) None) (lines tb) !! i =
       Some (w_dt x, cs')
    /\ cs' !! j = Some v /\ w_weight x = default 0%Q v.
Proof.
  intros df' tb Hx. unfold dense_frame in Hx. fold df' in Hx. fold tb in Hx.
  apply elem_of_fill_update_time in Hx as (y & Hy & -> & -> & ->).
  unfold sort_values in Hy at 1. rewrite merge_sort_Permutation in Hy.
  apply elem_of_merge_update_time in Hy.
  apply elem_of_melt in Hy as (j & l & Hj & Hl & Ht & Hw).
  cbn [table_fillna ffill columns lines] in Hj, Hl.
  apply list_elem_of_fmap in Hl as ([t cs'] & -> & Hl). cbn in Ht, Hw. subst t.
  apply list_elem_of_lookup in Hl as [i Hi].
  unfold fillna in Hw. rewrite list_lookup_fmap in Hw.
  destruct (cs' !! j) as [v |] eqn:Ev; [| done]. cbn in Hw. injection Hw as Hw.
  exists i, j, cs', v. by repeat split.
Qed.

Lemma dense_frame_carried (df : list wrow) (x : wrow) :
  x ∈ dense_frame df -> carried df (w_symbol x) (w_dt x) (w_weight x).
Proof.
  intros Hx.
  set (df' := sort_values dt_symbol_le (fun x => (w_dt x, w_symbol x)) df).
  assert (Hperm : df' ≡ₚ df) by (unfold df', sort_values; apply merge_sort_Permutation).
  destruct (dense_frame_cell df x Hx) as (i & j & cs' & v & Hj & Hi & Hv & Hw).
  fold df' in Hj, Hi. cbn [pivot_table columns lines] in Hj, Hi.
  set (index := merge_sort Z.le (remove_dups (w_dt <$> df'))) in *.
  set (cols := merge_sort str_le (remove_dups (w_symbol <$> df'))) in *.
  assert (Hline : forall k t cs,
             ((fun t => (t, pivot_cell df' t <$> cols)) <$> index) !! k = Some (t, cs) ->
             index !! k = Some t /\ cs !! j = Some (pivot_cell df' t (w_symbol x))).
  { intros k t cs Hk. rewrite list_lookup_fmap in Hk.
    destruct (index !! k) as [t0 |] eqn:Ek; [| done]. cbn in Hk.
    injection Hk as <- <-. split; [done |].
    by rewrite list_lookup_fmap, Hj. }
  destruct (ffill_lines_spec _ _ _ _ _ _ _ Hi Hv) as [[cs Hcs] Hcases].
  apply Hline in Hcs as [Hidx _].
  assert (Hs := time_index_sorted df'). assert (Hnd := time_index_NoDup df').
  fold index in Hs, Hnd.
  assert (Hnone : forall i'' t'',
             index !! i'' = Some t'' ->
             (forall t0 cs0, ((fun t => (t, pivot_cell df' t <$> cols)) <$> index) !! i''
                             = Some (t0, cs0) -> cs0 !! j = Some None) ->
             ~ has_event df t'' (w_symbol x)).
  { intros i'' t'' Hi'' Hcell Hev.
    specialize (Hcell t'' (pivot_cell df' t'' <$> cols)).
    rewrite list_lookup_fmap, Hi'' in Hcell. specialize (Hcell eq_refl).
    rewrite list_lookup_fmap, Hj in Hcell. cbn in Hcell. injection Hcell as Hcell.
    apply pivot_cell_None in Hcell. apply Hcell. by apply (has_event_perm df' df). }
  assert (Hin : forall t'', has_event df t'' (w_symbol x) ->
                            exists i'', index !! i'' = Some t'').
  { intros t'' (y & Hy & Ht & _). apply list_elem_of_lookup, time_index_elem.
    exists y. split; [by rewrite Hperm | done]. }
  destruct Hcases as [(i' & t' & cs0 & w0 & Hle & Hl & Hc & -> & Hbetween) | [Habove Hall]].
  - left. apply Hline in Hl as [Hidx' Hcell]. rewrite Hc in Hcell.
    injection Hcell as Hcell. symmetry in Hcell.
    apply pivot_cell_Some in Hcell as [Hev ->].
    exists t'. split; [| split; [| split]].
    + destruct (decide (i' = i)) as [-> | Hne]; [rewrite Hidx in Hidx'; injection Hidx'; lia |].
      assert (i' < i)%nat as Hlt by lia.
      apply (sorted_index_lt index i' i t' (w_dt x) Hs Hnd Hidx' Hidx) in Hlt. lia.
    + by apply (has_event_perm df' df).
    + rewrite Hw. cbn. by apply cell_mean_perm.
    + intros t'' [Hlo Hhi] Hev''. destruct (Hin t'' Hev'') as [i'' Hi''].
      apply (Hnone i'' t'' Hi''); [| done]. intros t0 cs1 Hl''.
      eapply Hbetween; [| exact Hl'']. split.
      * by apply (sorted_index_lt index i' i'' t' t'' Hs Hnd Hidx' Hi'').
      * destruct (decide (i'' <= i)%nat) as [| Hgt]; [done |].
        assert (i < i'')%nat as Hlt by lia.
        apply (sorted_index_lt index i i'' (w_dt x) t'' Hs Hnd Hidx Hi'') in Hlt. lia.
  - right. apply lookup_replicate in Habove as [-> _]. split; [done |].
    intros t'' Hle Hev''. destruct (Hin t'' Hev'') as [i'' Hi''].
    apply (Hnone i'' t'' Hi''); [| done]. intros t0 cs1 Hl''.
    eapply Hall; [| exact Hl''].
    destruct (decide (i'' <= i)%nat) as [| Hgt]; [done |].
    assert (i < i'')%nat as Hlt by lia.
    apply (sorted_index_lt index i i'' (w_dt x) t'' Hs Hnd Hidx Hi'') in Hlt. lia.
Qed.

(** The dense frame has a row for every time and every symbol of the
    events. *)
Lemma dense_frame_complete (df : list wrow) (y z : wrow) :
  y ∈ df -> z ∈ df ->
  exists x, x ∈ dense_frame df /\ w_dt x = w_dt y /\ w_symbol x = w_symbol z.
Proof.
  intros Hy Hz.
  set (df' := sort_values dt_symbol_le (fun x => (w_dt x, w_symbol x)) df).
  assert (Hperm : df' ≡ₚ df) by (unfold df', sort_values; apply merge_sort_Permutation).
  set (index := merge_sort Z.le (remove_dups (w_dt <$> df'))).
  set (cols := merge_sort str_le (remove_dups (w_symbol <$> df'))).
  assert (Ht : w_dt y ∈ index).
  { apply time_index_elem. exists y. by rewrite Hperm. }
  assert (Hs : w_symbol z ∈ cols).
  { apply group_keys_elem. exists z. by rewrite Hperm. }
  apply list_elem_of_lookup in Ht as [i Hi]. apply list_elem_of_lookup in Hs as [j Hj].
  destruct (ffill_lines_lookup ((fun t => (t, pivot_cell df' t <$> cols)) <$> index)
              (length cols) (replicate (length cols) None) i (w_dt y)
              (pivot_cell df' (w_dt y) <$> cols)) as (cs' & Hcs' & Hlen).
  - apply length_replicate.
  - intros l (t & -> & _)%list_elem_of_fmap. cbn. apply length_fmap.
  - by rewrite list_lookup_fmap, Hi.
  - destruct (lookup_lt_is_Some_2 cs' j) as [v Hv].
    { rewrite Hlen. by eapply lookup_lt_Some. }
    destruct (merge_update_time_elem
                (melt (table_fillna 0 (ffill (pivot_table df')))) df'
                (w_dt y) (w_symbol z) (default 0%Q v)) as (x1 & Hx1 & E1 & E2 & E3).
    { apply elem_of_melt. exists j, (w_dt y, fillna 0 cs'). repeat split; try done.
      - cbn [table_fillna ffill lines columns pivot_table].
        apply list_elem_of_fmap. exists (w_dt y, cs'). split; [done |].
        by eapply list_elem_of_lookup_2.
      - cbn. unfold fillna. by rewrite list_lookup_fmap, Hv. }
    destruct (fill_update_time_elem
                (sort_values symbol_dt_le (fun x => (w_symbol x, w_dt x))
                   (merge_update_time
                      (melt (table_fillna 0 (ffill (pivot_table df')))) df')) x1)
      as (x & Hx & F1 & F2 & F3).
    { unfold sort_values at 1. by rewrite merge_sort_Permutation. }
    exists x. split; [exact Hx |]. split; congruence.
Qed.

(** *** The example of the specification *)

Lemma sum_constant (l : list Q) (w : Q) :
  Forall (fun q => (q == w)%Q) l ->
  (foldr Qplus 0 l == inject_Z (Z.of_nat (length l)) * w)%Q.
Proof.
  induction 1 as [| q l Hq _ IH]; [cbn; ring |].
  cbn [foldr length]. rewrite IH, Hq, Nat2Z.inj_succ. unfold Z.succ.
  rewrite inject_Z_plus. ring.
Qed.

Lemma mean_constant (l : list Q) (w : Q) :
  l <> [] -> Forall (fun q => (q == w)%Q) l -> (mean l == w)%Q.
Proof.
  intros Hl Hall. unfold mean. rewrite (sum_constant l w Hall).
  field. destruct l as [| q l]; [done |]. cbn [length].
  rewrite Nat2Z.inj_succ. unfold Z.succ. intros E.
  assert (Hpos : (0 < inject_Z (Z.of_nat (length l) + 1))%Q).
  { rewrite <- (Zlt_Qlt 0). lia. }
  rewrite E in Hpos. by apply Qlt_irrefl in Hpos.
Qed.

(** When all the events of a symbol at a time carry the weight [w], the
    weight recorded there is [w]. *)
Lemma cell_mean_weight (df : list wrow) (t : Z) (s : string) (w : Q) :
  has_event df t s ->
  (forall y, y ∈ df -> w_dt y = t -> w_symbol y = s -> w_weight y = w) ->
  (cell_mean df t s == w)%Q.
Proof.
  intros (y & Hy & Ht & Hs) Hall. unfold cell_mean. apply mean_constant.
  - intros E%fmap_nil_inv.
    assert (Hin : y ∈ filter (fun x => w_dt x = t /\ w_symbol x = s) df)
      by (by apply list_elem_of_filter).
    rewrite E in Hin. by apply elem_of_nil in Hin.
  - rewrite Forall_fmap, Forall_forall. intros z [[? ?] Hz]%list_elem_of_filter. cbn.
    by rewrite (Hall z).
Qed.

Lemma dense_frame_example (a b : string) (t1 t2 t3 : Z) (u1 u2 u3 : option string)
    (x : wrow) :
  a <> b -> (t1 < t2)%Z -> (t2 < t3)%Z ->
  x ∈ dense_frame [WRow t1 a (1 # 2) u1; WRow t2 b (3 # 10) u2; WRow t3 a 0 u3] ->
  ((t2 <= w_dt x < t3)%Z ->
   (w_symbol x = a -> (w_weight x == 1 # 2)%Q) /\
   (w_symbol x = b -> (w_weight x == 3 # 10)%Q))
  /\ ((t3 <= w_dt x)%Z ->
      (w_symbol x = a -> (w_weight x == 0)%Q) /\
      (w_symbol x = b -> (w_weight x == 3 # 10)%Q)).
Proof.
  intros Hab H12 H23 Hx.
  set (df := [WRow t1 a (1 # 2) u1; WRow t2 b (3 # 10) u2; WRow t3 a 0 u3]) in *.
  assert (Hev : forall t s, has_event df t s <->
                            (t = t1 /\ s = a) \/ (t = t2 /\ s = b) \/ (t = t3 /\ s = a)).
  { intros t s. unfold has_event, df. split.
    - intros (y & Hy & <- & <-).
      repeat (apply elem_of_cons in Hy as [-> | Hy]; [cbn; tauto |]).
      by apply elem_of_nil in Hy.
    - intros [[-> ->] | [[-> ->] | [-> ->]]].
      + exists (WRow t1 a (1 # 2) u1). split; [left | done].
      + exists (WRow t2 b (3 # 10) u2). split; [right; left | done].
      + exists (WRow t3 a 0 u3). split; [right; right; left | done]. }
  assert (Hw : forall t s w,
             (t = t1 /\ s = a /\ w = (1 # 2)%Q) \/ (t = t2 /\ s = b /\ w = (3 # 10)%Q) \/
             (t = t3 /\ s = a /\ w = 0%Q) ->
             (cell_mean df t s == w)%Q).
  { intros t s w Hcase. apply cell_mean_weight.
    - apply Hev. tauto.
    - intros y Hy Ht Hs. unfold df in Hy.
      repeat (apply elem_of_cons in Hy as [-> | Hy]; [cbn in *; destruct Hcase as [? | [? | ?]]; naive_solver lia |]).
      by apply elem_of_nil in Hy. }
  apply dense_frame_carried in Hx. fold df in Hx.
  destruct Hx as [(t' & Hle & He & Hval & Hnone) | [H0 Hnone]].
  - apply Hev in He. split.
    + intros [Hlo Hhi]. split; intros Hs; rewrite Hs in *.
      * destruct He as [[-> _] | [[_ ?] | [-> _]]]; [| done | lia].
        rewrite Hval. apply Hw. tauto.
      * destruct He as [[_ ?] | [[-> _] | [_ ?]]]; [congruence | | congruence].
        rewrite Hval. apply Hw. tauto.
    + intros Hlo. split; intros Hs; rewrite Hs in *.
      * destruct He as [[-> _] | [[_ ?] | [-> _]]]; [| done |].
        -- exfalso. apply (Hnone t3); [lia |]. apply Hev. tauto.
        -- rewrite Hval. apply Hw. tauto.
      * destruct He as [[_ ?] | [[-> _] | [_ ?]]]; [congruence | | congruence].
        rewrite Hval. apply Hw. tauto.
  - split.
    + intros [Hlo Hhi]. split; intros Hs; rewrite Hs in *; exfalso.
      * apply (Hnone t1); [lia |]. apply Hev. tauto.
      * apply (Hnone t2); [lia |]. apply Hev. tauto.
    + intros Hlo. split; intros Hs; rewrite Hs in *; exfalso.
      * apply (Hnone t1); [lia |]. apply Hev. tauto.
      * apply (Hnone t2); [lia |]. apply Hev. tauto.
Qed.

(** *** The records that [get_all_weights] selects *)

Lemma HGETALL_flat_hash key r :
  holds_hash r key ->
  HGETALL_flat key r = (Ok (flat_pairs (map_to_list (hash_at r key))), r).
Proof.
  unfold HGETALL_flat, holds_hash, hash_at. intros [E | [h E]].
  - by rewrite (bind_ok _ _ _ _ _ (HGETALL_none _ _ E)), E.
  - by rewrite (bind_ok _ _ _ _ _ (HGETALL_hash _ _ _ E)), E.
Qed.

(** The loop of the script: the keys whose last part has 14 characters and
    is a number are read, the others are passed over. *)
Lemma lua_all_weights_loop (keys : list string) (r : redis) :
  (forall k, k ∈ keys -> is_Some (lua_last_part k)) ->
  (forall k, k ∈ keys -> numeric_14 k = true -> holds_hash r k) ->
  forall (acc : M (list (list string))) (res0 : list (list string)),
  acc r = (Ok res0, r) ->
  foldl (fun (acc : M (list (list string))) key =>
           results <- acc ;;
           last_part <- need (lua_last_part key) "attempt to get length of a nil value" ;;
           if bool_decide (String.length last_part = 14)%nat &&
              bool_decide (is_Some (lua_tonumber last_part))
           then h <- HGETALL_flat key ;; ret (results ++ [h])%list
           else ret results) acc keys r =
  (Ok (res0 ++ ((fun k => flat_pairs (map_to_list (hash_at r k)))
                  <$> List.filter numeric_14 keys))%list, r).
Proof.
  induction keys as [| k keys IH]; intros Hlast Hhash acc res0 Hacc.
  - cbn. by rewrite app_nil_r.
  - cbn [foldl]. destruct (Hlast k ltac:(left)) as [lp Hlp].
    assert (Hn : numeric_14 k = bool_decide (String.length lp = 14)%nat &&
                                bool_decide (is_Some (lua_tonumber lp)))
      by (unfold numeric_14; by rewrite Hlp).
    set (step := (results <- acc ;;
                  last_part <- need (lua_last_part k) "attempt to get length of a nil value" ;;
                  if bool_decide (String.length last_part = 14)%nat &&
                     bool_decide (is_Some (lua_tonumber last_part))
                  then h <- HGETALL_flat k ;; ret (results ++ [h])%list
                  else ret results)).
    assert (Hstep : step r =
                    (Ok (res0 ++ (if numeric_14 k
                                  then [flat_pairs (map_to_list (hash_at r k))]
                                  else []))%list, r)).
    { unfold step. rewrite (bind_ok _ _ _ _ _ Hacc).
      rewrite (bind_ok _ _ _ _ _ (need_some _ _ _ _ Hlp)). rewrite <- Hn.
      destruct (numeric_14 k) eqn:E.
      - by rewrite (bind_ok _ _ _ _ _ (HGETALL_flat_hash k r (Hhash k ltac:(left) E))).
      - unfold ret. by rewrite app_nil_r. }
    rewrite (IH (fun k' Hk' => Hlast k' ltac:(by right))
                (fun k' Hk' => Hhash k' ltac:(by right)) step _ Hstep).
    cbn [List.filter]. destruct (numeric_14 k); [| by rewrite app_nil_r].
    cbn [fmap list_fmap]. by rewrite <- app_assoc.
Qed.

Lemma list_filter_ext_in {A} (f g : A -> bool) (l : list A) :
  (forall x, x ∈ l -> f x = g x) -> List.filter f l = List.filter g l.
Proof.
  induction l as [| x l IH]; intros Hfg; [done |]. cbn.
  rewrite (Hfg x ltac:(left)), IH; [done |]. intros y Hy. apply Hfg. by right.
Qed.

Lemma lua_all_weights_selects (pattern : string) (r : redis) :
  let keys := List.filter (glob_match pattern) (elements (dom (db r))) in
  (forall k, k ∈ keys -> is_Some (lua_last_part k)) ->
  (forall k lp, k ∈ keys -> lua_last_part k = Some lp -> String.length lp = 14%nat ->
                (is_Some (lua_tonumber lp) <-> all_digits lp = true)) ->
  (forall k, k ∈ keys -> has_time_suffix k = true -> holds_hash r k) ->
  lua_all_weights pattern r =
    (Ok ((fun k => flat_pairs (map_to_list (hash_at r k)))
           <$> List.filter has_time_suffix keys), r).
Proof.
  intros keys Hlast Hnum Hhash.
  assert (Hsame : forall k, k ∈ keys -> numeric_14 k = has_time_suffix k).
  { intros k Hk. unfold numeric_14, has_time_suffix.
    destruct (lua_last_part k) as [lp |] eqn:E; [| done].
    case_bool_decide as Hlen; [| done]. cbn [andb].
    specialize (Hnum k lp Hk E Hlen).
    destruct (all_digits lp).
    - apply bool_decide_eq_true_2. by apply Hnum.
    - apply bool_decide_eq_false_2. intros Hs. by apply Hnum in Hs. }
  unfold lua_all_weights. rewrite (bind_ok _ _ _ _ _ (KEYS_eq pattern r)). fold keys.
  rewrite (lua_all_weights_loop keys r Hlast) with (res0 := []).
  - cbn [app]. by rewrite (list_filter_ext_in _ _ _ Hsame).
  - intros k Hk Hn. apply Hhash; [done |]. by rewrite <- Hsame.
  - done.
Qed.

Lemma pair_up_flat (l : list (string * string)) : pair_up (flat_pairs l) = l.
Proof.
  unfold flat_pairs. induction l as [| [f v] l IH]; [done |].
  cbn [mbind list_bind app fst snd pair_up]. by rewrite IH.
Qed.

Lemma py_dict_snoc (l : list (string * string)) (k v : string) :
  py_dict (l ++ [(k, v)]) = <[k := v]> (py_dict l).
Proof. unfold py_dict. by rewrite foldl_app. Qed.

Lemma py_dict_lookup (l : list (string * string)) (k v : string) :
  NoDup l.*1 -> py_dict l !! k = Some v <-> (k, v) ∈ l.
Proof.
  induction l as [| [k' v'] l IH] using rev_ind; intros Hnd.
  - unfold py_dict. cbn. rewrite lookup_empty. split; [done |]. by intros ?%elem_of_nil.
  - rewrite fmap_app in Hnd. apply NoDup_app in Hnd as (Hnd & Hfresh & _).
    rewrite py_dict_snoc, elem_of_app, list_elem_of_singleton.
    destruct (decide (k' = k)) as [-> | Hne].
    + rewrite lookup_insert_eq. split.
      * intros [= ->]. by right.
      * intros [Hin | [= ->]]; [| done]. exfalso.
        apply (Hfresh k); [| left].
        apply list_elem_of_fmap. by exists (k, v).
    + rewrite lookup_insert_ne by done. rewrite IH by done. split; [by left |].
      intros [? | [= <- _]]; done.
Qed.

(** The dict that Python builds from what the script read of a hash is the
    hash. *)
Lemma py_dict_hash (h : gmap string string) :
  py_dict (pair_up (flat_pairs (map_to_list h))) = h.
Proof.
  rewrite pair_up_flat. apply map_eq. intros k. apply option_eq. intros v.
  rewrite py_dict_lookup by apply NoDup_fst_map_to_list.
  apply elem_of_map_to_list.
Qed.

(** *** Keys that the pattern of [get_all_weights] does not match *)

Lemma colons_list (s : string) : colons s = lcolons (String.list_ascii_of_string s).
Proof.
  unfold lcolons. induction s as [| c s IH]; [done |]. cbn [colons String.list_ascii_of_string].
  destruct (Ascii.eqb_spec c ":"%char) as [-> | Hne].
  - rewrite filter_cons_True by done. cbn. by rewrite IH.
  - rewrite filter_cons_False by done. by rewrite IH.
Qed.

Lemma colons_app (a b : string) : colons (a +:+ b) = (colons a + colons b)%nat.
Proof.
  rewrite !colons_list, list_ascii_app. unfold lcolons.
  by rewrite filter_app, length_app.
Qed.

Lemma glob_star_inv (go : list ascii -> bool) (s : list ascii) :
  glob_star go s = true -> exists s1 s2, s = (s1 ++ s2)%list /\ go s2 = true.
Proof.
  induction s as [| c s IH]; cbn.
  - rewrite orb_false_r. intros E. by exists [], [].
  - intros [E | E]%orb_true_iff.
    + by exists [], (c :: s).
    + destruct (IH E) as (s1 & s2 & -> & Hgo). by exists (c :: s1), s2.
Qed.

Lemma glob_go_plain_inv (lit : string) (p s : list ascii) (fuel : nat) :
  glob_plain lit = true ->
  glob_go fuel (String.list_ascii_of_string lit ++ p) s = true ->
  exists s' fuel', s = (String.list_ascii_of_string lit ++ s')%list /\
                   glob_go fuel' p s' = true.
Proof.
  revert s fuel. induction lit as [| c lit IH]; intros s fuel Hp E.
  - by exists s, fuel.
  - cbn [glob_plain] in Hp. apply andb_true_iff in Hp as [Hc Hp].
    apply negb_true_iff, glob_meta_false in Hc as (E1 & E2 & E3 & E4).
    destruct fuel as [| fuel]; [done |].
    cbn [String.list_ascii_of_string app glob_go] in E.
    rewrite E1 in E. destruct s as [| c' s]; [done |].
    rewrite E2, E3, E4 in E. apply andb_true_iff in E as [Ec E].
    apply Ascii.eqb_eq in Ec as <-.
    destruct (IH s fuel Hp E) as (s' & fuel' & -> & Hgo).
    by exists s', fuel'.
Qed.

(** A key that a pattern [base:*:*] matches has two colons more than a
    plain [base]. *)
Lemma glob_two_more_colons (base k : string) :
  glob_plain base = true ->
  glob_match (base +:+ ":*:*") k = true -> (colons base + 2 <= colons k)%nat.
Proof.
  intros Hp E. unfold glob_match in E. rewrite list_ascii_app in E.
  destruct (glob_go_plain_inv base _ _ _ Hp E) as (s' & fuel' & Hk & Hgo).
  cbn [String.list_ascii_of_string] in Hgo.
  assert (Hc : (2 <= lcolons s')%nat).
  { destruct fuel' as [| f1]; [done |]. cbn [glob_go] in Hgo.
    change (Ascii.eqb ":" "*") with false in Hgo. cbn iota in Hgo.
    destruct s' as [| c1 s1]; [done |].
    change (Ascii.eqb ":" "?") with false in Hgo.
    change (Ascii.eqb ":" "[") with false in Hgo.
    change (Ascii.eqb ":" "\") with false in Hgo. cbn iota in Hgo.
    apply andb_true_iff in Hgo as [Ec Hgo]. apply Ascii.eqb_eq in Ec as <-.
    destruct f1 as [| f2]; [done |]. cbn [glob_go] in Hgo.
    change (Ascii.eqb "*" "*") with true in Hgo. cbn iota in Hgo.
    apply glob_star_inv in Hgo as (s2 & s3 & -> & Hgo).
    destruct f2 as [| f3]; [done |]. cbn [glob_go] in Hgo.
    change (Ascii.eqb ":" "*") with false in Hgo. cbn iota in Hgo.
    destruct s3 as [| c3 s4]; [done |].
    change (Ascii.eqb ":" "?") with false in Hgo.
    change (Ascii.eqb ":" "[") with false in Hgo.
    change (Ascii.eqb ":" "\") with false in Hgo. cbn iota in Hgo.
    apply andb_true_iff in Hgo as [Ec _]. apply Ascii.eqb_eq in Ec as <-.
    unfold lcolons. rewrite filter_cons_True by done. cbn [length].
    rewrite filter_app, length_app, filter_cons_True by done. cbn [length]. lia. }
  rewrite (colons_list k), Hk, (colons_list base). unfold lcolons in *.
  rewrite filter_app, length_app. lia.
Qed.

Lemma colons_colon_free (s : string) : colon_free s = true -> colons s = 0%nat.
Proof.
  induction s as [| c s IH]; [done |]. cbn.
  intros [Hc Hs]%andb_true_iff. apply negb_true_iff in Hc. rewrite Hc. by apply IH.
Qed.

Lemma py_split_nonempty (s : string) : py_split s <> [].
Proof.
  destruct s as [| c s]; [done |]. cbn.
  destruct (Ascii.eqb c ":"%char); [done |]. by destruct (py_split s).
Qed.

Lemma last_cons_nonempty {A} (x : A) (l : list A) : l <> [] -> last (x :: l) = last l.
Proof. by destruct l. Qed.

Lemma last_py_split_app (a b : string) :
  last (py_split (a +:+ ":" +:+ b)) = last (py_split b).
Proof.
  induction a as [| c a IH].
  - rewrite append_nil. change (":" +:+ b) with (String ":"%char b).
    cbn [py_split]. change (Ascii.eqb ":" ":") with true. cbn iota.
    apply last_cons_nonempty, py_split_nonempty.
  - rewrite append_cons. cbn [py_split]. rewrite <- IH.
    pose proof (py_split_nonempty (a +:+ ":" +:+ b)) as Hne.
    destruct (Ascii.eqb c ":"%char).
    + by apply last_cons_nonempty.
    + destruct (py_split (a +:+ ":" +:+ b)) as [| w ws] eqn:E; [done |].
      destruct ws as [| w' ws]; [| done].
      exfalso. clear -E.
      assert (Hlen : forall x y, (2 <= length (py_split (x +:+ ":" +:+ y)))%nat).
      { clear. intros x y. induction x as [| c x IH].
        - rewrite append_nil. change (":" +:+ y) with (String ":"%char y).
          cbn [py_split]. change (Ascii.eqb ":" ":") with true. cbn iota.
          pose proof (py_split_nonempty y). destruct (py_split y); [done | cbn; lia].
        - rewrite append_cons. cbn [py_split].
          destruct (Ascii.eqb c ":"%char); [cbn; lia |].
          destruct (py_split (x +:+ ":" +:+ y)) as [| ? [| ? ?]]; cbn in *; lia. }
      specialize (Hlen a b). rewrite E in Hlen. cbn in Hlen. lia.
Qed.

Lemma LAST_key_no_time_suffix (a : string) : has_time_suffix (a +:+ ":LAST") = false.
Proof.
  unfold has_time_suffix, lua_last_part.
  change (a +:+ ":LAST") with (a +:+ ":" +:+ "LAST"). by rewrite last_py_split_app.
Qed.

Lemma get_all_weights_rows (self : client) (sdt edt : string) (r : redis)
    (out : list wrow) (r' : redis) :
  get_all_weights self sdt edt r = (Ok out, r') ->
  exists results r0 df r1,
    lua_all_weights (key_prefix self +:+ ":" +:+ strategy_name self +:+ ":*:*") r =
      (Ok results, r0)
    /\ forM to_wrow ((fun x => py_dict (pair_up x)) <$> results) r0 = (Ok df, r1)
    /\ forall x, x ∈ out -> x ∈ dense_frame df.
Proof.
  unfold get_all_weights. intros E.
  apply bind_inv in E as (results & r0 & E0 & E).
  case_bool_decide; [done |].
  apply bind_inv in E as (df & r1 & E1 & E).
  apply bind_inv in E as (df1 & r2 & E2 & E).
  apply bind_inv in E as (df2 & r3 & E3 & E).
  injection E as <- <-.
  exists results, r0, df, r1. split; [done |]. split; [done |].
  intros x Hx. unfold sort_values in Hx. rewrite merge_sort_Permutation in Hx.
  assert (Hsub2 : forall y, y ∈ df2 -> y ∈ df1).
  { destruct (nonempty edt).
    - apply bind_inv in E3 as (t & r4 & _ & E3). injection E3 as <- <-.
      by intros y [_ ?]%list_elem_of_filter.
    - by injection E3 as <- <-. }
  assert (Hsub1 : forall y, y ∈ df1 -> y ∈ dense_frame df).
  { destruct (nonempty sdt).
    - apply bind_inv in E2 as (t & r4 & _ & E2). injection E2 as <- <-.
      by intros y [_ ?]%list_elem_of_filter.
    - by injection E2 as <- <-. }
  auto.
Qed.

Lemma pattern_misses (self : client) (middle : string) :
  glob_plain (key_prefix self +:+ ":" +:+ strategy_name self) = true ->
  colon_free middle = true ->
  glob_match (key_prefix self +:+ ":" +:+ strategy_name self +:+ ":*:*")
    (key_prefix self +:+ ":" +:+ middle +:+ ":" +:+ strategy_name self) = false.
Proof.
  intros Hp Hm.
  destruct (glob_match _ _) eqn:E; [| done]. exfalso.
  assert (Hpat : key_prefix self +:+ ":" +:+ strategy_name self +:+ ":*:*" =
                 (key_prefix self +:+ ":" +:+ strategy_name self) +:+ ":*:*")
    by (by rewrite !append_assoc).
  rewrite Hpat in E. apply glob_two_more_colons in E; [| done].
  rewrite !colons_app in E. rewrite (colons_colon_free middle Hm) in E.
  cbn in E. lia.
Qed.

(** C6. The matrix of weights. (1) In a store where no key that matches
    [prefix:strategy:*:*] ends in a colon, where tonumber takes a last part
    of 14 characters for a number exactly when it is made of digits, and
    where the keys that end in a time stamp hold hashes, the script reads
    exactly the matching keys whose last part is made of 14 digits, and the
    dict Python builds from what was read of a hash is that hash. (2) The
    key of a LastPointer does not end in a time stamp, and the pattern
    matches neither the metadata key, nor the last-update marker, nor the
    heartbeat key. (3) Every row that [get_all_weights] answers is a row of
    the dense frame of the records read. (4) A row of the dense frame shows,
    for its symbol and time, the weight carried forward: the weight recorded
    at the latest event of the symbol at or before that time, zero when
    there is none; and the dense frame has a row for every time of an event
    and every symbol. (5) For the events A at t1 with 0.5, B at t2 with 0.3
    and A at t3 with 0, t1 < t2 < t3: a row at a time from t2 up to but not
    t3 shows 0.5 for A and 0.3 for B, and a row at a time from t3 on shows 0
    for A and 0.3 for B. *)
Theorem matrix_reconstruction :
  (forall (self : client) (r : redis),
      let pattern := key_prefix self +:+ ":" +:+ strategy_name self +:+ ":*:*" in
      let keys := List.filter (glob_match pattern) (elements (dom (db r))) in
      (forall k, k ∈ keys -> is_Some (lua_last_part k)) ->
      (forall k lp, k ∈ keys -> lua_last_part k = Some lp -> String.length lp = 14%nat ->
                    (is_Some (lua_tonumber lp) <-> all_digits lp = true)) ->
      (forall k, k ∈ keys -> has_time_suffix k = true -> holds_hash r k) ->
      lua_all_weights pattern r =
        (Ok ((fun k => flat_pairs (map_to_list (hash_at r k)))
               <$> List.filter has_time_suffix keys), r))
  /\ (forall h : gmap string string, py_dict (pair_up (flat_pairs (map_to_list h))) = h)
  /\ (forall (self : client) (symbol : string),
         let pattern := key_prefix self +:+ ":" +:+ strategy_name self +:+ ":*:*" in
         glob_plain (key_prefix self +:+ ":" +:+ strategy_name self) = true ->
         colon_free (heartbeat_prefix self) = true ->
         has_time_suffix (last_key self symbol) = false
         /\ glob_match pattern
              (key_prefix self +:+ ":META:" +:+ strategy_name self) = false
         /\ glob_match pattern
              (key_prefix self +:+ ":LAST:" +:+ strategy_name self) = false
         /\ glob_match pattern
              (key_prefix self +:+ ":" +:+ heartbeat_prefix self +:+ ":" +:+
               strategy_name self) = false)
  /\ (forall (self : client) (sdt edt : string) (r : redis) (out : list wrow)
             (r' : redis),
         get_all_weights self sdt edt r = (Ok out, r') ->
         exists results r0 df r1,
           lua_all_weights (key_prefix self +:+ ":" +:+ strategy_name self +:+ ":*:*") r =
             (Ok results, r0)
           /\ forM to_wrow ((fun x => py_dict (pair_up x)) <$> results) r0 = (Ok df, r1)
           /\ forall x, x ∈ out -> x ∈ dense_frame df)
  /\ (forall (df : list wrow) (x : wrow),
         x ∈ dense_frame df -> carried df (w_symbol x) (w_dt x) (w_weight x))
  /\ (forall (df : list wrow) (y z : wrow),
         y ∈ df -> z ∈ df ->
         exists x, x ∈ dense_frame df /\ w_dt x = w_dt y /\ w_symbol x = w_symbol z)
  /\ (forall (a b : string) (t1 t2 t3 : Z) (u1 u2 u3 : option string) (x : wrow),
         a <> b -> (t1 < t2)%Z -> (t2 < t3)%Z ->
         x ∈ dense_frame [WRow t1 a (1 # 2) u1; WRow t2 b (3 # 10) u2; WRow t3 a 0 u3] ->
         ((t2 <= w_dt x < t3)%Z ->
          (w_symbol x = a -> (w_weight x == 1 # 2)%Q) /\
          (w_symbol x = b -> (w_weight x == 3 # 10)%Q))
         /\ ((t3 <= w_dt x)%Z ->
             (w_symbol x = a -> (w_weight x == 0)%Q) /\
             (w_symbol x = b -> (w_weight x == 3 # 10)%Q))).
Proof.
  split; [| split; [| split; [| split; [| split; [| split]]]]].
  - intros self r pattern keys. apply lua_all_weights_selects.
  - apply py_dict_hash.
  - intros self symbol pattern Hp Hh. split; [| split; [| split]].
    + unfold last_key. rewrite <- !append_assoc. apply LAST_key_no_time_suffix.
    + apply (pattern_misses self "META"); done.
    + apply (pattern_misses self "LAST"); done.
    + by apply pattern_misses.
  - apply get_all_weights_rows.
  - apply dense_frame_carried.
  - apply dense_frame_complete.
  - apply dense_frame_example.
Qed.

(** *** Publishing one event *)

Lemma record_fields_lookup symbol sig at_str update_time price ref_str h :
  let h' := hash_set (record_fields symbol sig at_str update_time price ref_str) h in
  h' !! "symbol" = Some symbol /\ h' !! "weight" = Some sig /\ h' !! "dt" = Some at_str
  /\ h' !! "update_time" = Some update_time /\ h' !! "price" = Some price
  /\ h' !! "ref" = Some ref_str.
Proof.
  unfold hash_set, record_fields. cbn [foldl fst snd].
  repeat split;
    repeat (rewrite lookup_insert_ne by done); by rewrite lookup_insert_eq.
Qed.

Lemma encode_ref_ok (ref : pyobj) (text : string) (r : redis) :
  ref_text ref = Some text ->
  encode_arg (if isinstance_dict (if py_truthy ref then ref else PStr "{}")
              then PStr (json_dumps (if py_truthy ref then ref else PStr "{}"))
              else if py_truthy ref then ref else PStr "{}") r = (Ok text, r).
Proof.
  unfold ref_text, encode_arg, ret.
  destruct (py_truthy ref); [| by intros [= <-]].
  destruct ref; cbn; intros ?; by simplify_eq.
Qed.

Lemma forM_encode_event (a b c : pynum) (u : string) (x : pyobj) (text : string)
    (r : redis) :
  encode_arg x r = (Ok text, r) ->
  forM encode_arg [PNum a; PStr u; PNum b; PNum c; x] r =
    (Ok [encode_num a; u; encode_num b; encode_num c; text], r).
Proof.
  intros Hx. cbn [forM]. unfold bind at 1. cbn [encode_arg ret].
  unfold bind at 1. unfold bind at 1. cbn [encode_arg ret].
  unfold bind at 1. unfold bind at 1. cbn [encode_arg ret].
  unfold bind at 1. unfold bind at 1. cbn [encode_arg ret].
  unfold bind at 1. unfold bind at 1. rewrite Hx. reflexivity.
Qed.

(** The key of an event as the script sees it. *)
Lemma event_key_parts (self : client) (symbol : string) (dt : Z) :
  event_key self symbol dt =
  (key_prefix self +:+ ":" +:+ strategy_name self +:+ ":" +:+ symbol) +:+ ":" +:+
  strftime "%Y%m%d%H%M%S" dt.
Proof. unfold event_key. by rewrite !append_assoc. Qed.

Lemma last_key_parts (self : client) (symbol : string) :
  last_key self symbol =
  (key_prefix self +:+ ":" +:+ strategy_name self +:+ ":" +:+ symbol) +:+ ":LAST".
Proof. unfold last_key. by rewrite !append_assoc. Qed.

Lemma publish_send_recorded (self : client) (symbol : string) (dt : Z)
    (weight price : pynum) (ref : pyobj) (overwrite : bool) (now : Z) (r : redis)
    (text : string) :
  let model_key := key_prefix self +:+ ":" +:+ strategy_name self +:+ ":" +:+ symbol in
  well_formed_event self symbol dt ->
  typed_for self symbol dt r ->
  ref_text ref = Some text ->
  lua_if_pass (Some (pretty (if overwrite then 1 else 0)%Z)) (Some (encode_num weight))
    model_key r = (Ok false, r) ->
  exists r',
    publish_send self symbol dt weight price ref overwrite now r = (Ok 1%nat, r')
    /\ recorded self symbol dt (encode_num weight) (encode_num price) text
         (strftime iso_format now) r r'.
Proof.
  intros model_key (K1 & K2 & K3 & K4 & Hd & Hclear & [score Hscore]) (Hz & Hk & Hl)
    Href Hpass.
  rewrite event_key_parts in Hk. rewrite last_key_parts in Hl.
  destruct (lua_write_effects (strftime iso_format now) (encode_num weight)
              (encode_num price) text (key_prefix self) (strategy_name self) symbol
              (strftime "%Y%m%d%H%M%S" dt) 0%nat r score K1 K2 K3 K4 Hd Hclear Hscore
              Hz Hk Hl) as (r' & Hw & Hzs & Hrec & Hlast & Hframe & Hpub).
  exists r'. split.
  - assert (Hfields : lua_fields
                        ((key_prefix self +:+ ":" +:+ strategy_name self +:+ ":" +:+
                          symbol) +:+ ":" +:+ strftime "%Y%m%d%H%M%S" dt) =
                      [key_prefix self; strategy_name self; symbol;
                       strftime "%Y%m%d%H%M%S" dt]).
    { destruct K1, K2, K3, K4. rewrite !append_assoc. by apply lua_fields_key. }
    rewrite Hfields in Hw.
    unfold publish_send. rewrite event_key_parts.
    erewrite bind_ok by (apply forM_encode_event, encode_ref_ok; exact Href).
    unfold lua_publish. cbn [lua_publish_loop].
    erewrite bind_ok; [reflexivity |].
    unfold lua_publish_key. rewrite Hfields.
    cbn [lua_index lookup list_lookup Nat.sub Nat.mul Nat.add encode_num].
    erewrite !bind_ok by (by apply need_some).
    erewrite bind_ok by exact Hpass. cbn [negb].
    exact Hw.
  - unfold recorded. rewrite event_key_parts, last_key_parts.
    split; [by exists score |]. by repeat split.
Qed.
Lemma lua_if_pass_first (overwrite : bool) (sig : option string) (model_key : string)
    (r : redis) :
  overwrite = true \/ db r !! (model_key +:+ ":LAST") = None ->
  lua_if_pass (Some (pretty (if overwrite then 1 else 0)%Z)) sig model_key r =
    (Ok false, r).
Proof.
  intros Hcase. unfold lua_if_pass. case_bool_decide as Hov; [done |].
  destruct Hcase as [-> | Hnone].
  - vm_compute in Hov. discriminate Hov.
  - erewrite bind_ok by (by apply HGET_none). reflexivity.
Qed.

(** An event that is written: the first of its symbol, or any event when
    [overwrite] is set. *)
Lemma publish_recorded (self : client) (symbol : string) (dt : Z)
    (weight price : pynum) (ref : pyobj) (overwrite : bool) (now : Z) (r : redis)
    (text : string) :
  well_formed_event self symbol dt ->
  typed_for self symbol dt r ->
  ref_text ref = Some text ->
  overwrite = true \/ db r !! last_key self symbol = None ->
  exists r1,
    publish self symbol dt weight price ref overwrite now r = (Ok 1%nat, r1)
    /\ recorded self symbol dt (encode_num weight) (encode_num price) text
         (strftime iso_format now) r r1.
Proof.
  intros Hwf Hty Href Hcase.
  assert (Hpass : lua_if_pass (Some (pretty (if overwrite then 1 else 0)%Z))
                    (Some (encode_num weight))
                    (key_prefix self +:+ ":" +:+ strategy_name self +:+ ":" +:+ symbol) r
                  = (Ok false, r)).
  { apply lua_if_pass_first. rewrite <- last_key_parts. exact Hcase. }
  destruct (publish_send_recorded self symbol dt weight price ref overwrite now r text
              Hwf Hty Href Hpass) as (r1 & Hsend & Hrec).
  exists r1. split; [| exact Hrec].
  unfold publish. destruct overwrite; cbn [negb]; [exact Hsend |].
  destruct Hcase as [? | Hnone]; [done |].
  erewrite bind_ok by (by apply get_last_times_str_none). exact Hsend.
Qed.

Lemma recorded_last_pointer (self : client) (symbol : string) (dt : Z)
    (sig price text udt : string) (r r1 : redis) :
  recorded self symbol dt sig price text udt r r1 ->
  exists h, db r1 !! last_key self symbol = Some (RHash h)
            /\ h !! "symbol" = Some symbol /\ h !! "weight" = Some sig
            /\ h !! "dt" = Some (lua_at_str (strftime "%Y%m%d%H%M%S" dt)).
Proof.
  intros (_ & _ & Hlast & _). eexists. split; [exact Hlast |].
  pose proof (record_fields_lookup symbol sig
                (lua_at_str (strftime "%Y%m%d%H%M%S" dt)) udt price text
                (hash_at r (last_key self symbol))) as Hf.
  cbv zeta in Hf. tauto.
Qed.

(** X1. The LastPointer after an event is written. An event of a symbol
    that has no LastPointer, or any event when [overwrite] is set, is
    counted by [publish]; afterwards [get_last_times] answers the time of
    that event for the symbol, asked for as one name or in a list, whatever
    time was recorded before: with [overwrite] an earlier event moves the
    LastPointer back. *)
Theorem publish_sets_last_pointer (self : client) (symbol : string) (dt : Z)
    (weight price : pynum) (ref : pyobj) (overwrite : bool) (now : Z) (r : redis)
    (text : string) :
  well_formed_event self symbol dt ->
  typed_for self symbol dt r ->
  ref_text ref = Some text ->
  to_datetime (lua_at_str (strftime "%Y%m%d%H%M%S" dt)) = Some dt ->
  overwrite = true \/ db r !! last_key self symbol = None ->
  exists r1,
    publish self symbol dt weight price ref overwrite now r = (Ok 1%nat, r1)
    /\ get_last_times_str self symbol r1 = (Ok (Some dt), r1)
    /\ get_last_times self [symbol] r1 = (Ok {[symbol := dt]}, r1).
Proof.
  intros Hwf Hty Href Htime Hcase.
  destruct (publish_recorded self symbol dt weight price ref overwrite now r text
              Hwf Hty Href Hcase) as (r1 & Hpub & Hrec).
  destruct (recorded_last_pointer _ _ _ _ _ _ _ _ _ Hrec) as (h & Hlast & Hsym & _ & Hdt).
  exists r1. split; [exact Hpub |]. split.
  - by eapply get_last_times_str_some.
  - unfold get_last_times. cbn [forM].
    erewrite bind_ok by reflexivity.
    erewrite bind_ok.
    2:{ cbn [forM]. erewrite bind_ok by (by apply HGETALL_hash). reflexivity. }
    erewrite bind_ok.
    2:{ cbn [forM]. erewrite bind_ok; [reflexivity |].
        rewrite Hsym, Hdt. erewrite !bind_ok by (by apply need_some).
        reflexivity. }
    cbn [foldl fst snd]. by rewrite insert_empty.
Qed.




(** *** The history of a symbol *)

Lemma float_or_none_value (x : option string) (r : redis) :
  (forall s, x = Some s -> is_Some (py_float s)) ->
  float_or_none x r = (Ok (x ≫= py_float), r).
Proof.
  intros Hx. destruct x as [s |]; [| done].
  destruct (Hx s eq_refl) as [q Hq]. unfold float_or_none.
  rewrite (bind_ok _ _ _ _ _ (need_some _ _ _ _ Hq)). cbn. by rewrite Hq.
Qed.

Lemma hist_row_of_fields (self : client) (symbol key : string) (r : redis) :
  readable_record r key ->
  exists lp t,
    last (py_split key) = Some lp /\ to_datetime lp = Some t
    /\ hist_row_of self symbol
         (key, (fun f => hash_at r key !! f) <$> ["weight"; "price"; "ref"]) r =
       (Ok (HistRow (strategy_name self) symbol t
              (hash_at r key !! "weight" ≫= py_float)
              (hash_at r key !! "price" ≫= py_float)
              (loads_or_raw (hash_at r key !! "ref"))), r).
Proof.
  intros (Hh & (lp & Hlp & [t Ht]) & Hw & Hp).
  exists lp, t. split; [done |]. split; [done |].
  unfold hist_row_of. cbn [fmap list_fmap].
  rewrite (bind_ok _ _ _ _ _ (need_some _ _ _ _ Hlp)).
  rewrite (bind_ok _ _ _ _ _ (need_some _ _ _ _ Ht)).
  rewrite (bind_ok _ _ _ _ _ (float_or_none_value _ r Hw)).
  rewrite (bind_ok _ _ _ _ _ (float_or_none_value _ r Hp)). reflexivity.
Qed.

Lemma row_of_key_run (self : client) (symbol key : string) (r : redis) :
  readable_record r key ->
  exists row,
    row_of_key self symbol r key = Some row
    /\ hist_row_of self symbol
         (key, (fun f => hash_at r key !! f) <$> ["weight"; "price"; "ref"]) r =
       (Ok row, r).
Proof.
  intros Hread. destruct (hist_row_of_fields self symbol key r Hread)
    as (lp & t & Hlp & Ht & Hrun).
  eexists. split; [| exact Hrun].
  unfold row_of_key. rewrite Hlp. cbn. rewrite Ht. reflexivity.
Qed.

Lemma get_hist_weights_spec (self : client) (symbol sdt edt : string)
    (r : redis) (s e : Z) (lo hi : Q) (z : gmap string Q) :
  let model_key := key_prefix self +:+ ":" +:+ strategy_name self +:+ ":" +:+ symbol in
  to_datetime sdt = Some s -> to_datetime edt = Some e ->
  redis_score (strftime "%Y%m%d%H%M%S" s) = Some lo ->
  redis_score (strftime "%Y%m%d%H%M%S" e) = Some hi ->
  db r !! model_key = Some (RZSet z) ->
  (forall k sc, z !! k = Some sc -> (lo <= sc)%Q -> (sc <= hi)%Q -> readable_record r k) ->
  exists rows r',
    get_hist_weights self symbol sdt edt r = (Ok rows, r')
    /\ db r' = db r /\ published r' = published r /\ (rows <> [] -> r' = r)
    /\ StronglySorted (key_le Z.le h_dt) rows
    /\ forall row,
         row ∈ rows <->
         exists k sc, z !! k = Some sc /\ (lo <= sc)%Q /\ (sc <= hi)%Q
                      /\ row_of_key self symbol r k = Some row.
Proof.
  intros model_key Hs He Hlo Hhi Hz Hread.
  destruct (ZRANGEBYSCORE_elem model_key lo hi r z Hz) as (key_list & Hrange & Hin).
  assert (Hall : forall k, k ∈ key_list -> readable_record r k).
  { intros k (sc & Hk & H1 & H2)%Hin. eauto. }
  assert (Hrun : zrangebyscore model_key (strftime "%Y%m%d%H%M%S" s)
                   (strftime "%Y%m%d%H%M%S" e) r = (Ok key_list, r)).
  { unfold zrangebyscore.
    rewrite (bind_ok _ _ _ _ _ (need_some _ _ _ _ Hlo)).
    rewrite (bind_ok _ _ _ _ _ (need_some _ _ _ _ Hhi)). exact Hrange. }
  destruct (forM_reads_ok (hist_row_of self symbol)
              ((fun k => (k, (fun f => hash_at r k !! f) <$> ["weight"; "price"; "ref"]))
                 <$> key_list) r) as (weights & Hw & Hrows).
  { intros kr (k & -> & Hk)%list_elem_of_fmap.
    destruct (row_of_key_run self symbol k r (Hall k Hk)) as (row & _ & Hrow). eauto. }
  assert (Hmem : forall row,
             row ∈ weights <->
             exists k, k ∈ key_list /\ row_of_key self symbol r k = Some row).
  { intros row. split.
    - intros [i Hi]%list_elem_of_lookup.
      destruct (Forall2_lookup_r _ _ _ _ _ Hrows Hi) as (kr & Hkr & Hrow).
      rewrite list_lookup_fmap in Hkr.
      destruct (key_list !! i) as [k |] eqn:Hk; [| done]. injection Hkr as <-.
      assert (Hkin : k ∈ key_list) by (apply list_elem_of_lookup; eauto).
      destruct (row_of_key_run self symbol k r (Hall k Hkin)) as (row' & Hrk & Hrow').
      pose proof (eq_trans (eq_sym Hrow) Hrow') as Heq. injection Heq as ->. eauto.
    - intros (k & Hkin & Hrk).
      destruct (row_of_key_run self symbol k r (Hall k Hkin)) as (row' & Hrk' & Hrow').
      rewrite Hrk in Hrk'. injection Hrk' as <-.
      apply list_elem_of_lookup in Hkin as [i Hi].
      assert (Hi' : ((fun k => (k, (fun f => hash_at r k !! f)
                                     <$> ["weight"; "price"; "ref"]))
                       <$> key_list) !! i =
                    Some (k, (fun f => hash_at r k !! f) <$> ["weight"; "price"; "ref"]))
        by (by rewrite list_lookup_fmap, Hi).
      destruct (Forall2_lookup_l _ _ _ _ _ Hrows Hi') as (row' & Hrow'' & Hrun').
      pose proof (eq_trans (eq_sym Hrun') Hrow') as Heq. injection Heq as ->.
      apply list_elem_of_lookup. eauto. }
  unfold get_hist_weights. fold model_key.
  rewrite (bind_ok _ _ _ _ _ (need_some _ _ _ _ Hs)).
  rewrite (bind_ok _ _ _ _ _ (need_some _ _ _ _ He)).
  rewrite (bind_ok _ _ _ _ _ Hrun).
  case_bool_decide as Hlen.
  - exists [], (log_line WARNING "no history weights: {symbol} - {sdt} - {edt}" r).
    split; [reflexivity |]. split; [done |]. split; [done |]. split; [done |].
    split; [constructor |].
    intros row. split; [by intros ?%elem_of_nil |].
    intros (k & sc & Hk & H1 & H2 & _).
    assert (Hkin : k ∈ key_list) by (apply Hin; eauto).
    destruct key_list; [by apply elem_of_nil in Hkin | done].
  - exists (sort_values Z.le h_dt weights), r.
    split.
    { erewrite bind_ok; cycle 1.
      { apply forM_HMGET. intros k Hk. by destruct (Hall k Hk). }
      rewrite zip_fmap_self. by rewrite (bind_ok _ _ _ _ _ Hw). }
    split; [done |]. split; [done |]. split; [done |].
    split; [unfold sort_values; apply StronglySorted_merge_sort; apply _ |].
    intros row. unfold sort_values. rewrite merge_sort_Permutation, Hmem.
    split.
    + intros (k & (sc & Hk & H1 & H2)%Hin & Hrk). eauto 10.
    + intros (k & sc & Hk & H1 & H2 & Hrk). exists k. split; [| done].
      apply Hin. eauto.
Qed.

(** X4. The history of a symbol. Where the SymbolIndex of the symbol is a
    sorted set and the records of its keys in the range can be read,
    [get_hist_weights] answers and changes neither a key nor a message of
    the store (it logs one warning when it has no row); its rows are in ascending order of time and are exactly the
    rows made of the keys of the index whose score lies between the two
    bounds, each with the name of the strategy, the symbol asked for, the
    time read from the key, the weight and the price as floats and the
    reference decoded. *)
Theorem get_hist_weights_rows (self : client) (symbol sdt edt : string)
    (r : redis) (s e : Z) (lo hi : Q) (z : gmap string Q) :
  let model_key := key_prefix self +:+ ":" +:+ strategy_name self +:+ ":" +:+ symbol in
  to_datetime sdt = Some s -> to_datetime edt = Some e ->
  redis_score (strftime "%Y%m%d%H%M%S" s) = Some lo ->
  redis_score (strftime "%Y%m%d%H%M%S" e) = Some hi ->
  db r !! model_key = Some (RZSet z) ->
  (forall k sc, z !! k = Some sc -> (lo <= sc)%Q -> (sc <= hi)%Q -> readable_record r k) ->
  exists rows r',
    get_hist_weights self symbol sdt edt r = (Ok rows, r')
    /\ db r' = db r /\ published r' = published r /\ (rows <> [] -> r' = r)
    /\ StronglySorted (key_le Z.le h_dt) rows
    /\ forall row,
         row ∈ rows <->
         exists k sc, z !! k = Some sc /\ (lo <= sc)%Q /\ (sc <= hi)%Q
                      /\ row_of_key self symbol r k = Some row.
Proof. apply get_hist_weights_spec. Qed.


(** *** Edge cases of [publish_dataframe] *)

Lemma deduped_elem (rows : list row) (x : row) : x ∈ deduped rows -> x ∈ rows.
Proof.
  intros Hx.
  assert (Hf : x ∈ filter (fun y => symbol y = symbol x) (deduped rows))
    by (by apply list_elem_of_filter).
  rewrite deduped_symbol in Hf.
  eapply elem_of_sublist in Hf; [| apply keep_changes_sublist].
  unfold sort_values in Hf. rewrite merge_sort_Permutation in Hf.
  by apply list_elem_of_filter in Hf as [_ ?].
Qed.

Lemma with_defaults_elem (df : dataframe) (rows : list row) (x : row) :
  x ∈ with_defaults df rows ->
  exists y, y ∈ rows /\ symbol x = symbol y /\ dt x = dt y /\ weight x = weight y
            /\ price x = (if has_price df then price y else PyInt 0)
            /\ ref x = (if has_ref df then ref y else PStr "{}").
Proof.
  unfold with_defaults. destruct (has_price df), (has_ref df); intros Hx.
  - eauto 10.
  - apply list_elem_of_fmap in Hx as (y & -> & Hy). eauto 10.
  - apply list_elem_of_fmap in Hx as (y & -> & Hy). eauto 10.
  - apply list_elem_of_fmap in Hx as (y' & -> & Hy').
    apply list_elem_of_fmap in Hy' as (y & -> & Hy). eauto 10.
Qed.

Lemma HSET_inv key fvs r n r' :
  HSET key fvs r = (Ok n, r') ->
  exists h, r' = set_db <[key := RHash (hash_set fvs h)]> r
            /\ (db r !! key = None /\ h = ∅ \/ db r !! key = Some (RHash h)).
Proof. unfold HSET. repeat case_match; intros [= <- <-]; eauto. Qed.

Lemma HSET_ok key fvs r :
  holds_hash r key ->
  exists n, HSET key fvs r =
              (Ok n, set_db <[key := RHash (hash_set fvs (hash_at r key))]> r).
Proof.
  unfold holds_hash, hash_at, HSET. intros [E | [h E]]; rewrite E; eauto.
Qed.

Lemma chunks_nil {A} (n : nat) : (0 < n)%nat -> chunks n (@nil A) = [].
Proof.
  intros Hn. unfold chunks, py_range. cbn [length].
  replace ((0 + n - 1) / n)%nat with 0%nat; [done |].
  symmetry. apply Nat.div_small. lia.
Qed.

(** X7. An empty frame is refused. [publish_dataframe] of a frame without
    rows raises the ValueError of [pd.concat] (there is no group to put
    together) after its first line of the log; and with a [batch_size] of 0
    it raises the ValueError of [range] once the rows are prepared: in both
    cases no key is written, no message published and the last-update
    marker is not touched. *)
Theorem publish_dataframe_refuses (self : client) (df : dataframe) (overwrite : bool)
    (batch_size : nat) (now now_last : Z) (r : redis) :
  (df_rows df = [] ->
   publish_dataframe self df overwrite batch_size now now_last r =
     (Raise "ValueError: No objects to concatenate", log_line INFO log1 r))
  /\ (forall rows r1,
         prepare_rows self df overwrite r = (Ok rows, r1) ->
         publish_dataframe self df overwrite 0 now now_last r =
           (Raise "ValueError: range() arg 3 must not be zero", r1)
         /\ db r1 = db r /\ published r1 = published r).
Proof.
  split.
  - intros Hnil. unfold publish_dataframe, prepare_rows. rewrite Hnil. reflexivity.
  - intros rows r1 E. split.
    + unfold publish_dataframe. rewrite (bind_ok _ _ _ _ _ E). reflexivity.
    + unfold prepare_rows in E.
      apply bind_inv in E as (u1 & r2 & E1 & E). rewrite logger_eq in E1.
      injection E1 as _ <-.
      apply bind_inv in E as (rows0 & r3 & E2 & E).
      apply dedup_frame_inv in E2 as [_ ->].
      apply bind_inv in E as (u2 & r4 & E3 & E). rewrite logger_eq in E3.
      injection E3 as _ <-.
      destruct overwrite; cbn [negb] in E.
      * by injection E as _ <-.
      * apply bind_inv in E as (_time & r5 & E4 & E).
        match type of E4 with
        | _ ?r0 = _ => pose proof (proj1 (reads_get_last_times self [] r0)) as Hr
        end.
        rewrite E4 in Hr. cbn in Hr. subst r5.
        apply bind_inv in E as (rows1 & r6 & E5 & E).
        apply pd_concat_inv in E5 as [_ ->].
        apply bind_inv in E as (u3 & r7 & E6 & E). rewrite logger_eq in E6.
        injection E6 as _ <-. by injection E as _ <-.
Qed.
Lemma later_than_same (_time : gmap string Z) (x y : row) :
  symbol x = symbol y -> dt x = dt y -> later_than _time x -> later_than _time y.
Proof. unfold later_than. by intros -> ->. Qed.

Lemma concat_fmap_nil {A B} (f : A -> list B) (l : list A) :
  (forall x, x ∈ l -> f x = []) -> concat (f <$> l) = [].
Proof.
  induction l as [| x l IH]; intros Hl; [done |].
  cbn. rewrite (Hl x) by left. apply IH. intros y Hy. apply Hl. by right.
Qed.

Lemma last_marker_fields (name time kwargs : string) (h : gmap string string) :
  let h' := hash_set [("name", name); ("time", time); ("kwargs", kwargs)] h in
  h' !! "name" = Some name /\ h' !! "time" = Some time /\ h' !! "kwargs" = Some kwargs.
Proof.
  unfold hash_set. cbn [foldl fst snd].
  repeat split;
    repeat (rewrite lookup_insert_ne by done); by rewrite lookup_insert_eq.
Qed.

Lemma update_last_ok (self : client) (kwargs : list (string * pyobj)) (now : Z)
    (r : redis) :
  let key := key_prefix self +:+ ":LAST:" +:+ strategy_name self in
  holds_hash r key ->
  update_last self kwargs now r =
    (Ok tt,
     log_line INFO "更新 {key} 的 last 时间"
       (set_db <[key := RHash (hash_set [("name", strategy_name self);
                                         ("time", strftime iso_format now);
                                         ("kwargs", json_dumps (PDict kwargs))]
                                (hash_at r key))]> r)).
Proof.
  intros key Hh. unfold update_last. fold key.
  destruct (HSET_ok key [("name", strategy_name self);
                         ("time", strftime iso_format now);
                         ("kwargs", json_dumps (PDict kwargs))] r Hh) as [n Hn].
  rewrite (bind_ok _ _ _ _ _ Hn). reflexivity.
Qed.

Lemma update_last_inv (self : client) (kwargs : list (string * pyobj)) (now : Z)
    (r : redis) u r' :
  update_last self kwargs now r = (Ok u, r') ->
  exists h, db r' !! (key_prefix self +:+ ":LAST:" +:+ strategy_name self) =
              Some (RHash (hash_set [("name", strategy_name self);
                                     ("time", strftime iso_format now);
                                     ("kwargs", json_dumps (PDict kwargs))] h)).
Proof.
  unfold update_last. intros E. apply bind_inv in E as (n & r1 & E1 & E).
  apply HSET_inv in E1 as (h & -> & _). rewrite logger_eq in E. injection E as _ <-.
  exists h. cbn. by rewrite lookup_insert_eq.
Qed.

(** X8. A frame of stale events. With [overwrite=False], when every event
    of the frame is at or before the time recorded for its symbol,
    [publish_dataframe] answers 0 without calling the script: no message is
    published and no record is written; the only key it writes is the
    last-update marker of the strategy, which it refreshes all the same. *)
Theorem publish_dataframe_all_stale (self : client) (df : dataframe)
    (batch_size : nat) (now now_last : Z) (r : redis) (_time : gmap string Z) :
  let marker := key_prefix self +:+ ":LAST:" +:+ strategy_name self in
  df_rows df <> [] ->
  (0 < batch_size)%nat ->
  get_last_times self [] r = (Ok _time, r) ->
  (forall x, x ∈ df_rows df -> ~ later_than _time x) ->
  holds_hash r marker ->
  exists r',
    publish_dataframe self df false batch_size now now_last r = (Ok 0%nat, r')
    /\ published r' = published r
    /\ db r' =
       <[marker := RHash (hash_set [("name", strategy_name self);
                                    ("time", strftime iso_format now_last);
                                    ("kwargs", json_dumps (PDict []))]
                           (hash_at r marker))]> (db r).
Proof.
  intros marker Hrows Hbs Htime Hstale Hh.
  pose proof (prepare_rows_fresh self df r _time Hrows Htime) as Hprep.
  cbv zeta in Hprep.
  rewrite concat_fmap_nil in Hprep.
  2:{ intros s _. apply (filter_nil_iff (later_than _time)).
      intros x [_ Hx]%list_elem_of_filter Hl.
      apply with_defaults_elem in Hx as (y & Hy & Hsym & Hdt & _).
      apply deduped_elem in Hy. apply (Hstale y Hy).
      by apply (later_than_same _time x y). }
  eexists. split; [| split].
  - unfold publish_dataframe. rewrite (bind_ok _ _ _ _ _ Hprep).
    rewrite send_rows_chunks by done. rewrite chunks_nil by done. cbn [forM].
    erewrite bind_ok by reflexivity.
    erewrite bind_ok by (by apply update_last_ok).
    reflexivity.
  - reflexivity.
  - reflexivity.
Qed.

(** X9. With [overwrite=True] the frame is sent in the order of the times.
    For a frame with at least one row and a positive [batch_size], the
    second filter is not run: the rows sent are those the first filter
    keeps, in ascending order of time over all the symbols, with the price 0
    and the reference of two braces where the frame has no such column;
    they are sent in chunks of at most [batch_size] rows that put together
    are the rows, and the count answered is the sum of the counts of the
    chunks. *)
Theorem publish_dataframe_overwrite_in_time_order (self : client) (df : dataframe)
    (batch_size : nat) (now now_last : Z) (r : redis) :
  df_rows df <> [] ->
  (0 < batch_size)%nat ->
  let rows := with_defaults df (deduped (df_rows df)) in
  StronglySorted (key_le Z.le dt) rows
  /\ publish_dataframe self df true batch_size now now_last r =
     (ns <- forM (send_chunk self 1 (strftime iso_format now))
              (chunks batch_size rows) ;;
      update_last self [] now_last ;;;
      ret (sum_counts ns)) (log_line INFO log2 (log_line INFO log1 r))
  /\ concat (chunks batch_size rows) = rows
  /\ (forall c, c ∈ chunks batch_size rows -> (length c <= batch_size)%nat)
  /\ (forall x, x ∈ rows ->
        exists y, y ∈ df_rows df /\ symbol x = symbol y /\ dt x = dt y
                  /\ weight x = weight y
                  /\ price x = (if has_price df then price y else PyInt 0)
                  /\ ref x = (if has_ref df then ref y else PStr "{}")).
Proof.
  intros Hrows Hbs rows. split; [| split; [| split; [| split]]].
  - apply with_defaults_sorted, deduped_sorted.
  - unfold publish_dataframe.
    rewrite (bind_ok _ _ _ _ _ (prepare_rows_overwrite self df r Hrows)).
    by apply send_rows_chunks.
  - by apply concat_chunks.
  - intros c. apply chunks_length.
  - intros x Hx. apply with_defaults_elem in Hx as (y & Hy & Hrest).
    exists y. split; [by apply deduped_elem | exact Hrest].
Qed.

(** X10. The last-update marker. Whenever [publish_dataframe] returns a
    count, be it 0, the hash [prefix:LAST:strategy] holds the name of the
    strategy, the time of the clock read by [update_last] and the text of an
    empty dict of parameters. *)
Theorem publish_dataframe_updates_marker (self : client) (df : dataframe)
    (overwrite : bool) (batch_size : nat) (now now_last : Z) (r : redis)
    (n : nat) (r' : redis) :
  publish_dataframe self df overwrite batch_size now now_last r = (Ok n, r') ->
  exists h,
    db r' !! (key_prefix self +:+ ":LAST:" +:+ strategy_name self) = Some (RHash h)
    /\ h !! "name" = Some (strategy_name self)
    /\ h !! "time" = Some (strftime iso_format now_last)
    /\ h !! "kwargs" = Some (json_dumps (PDict [])).
Proof.
  unfold publish_dataframe. intros E.
  apply bind_inv in E as (rows & r1 & _ & E). unfold send_rows in E.
  case_bool_decide; [done |].
  apply bind_inv in E as (cnt & r2 & _ & E).
  apply bind_inv in E as (u & r3 & E3 & E). injection E as _ <-.
  apply update_last_inv in E3 as [h Hh].
  eexists. split; [exact Hh |]. apply last_marker_fields.
Qed.

(** *** Metadata, the directory of names and the heartbeat *)

Lemma meta_fields_lookup (self : client)
    (base_freq description author outsample_sdt : string)
    (kwargs : list (string * pyobj)) (now : Z) (h : gmap string string) :
  let h' := hash_set (meta_fields self base_freq description author outsample_sdt
                        kwargs now) h in
  h' !! "name" = Some (strategy_name self)
  /\ h' !! "base_freq" = Some base_freq
  /\ h' !! "key_prefix" = Some (key_prefix self)
  /\ h' !! "description" = Some description
  /\ h' !! "author" = Some author
  /\ h' !! "outsample_sdt" = Some outsample_sdt
  /\ h' !! "update_time" = Some (strftime iso_format now)
  /\ h' !! "kwargs" = Some (json_dumps (PDict kwargs)).
Proof.
  unfold hash_set, meta_fields. cbn [foldl fst snd].
  repeat split;
    repeat (rewrite lookup_insert_ne by done); by rewrite lookup_insert_eq.
Qed.

Lemma meta_key_ne_names (self : client) :
  key_prefix self +:+ ":META:" +:+ strategy_name self <>
  key_prefix self +:+ ":StrategyNames".
Proof. intros E. apply append_inj_l in E. discriminate E. Qed.

Lemma write_metadata_ok (self : client)
    (base_freq description author outsample_sdt : string)
    (kwargs : list (string * pyobj)) (now : Z) (r : redis) (sdt : Z) :
  let key := key_prefix self +:+ ":META:" +:+ strategy_name self in
  let names := key_prefix self +:+ ":StrategyNames" in
  db r !! key = None ->
  to_datetime outsample_sdt = Some sdt ->
  holds_set r names ->
  exists r' s,
    write_metadata self base_freq description author outsample_sdt kwargs now r =
      (Ok tt, r')
    /\ db r' !! key =
       Some (RHash (hash_set (meta_fields self base_freq description author
                                (strftime "%Y%m%d" sdt) kwargs now) ∅))
    /\ db r' !! names = Some (RSet s) /\ strategy_name self ∈ s
    /\ (forall k, k <> key -> k <> names -> db r' !! k = db r !! k)
    /\ published r' = published r /\ logged r' = logged r.
Proof.
  intros key names Hk Hsdt Hnames.
  pose proof (meta_key_ne_names self) as Hne. fold key names in Hne.
  unfold write_metadata. fold key names.
  destruct (HSET_fresh key (meta_fields self base_freq description author
                              (strftime "%Y%m%d" sdt) kwargs now) r Hk) as [n Hset].
  set (r2 := set_db _ r) in *.
  assert (Hn2 : db r2 !! names = None \/ exists s, db r2 !! names = Some (RSet s)).
  { cbn. by rewrite lookup_insert_ne. }
  destruct (SADD_ok names (strategy_name self) r2 Hn2) as (m & s' & Hadd & Hin).
  eexists _, s'. split; [| split; [| split; [| split; [| split; [| split]]]]].
  - erewrite bind_ok by (by apply need_some).
    erewrite bind_ok by exact Hset. erewrite bind_ok by exact Hadd. reflexivity.
  - cbn. rewrite lookup_insert_ne by done. by rewrite lookup_insert_eq.
  - cbn. by rewrite lookup_insert_eq.
  - exact Hin.
  - intros k H1 H2. cbn. by rewrite !lookup_insert_ne.
  - reflexivity.
  - reflexivity.
Qed.

(** X11. Metadata written and read back. When the strategy has no metadata
    record, [set_metadata] (with or without [overwrite]) writes it: the
    property [metadata] then answers a dict with the eight fields of the
    call, the out-of-sample date in the form YYYYMMDD, and
    [get_strategy_names] lists the strategy; no other key, no message and no
    line of the log is added. *)
Theorem set_metadata_fresh_round_trip (self : client)
    (base_freq description author outsample_sdt : string) (overwrite : bool)
    (kwargs : list (string * pyobj)) (now : Z) (r : redis) (sdt : Z) :
  let key := key_prefix self +:+ ":META:" +:+ strategy_name self in
  let names := key_prefix self +:+ ":StrategyNames" in
  db r !! key = None ->
  to_datetime outsample_sdt = Some sdt ->
  holds_set r names ->
  exists r' meta listed,
    set_metadata self base_freq description author outsample_sdt overwrite kwargs now r =
      (Ok tt, r')
    /\ metadata self r' = (Ok meta, r')
    /\ meta !! "name" = Some (strategy_name self)
    /\ meta !! "base_freq" = Some base_freq
    /\ meta !! "key_prefix" = Some (key_prefix self)
    /\ meta !! "description" = Some description
    /\ meta !! "author" = Some author
    /\ meta !! "outsample_sdt" = Some (strftime "%Y%m%d" sdt)
    /\ meta !! "update_time" = Some (strftime iso_format now)
    /\ meta !! "kwargs" = Some (json_dumps (PDict kwargs))
    /\ get_strategy_names (key_prefix self) r' = (Ok listed, r')
    /\ strategy_name self ∈ listed
    /\ (forall k, k <> key -> k <> names -> db r' !! k = db r !! k)
    /\ published r' = published r /\ logged r' = logged r.
Proof.
  intros key names Hk Hsdt Hnames.
  destruct (write_metadata_ok self base_freq description author outsample_sdt kwargs
              now r sdt Hk Hsdt Hnames)
    as (r' & s & Hrun & Hrec & Hset & Hin & Hframe & Hpub & Hlog).
  fold key names in Hrec, Hset, Hframe.
  pose proof (meta_fields_lookup self base_freq description author
                (strftime "%Y%m%d" sdt) kwargs now ∅) as Hf. cbv zeta in Hf.
  exists r', (hash_set (meta_fields self base_freq description author
                          (strftime "%Y%m%d" sdt) kwargs now) ∅), (elements s).
  split.
  { unfold set_metadata. fold key.
    assert (Hex : EXISTS key r = (Ok false, r)).
    { rewrite EXISTS_eq, bool_decide_eq_false_2; [done |]. rewrite Hk. by intros [? ?]. }
    rewrite (bind_ok _ _ _ _ _ Hex). exact Hrun. }
  split; [unfold metadata; fold key; by apply HGETALL_hash |].
  destruct Hf as (F1 & F2 & F3 & F4 & F5 & F6 & F7 & F8).
  do 8 (split; [assumption |]).
  split.
  { unfold get_strategy_names. fold names.
    assert (Hm : SMEMBERS names r' = (Ok s, r')) by (unfold SMEMBERS; by rewrite Hset).
    by rewrite (bind_ok _ _ _ _ _ Hm). }
  split; [by apply elem_of_elements |].
  by repeat split.
Qed.

(** X12. An overwrite that loses the record. [set_metadata] with
    [overwrite=True] deletes the record it finds before it reads the
    out-of-sample date: when pandas cannot read that date the call raises
    and the old metadata is gone, [metadata] answering an empty dict.
    Without [overwrite] the same call returns before the date is read and
    the record stays. *)
Theorem set_metadata_overwrite_bad_date (self : client)
    (base_freq description author outsample_sdt : string)
    (kwargs : list (string * pyobj)) (now : Z) (r : redis) :
  let key := key_prefix self +:+ ":META:" +:+ strategy_name self in
  is_Some (db r !! key) ->
  to_datetime outsample_sdt = None ->
  (exists r',
      set_metadata self base_freq description author outsample_sdt true kwargs now r =
        (Raise "ValueError: to_datetime", r')
      /\ db r' = delete key (db r)
      /\ metadata self r' = (Ok ∅, r'))
  /\ exists r',
      set_metadata self base_freq description author outsample_sdt false kwargs now r =
        (Ok tt, r')
      /\ db r' = db r.
Proof.
  intros key Hex Hbad.
  assert (Hexists : EXISTS key r = (Ok true, r)).
  { by rewrite EXISTS_eq, bool_decide_eq_true_2. }
  split.
  - eexists. split; [| split].
    + unfold set_metadata. fold key. rewrite (bind_ok _ _ _ _ _ Hexists). cbn [negb].
      destruct (DEL_eq [key] r) as [n Hdel]. rewrite (bind_ok _ _ _ _ _ Hdel).
      rewrite (bind_ok _ _ _ _ _ (logger_eq _ _ _)).
      unfold write_metadata. rewrite Hbad. reflexivity.
    + reflexivity.
    + unfold metadata. fold key. apply HGETALL_none. cbn. apply lookup_delete_eq.
  - eexists. split.
    + unfold set_metadata. fold key. rewrite (bind_ok _ _ _ _ _ Hexists). cbn [negb].
      rewrite (bind_ok _ _ _ _ _ (logger_eq _ _ _)). reflexivity.
    + reflexivity.
Qed.

(** X13. The heartbeat read back. After one beat of [__heartbeat] the
    property [heartbeat_time] answers the time of the beat, whatever the key
    held before (SET replaces a value of any type), and no other key has
    changed; a strategy that never sent a heartbeat has the heartbeat time
    None. The clock is taken to the second: pandas reads back the text
    strftime writes. *)
Theorem heartbeat_round_trip (self : client) (now : Z) (r : redis) :
  let key := key_prefix self +:+ ":" +:+ heartbeat_prefix self +:+ ":" +:+
             strategy_name self in
  (to_datetime (strftime iso_format now) = Some now ->
   exists r',
     heartbeat self now r = (Ok tt, r')
     /\ heartbeat_time self r' = (Ok (Some now), r')
     /\ (forall k, k <> key -> db r' !! k = db r !! k)
     /\ published r' = published r)
  /\ (db r !! key = None -> heartbeat_time self r = (Ok None, r)).
Proof.
  intros key. split.
  - intros Hrt. eexists. split; [reflexivity |]. split; [| split].
    + unfold heartbeat_time. fold key.
      assert (Hget : GET key (set_db <[key := RString (strftime iso_format now)]> r) =
                     (Ok (Some (strftime iso_format now)),
                      set_db <[key := RString (strftime iso_format now)]> r)).
      { unfold GET. cbn. by rewrite lookup_insert_eq. }
      cbn. fold key. rewrite (bind_ok _ _ _ _ _ Hget).
      by rewrite (bind_ok _ _ _ _ _ (need_some _ _ _ _ Hrt)).
    + intros k Hk. cbn. by rewrite lookup_insert_ne.
    + reflexivity.
  - intros Hnone. unfold heartbeat_time. fold key.
    assert (Hget : GET key r = (Ok None, r)) by (unfold GET; by rewrite Hnone).
    by rewrite (bind_ok _ _ _ _ _ Hget).
Qed.

(** *** The last times of a list of symbols *)

Lemma forM_raises {A B} (f : A -> M B) (l : list A) (r : redis) (e : string) :
  (forall x, x ∈ l -> (exists y, f x r = (Ok y, r)) \/ f x r = (Raise e, r)) ->
  (exists x, x ∈ l /\ f x r = (Raise e, r)) ->
  forM f l r = (Raise e, r).
Proof.
  induction l as [| x l IH]; intros Hall (x0 & Hin & Hx0).
  - by apply elem_of_nil in Hin.
  - cbn [forM]. destruct (Hall x ltac:(left)) as [[y Hy] | Hr].
    + rewrite (bind_ok _ _ _ _ _ Hy). apply bind_raise, IH.
      * intros z Hz. apply Hall. by right.
      * apply elem_of_cons in Hin as [-> | Hin]; [congruence | eauto].
    + by apply bind_raise.
Qed.

Lemma forM_HGETALL (keys : list string) (r : redis) :
  (forall k, k ∈ keys -> holds_hash r k) ->
  forM HGETALL keys r = (Ok (hash_at r <$> keys), r).
Proof.
  induction keys as [| k keys IH]; intros Hk; [done |].
  cbn [forM].
  assert (Hrun : HGETALL k r = (Ok (hash_at r k), r)).
  { unfold HGETALL, hash_at. destruct (Hk k ltac:(left)) as [E | [h E]]; by rewrite E. }
  rewrite (bind_ok _ _ _ _ _ Hrun).
  rewrite (bind_ok _ _ _ _ _ (IH (fun k' Hk' => Hk k' ltac:(by right)))). done.
Qed.

Lemma forM_fmap {A B C} (f : B -> M C) (g : A -> B) (l : list A) :
  forM f (g <$> l) = forM (fun x => f (g x)) l.
Proof. induction l as [| x l IH]; [done |]. cbn. by rewrite IH. Qed.

Lemma foldl_insert_lookup {V} (entries : list (string * V)) (m0 : gmap string V)
    (k : string) (v : V) :
  (k, v) ∈ entries ->
  (forall v', (k, v') ∈ entries -> v' = v) ->
  foldl (fun (m : gmap string V) e => <[e.1 := e.2]> m) m0 entries !! k = Some v.
Proof.
  induction entries as [| e entries IH] using rev_ind; intros Hin Huniq.
  - by apply elem_of_nil in Hin.
  - rewrite foldl_app. cbn [foldl]. destruct (decide (e.1 = k)) as [Hk | Hk].
    + rewrite Hk, lookup_insert_eq. f_equal. apply Huniq.
      apply elem_of_app. right. destruct e as [k' v']. cbn in Hk. subst k'. left.
    + rewrite lookup_insert_ne by done. apply IH.
      * apply elem_of_app in Hin as [Hin | Hin]; [done |].
        apply list_elem_of_singleton in Hin. subst e. by destruct Hk.
      * intros v' Hv'. apply Huniq, elem_of_app. by left.
Qed.

Lemma last_entry_run (self : client) (r r0 : redis) (s : string) (t : Z) :
  last_recorded self r s t ->
  (symbol <- need (hash_at r (last_key self s) !! "symbol") "KeyError: 'symbol'" ;;
   dt <- need (hash_at r (last_key self s) !! "dt") "KeyError: 'dt'" ;;
   t <- need (to_datetime dt) "ValueError: to_datetime" ;;
   ret (symbol, t)) r0 = (Ok (s, t), r0).
Proof.
  intros (h & d & Hh & Hs & Hd & Ht). unfold hash_at. rewrite Hh, Hs, Hd.
  erewrite !bind_ok by (by apply need_some). reflexivity.
Qed.

Lemma last_recorded_time (self : client) (r : redis) (s : string) (t t' : Z) :
  last_recorded self r s t -> last_recorded self r s t' -> t = t'.
Proof.
  intros (h & d & Hh & _ & Hd & Ht) (h' & d' & Hh' & _ & Hd' & Ht'). congruence.
Qed.

(** X14. The last times of a list of symbols. For a list that is not empty:
    when every symbol of the list has a LastPointer, [get_last_times]
    answers a dict that gives each of them the time of its LastPointer and
    leaves the store as it is; when one of them has none, the call raises
    KeyError: the empty record of that symbol has no field [symbol] (asked
    for one symbol as a str, the method answers None instead). *)
Theorem get_last_times_of_list (self : client) (symbols : list string) (r : redis) :
  symbols <> [] ->
  ((forall s, s ∈ symbols -> exists t, last_recorded self r s t) ->
   exists m,
     get_last_times self symbols r = (Ok m, r)
     /\ forall s t, s ∈ symbols -> last_recorded self r s t -> m !! s = Some t)
  /\ ((forall s, s ∈ symbols ->
         (exists t, last_recorded self r s t) \/ db r !! last_key self s = None) ->
      (exists s, s ∈ symbols /\ db r !! last_key self s = None) ->
      get_last_times self symbols r = (Raise "KeyError: 'symbol'", r)).
Proof.
  intros Hne.
  assert (Hsym : (match symbols with [] => get_symbols self | _ => ret symbols end) r =
                 (Ok symbols, r)) by (by destruct symbols).
  assert (Hrows : (forall s, s ∈ symbols -> holds_hash r (last_key self s)) ->
                  forM (fun symbol => HGETALL (last_key self symbol)) symbols r =
                  (Ok (hash_at r <$> (last_key self <$> symbols)), r)).
  { intros Hh. rewrite <- (forM_fmap HGETALL (last_key self)).
    apply forM_HGETALL. intros k (s & -> & Hs)%list_elem_of_fmap. by apply Hh. }
  split.
  - intros Hall.
    assert (Hh : forall s, s ∈ symbols -> holds_hash r (last_key self s)).
    { intros s Hs. destruct (Hall s Hs) as (t & h & d & Hlast & _). right. eauto. }
    destruct (forM_reads_ok
                (fun s => symbol <- need (hash_at r (last_key self s) !! "symbol")
                                      "KeyError: 'symbol'" ;;
                          dt <- need (hash_at r (last_key self s) !! "dt") "KeyError: 'dt'" ;;
                          t <- need (to_datetime dt) "ValueError: to_datetime" ;;
                          ret (symbol, t)) symbols r) as (entries & Hrun & Hent).
    { intros s Hs. destruct (Hall s Hs) as [t Ht]. exists (s, t).
      by apply last_entry_run. }
    eexists. split.
    + unfold get_last_times. rewrite (bind_ok _ _ _ _ _ Hsym).
      rewrite (bind_ok _ _ _ _ _ (Hrows Hh)).
      rewrite <- list_fmap_compose, forM_fmap. cbn [compose].
      rewrite (bind_ok _ _ _ _ _ Hrun). reflexivity.
    + intros s t Hs Ht.
      assert (Hpairs : forall e, e ∈ entries ->
                                 e.1 ∈ symbols /\ last_recorded self r e.1 e.2).
      { intros e [i Hi]%list_elem_of_lookup.
        destruct (Forall2_lookup_r _ _ _ _ _ Hent Hi) as (s' & Hs' & Hrun').
        assert (Hin' : s' ∈ symbols) by (apply list_elem_of_lookup; eauto).
        destruct (Hall s' Hin') as [t' Ht'].
        rewrite (last_entry_run self r r s' t' Ht') in Hrun'.
        injection Hrun' as <-. by split. }
      apply foldl_insert_lookup.
      * apply list_elem_of_lookup in Hs as [i Hi].
        destruct (Forall2_lookup_l _ _ _ _ _ Hent Hi) as (e & He & Hrun').
        rewrite (last_entry_run self r r s t Ht) in Hrun'. injection Hrun' as <-.
        apply list_elem_of_lookup. eauto.
      * intros t' Hin'. destruct (Hpairs _ Hin') as [_ Ht']. cbn in Ht'.
        by apply (last_recorded_time self r s).
  - intros Hall (s0 & Hs0 & Hnone).
    assert (Hh : forall s, s ∈ symbols -> holds_hash r (last_key self s)).
    { intros s Hs. destruct (Hall s Hs) as [(t & h & d & Hlast & _) | E].
      - right. eauto.
      - by left. }
    unfold get_last_times. rewrite (bind_ok _ _ _ _ _ Hsym).
    rewrite (bind_ok _ _ _ _ _ (Hrows Hh)).
    apply bind_raise.
    rewrite <- list_fmap_compose, forM_fmap. cbn [compose].
    apply forM_raises.
    + intros s Hs. destruct (Hall s Hs) as [[t Ht] | E].
      * left. exists (s, t). by apply last_entry_run.
      * right. unfold hash_at. by rewrite E.
    + exists s0. split; [done |]. unfold hash_at. by rewrite Hnone.
Qed.

(** *** The symbols of a strategy *)

Lemma glob_go_literal (lit : string) (p s : list ascii) (fuel : nat) :
  glob_plain lit = true ->
  glob_go (String.length lit + fuel) (String.list_ascii_of_string lit ++ p)
          (String.list_ascii_of_string lit ++ s) = glob_go fuel p s.
Proof.
  induction lit as [| c lit IH]; intros Hp; [done |].
  cbn [glob_plain] in Hp. apply andb_true_iff in Hp as [Hc Hp].
  apply negb_true_iff, glob_meta_false in Hc as (H1 & H2 & H3 & H4).
  cbn [String.length String.list_ascii_of_string app Nat.add glob_go].
  rewrite H1, H2, H3, H4, Ascii.eqb_refl. cbn [andb]. by apply IH.
Qed.

Lemma glob_star_app (go : list ascii -> bool) (s1 s2 : list ascii) :
  go s2 = true -> glob_star go (s1 ++ s2) = true.
Proof.
  intros E. induction s1 as [| c s1 IH]; [by apply glob_star_here |].
  cbn. rewrite IH. apply orb_true_r.
Qed.

Lemma glob_go_literal_self (lit : string) (fuel : nat) :
  glob_plain lit = true -> (String.length lit < fuel)%nat ->
  glob_go fuel (String.list_ascii_of_string lit) (String.list_ascii_of_string lit) = true.
Proof.
  intros Hp Hf.
  replace fuel with (String.length lit + (fuel - String.length lit))%nat by lia.
  rewrite <- (app_nil_r (String.list_ascii_of_string lit)).
  rewrite glob_go_literal by done.
  destruct (fuel - String.length lit)%nat eqn:E; [lia | reflexivity].
Qed.

Lemma glob_go_star (fuel : nat) (p s : list ascii) :
  glob_go (S fuel) ("*"%char :: p) s = glob_star (glob_go fuel p) s.
Proof. reflexivity. Qed.

(** A pattern made of a literal, a star and a literal matches the keys that
    begin with the one and end with the other. *)
Lemma glob_match_between (a b m : string) :
  glob_plain a = true -> glob_plain b = true ->
  glob_match (a +:+ "*" +:+ b) (a +:+ m +:+ b) = true.
Proof.
  intros Ha Hb. unfold glob_match. rewrite !list_ascii_app.
  rewrite !string_length_app.
  replace (S (String.length a + (String.length "*" + String.length b)))
    with (String.length a + (S (S (String.length b))))%nat by (cbn; lia).
  rewrite glob_go_literal by done.
  change (String.list_ascii_of_string "*" ++ String.list_ascii_of_string b)%list
    with ("*"%char :: String.list_ascii_of_string b).
  rewrite glob_go_star.
  apply glob_star_app. apply glob_go_literal_self; [done | lia].
Qed.

Lemma py_split_length (s : string) : length (py_split s) = S (colons s).
Proof.
  induction s as [| c s IH]; [done |]. cbn [py_split colons].
  destruct (Ascii.eqb c ":"%char).
  - cbn. by rewrite IH.
  - destruct (py_split s) as [| w ws]; cbn in *; lia.
Qed.

Lemma glob_match_literal_prefix (lit rest k : string) :
  glob_plain lit = true ->
  glob_match (lit +:+ rest) k = true -> exists s, k = lit +:+ s.
Proof.
  intros Hp E. unfold glob_match in E. rewrite list_ascii_app in E.
  destruct (glob_go_plain_inv lit _ _ _ Hp E) as (s' & _ & Hk & _).
  exists (String.string_of_list_ascii s').
  apply (f_equal String.string_of_list_ascii) in Hk.
  rewrite String.string_of_list_ascii_of_string in Hk. rewrite Hk.
  clear. induction lit as [| c lit IH]; [done |]. rewrite append_cons. cbn. by rewrite IH.
Qed.
(** X15. The symbols of a strategy. For a prefix and a strategy name
    without colon or glob character, [get_symbols] answers, without raising
    and without touching the store, a list without repeats that holds every
    symbol (itself without colon) that has a LastPointer; each name of the
    list is the third part of a key of the store that matches
    [prefix:strategy:*:LAST]. *)
Theorem get_symbols_lists (self : client) (r : redis) :
  let pattern := key_prefix self +:+ ":" +:+ strategy_name self +:+ ":*:LAST" in
  key_part (key_prefix self) -> key_part (strategy_name self) ->
  glob_plain (key_prefix self) = true -> glob_plain (strategy_name self) = true ->
  exists syms,
    get_symbols self r = (Ok syms, r)
    /\ NoDup syms
    /\ (forall s, key_part s -> is_Some (db r !! last_key self s) -> s ∈ syms)
    /\ (forall s, s ∈ syms ->
          exists k, is_Some (db r !! k) /\ glob_match pattern k = true
                    /\ py_split k !! 2%nat = Some s).
Proof.
  intros pattern [N1 C1] [N2 C2] G1 G2.
  set (lit := key_prefix self +:+ ":" +:+ strategy_name self +:+ ":").
  assert (Hlit : glob_plain lit = true).
  { unfold lit. rewrite !glob_plain_app, G1, G2. reflexivity. }
  assert (Hpat : pattern = lit +:+ "*" +:+ ":LAST").
  { unfold pattern, lit. by rewrite !append_assoc. }
  set (keys := List.filter (glob_match pattern) (elements (dom (db r)))).
  assert (Hstored : forall k, k ∈ keys <-> is_Some (db r !! k) /\ glob_match pattern k = true).
  { intros k. unfold keys. rewrite list_elem_of_In, filter_In, <- list_elem_of_In.
    by rewrite elem_of_elements, elem_of_dom. }
  assert (Hthird : forall k, k ∈ keys -> is_Some (py_split k !! 2%nat)).
  { intros k [_ Hm]%Hstored. rewrite Hpat in Hm.
    apply glob_match_literal_prefix in Hm as [s ->]; [| done].
    unfold lit. rewrite !append_assoc.
    rewrite py_split_app by done. rewrite py_split_app by done.
    destruct (py_split s) as [| w ws] eqn:E; [by apply py_split_nonempty in E |].
    by eexists. }
  destruct (forM_reads_ok (fun x => need (py_split x !! 2%nat) "IndexError") keys r)
    as (symbols & Hrun & Hall).
  { intros k Hk. destruct (Hthird k Hk) as [s Hs]. exists s. by apply need_some. }
  exists (elements (list_to_set symbols : gset string)).
  split; [| split; [| split]].
  - unfold get_symbols. fold pattern.
    rewrite (bind_ok _ _ _ _ _ (get_keys_eq _ r)). fold keys.
    by rewrite (bind_ok _ _ _ _ _ Hrun).
  - apply NoDup_elements.
  - intros s [N3 C3] Hex. apply elem_of_elements, elem_of_list_to_set.
    assert (Hk : last_key self s ∈ keys).
    { apply Hstored. split; [done |]. rewrite Hpat.
      replace (last_key self s) with (lit +:+ s +:+ ":LAST")
        by (unfold last_key, lit; by rewrite !append_assoc).
      by apply glob_match_between. }
    apply list_elem_of_lookup in Hk as [i Hi].
    destruct (Forall2_lookup_l _ _ _ _ _ Hall Hi) as (s' & Hs' & Hneed).
    assert (Hsp : py_split (last_key self s) !! 2%nat = Some s).
    { unfold last_key. rewrite py_split_app by done. rewrite py_split_app by done.
      change (s +:+ ":LAST") with (s +:+ ":" +:+ "LAST").
      by rewrite py_split_app by done. }
    rewrite Hsp in Hneed. injection Hneed as <-.
    apply list_elem_of_lookup. eauto.
  - intros s Hs. apply elem_of_elements, elem_of_list_to_set in Hs.
    apply list_elem_of_lookup in Hs as [i Hi].
    destruct (Forall2_lookup_r _ _ _ _ _ Hall Hi) as (k & Hk & Hneed).
    assert (Hkin : k ∈ keys) by (apply list_elem_of_lookup; eauto).
    apply Hstored in Hkin as [Hex Hm]. exists k. split; [done |]. split; [done |].
    destruct (py_split k !! 2%nat) as [s' |] eqn:E; [| done].
    cbn in Hneed. by injection Hneed as <-.
Qed.
(** *** A strategy without records *)

Lemma List_filter_none {A} (f : A -> bool) (l : list A) :
  (forall x, x ∈ l -> f x = false) -> List.filter f l = [].
Proof.
  induction l as [| x l IH]; intros Hl; [done |].
  cbn. rewrite (Hl x) by left. apply IH. intros y Hy. apply Hl. by right.
Qed.

(** X16. No records, no matrix. Where no key that matches
    [prefix:strategy:*:*] has a last part of 14 characters (a strategy that
    never published, among others) [get_all_weights] does not answer an
    empty frame: it raises KeyError, the frame built from no record having
    no column [dt]. The store is left as it is. *)
Theorem get_all_weights_without_records (self : client) (sdt edt : string) (r : redis) :
  let pattern := key_prefix self +:+ ":" +:+ strategy_name self +:+ ":*:*" in
  let keys := List.filter (glob_match pattern) (elements (dom (db r))) in
  (forall k, k ∈ keys ->
     exists lp, lua_last_part k = Some lp /\ String.length lp <> 14%nat) ->
  get_all_weights self sdt edt r = (Raise "KeyError: 'dt'", r).
Proof.
  intros pattern keys Hkeys.
  assert (Hnone : forall k, k ∈ keys -> has_time_suffix k = false).
  { intros k Hk. destruct (Hkeys k Hk) as (lp & Hlp & Hlen).
    unfold has_time_suffix. rewrite Hlp. by rewrite bool_decide_eq_false_2. }
  pose proof (lua_all_weights_selects pattern r) as Hsel. cbv zeta in Hsel.
  fold keys in Hsel.
  rewrite (List_filter_none has_time_suffix keys Hnone) in Hsel.
  unfold get_all_weights. fold pattern.
  erewrite bind_ok.
  2:{ apply Hsel.
      - intros k Hk. destruct (Hkeys k Hk) as (lp & Hlp & _). eauto.
      - intros k lp Hk Hlp Hlen. destruct (Hkeys k Hk) as (lp' & Hlp' & Hne).
        congruence.
      - intros k Hk Ht. rewrite (Hnone k Hk) in Ht. discriminate Ht. }
  reflexivity.
Qed.

(** *** What a wipe leaves alone *)

Lemma SREM_inv key member r n r' :
  SREM key member r = (Ok n, r') ->
  published r' = published r
  /\ (forall k, k <> key -> db r' !! k = db r !! k)
  /\ (forall s m, db r !! key = Some (RSet s) -> m ∈ s -> m <> member ->
        exists s', db r' !! key = Some (RSet s') /\ m ∈ s').
Proof.
  unfold SREM. destruct (db r !! key) as [[| | | s] |] eqn:E; try done.
  - case_bool_decide as Hin; intros [= <- <-].
    + split; [done |]. split.
      * intros k Hk. cbn. case_bool_decide.
        -- by rewrite lookup_delete_ne.
        -- by rewrite lookup_insert_ne.
      * intros s0 m [= <-] Hm Hne. cbn. case_bool_decide as He.
        -- exfalso. assert (m ∈ s ∖ {[member]}) by set_solver. set_solver.
        -- rewrite lookup_insert_eq. eexists. split; [done |]. set_solver.
    + split; [done |]. split; [done |]. intros s0 m [= <-] Hm _. rewrite E. eauto.
  - intros [= <- <-]. split; [done |]. split; [done |]. intros s m Hs. congruence.
Qed.

(** X17. What a wipe leaves alone. [clear_all], whatever it is answered,
    publishes nothing, and changes no key other than those that begin with
    [prefix:strategy], the metadata record, the last-update marker, the
    heartbeat key and the directory of names; and, unless the key of the
    directory itself begins with [prefix:strategy], the other strategies
    stay in the directory. *)
Theorem clear_all_leaves_others (self : client) (with_human : bool) (human : string)
    (r r' : redis) :
  let base := key_prefix self +:+ ":" +:+ strategy_name self in
  let names := key_prefix self +:+ ":StrategyNames" in
  glob_plain base = true ->
  clear_all self with_human human r = (Ok tt, r') ->
  published r' = published r
  /\ (forall k,
        String.prefix base k = false ->
        k <> key_prefix self +:+ ":META:" +:+ strategy_name self ->
        k <> key_prefix self +:+ ":LAST:" +:+ strategy_name self ->
        k <> key_prefix self +:+ ":" +:+ heartbeat_prefix self +:+ ":" +:+
             strategy_name self ->
        k <> names ->
        db r' !! k = db r !! k)
  /\ (String.prefix base names = false ->
      forall s m, db r !! names = Some (RSet s) -> m ∈ s -> m <> strategy_name self ->
                  exists s', db r' !! names = Some (RSet s') /\ m ∈ s').
Proof.
  intros base names Hplain E.
  set (matched := List.filter (glob_match (base +:+ "*")) (elements (dom (db r)))).
  set (keys := (matched ++
                [key_prefix self +:+ ":META:" +:+ strategy_name self] ++
                [key_prefix self +:+ ":LAST:" +:+ strategy_name self] ++
                [key_prefix self +:+ ":" +:+ heartbeat_prefix self +:+ ":" +:+
                 strategy_name self])%list).
  assert (Hkeys : keys_to_clear self r = (Ok keys, r)).
  { assert (Hpat : base +:+ "*" =
                    key_prefix self +:+ ":" +:+ strategy_name self +:+ "*")
      by (unfold base; by rewrite !append_assoc).
    unfold keys_to_clear. rewrite <- Hpat.
    rewrite (bind_ok _ _ _ _ _ (get_keys_eq _ r)). unfold keys, matched.
    by rewrite <- !app_assoc. }
  assert (Hmatched : forall k, k ∈ matched -> String.prefix base k = true).
  { intros k Hk. unfold matched in Hk.
    apply list_elem_of_In, filter_In in Hk as [_ Hm].
    apply glob_match_literal_prefix in Hm as [s ->]; [| done]. apply prefix_app. }
  unfold clear_all in E. rewrite (bind_ok _ _ _ _ _ Hkeys) in E.
  assert (Hwipe : forall r0, wipe self keys r = (Ok tt, r0) ->
            published r0 = published r
            /\ (forall k, k ∉ keys -> k <> names -> db r0 !! k = db r !! k)
            /\ (names ∉ keys ->
                forall s m, db r !! names = Some (RSet s) -> m ∈ s ->
                            m <> strategy_name self ->
                            exists s', db r0 !! names = Some (RSet s') /\ m ∈ s')).
  { intros r0 Ew. unfold wipe in Ew.
    destruct (DEL_eq keys r) as [n Hdel]. rewrite (bind_ok _ _ _ _ _ Hdel) in Ew.
    apply bind_inv in Ew as (cong & r2 & Es & Ew). rewrite logger_eq in Ew.
    injection Ew as <-. fold names in Es.
    apply SREM_inv in Es as (Hpub & Hother & Hmem). cbn in Hpub, Hother, Hmem.
    split; [done |]. split.
    - intros k Hk Hn. cbn. rewrite Hother by done. rewrite lookup_foldr_delete.
      by rewrite decide_False.
    - intros Hn s m Hs Hm Hne. cbn. apply (Hmem s m); [| done | done].
      rewrite lookup_foldr_delete.
      by rewrite decide_False. }
  assert (Hout : forall k,
             String.prefix base k = false ->
             k <> key_prefix self +:+ ":META:" +:+ strategy_name self ->
             k <> key_prefix self +:+ ":LAST:" +:+ strategy_name self ->
             k <> key_prefix self +:+ ":" +:+ heartbeat_prefix self +:+ ":" +:+
                  strategy_name self ->
             k ∉ keys).
  { intros k Hp H1 H2 H3 Hin. unfold keys in Hin.
    rewrite !elem_of_app, !list_elem_of_singleton in Hin.
    destruct Hin as [Hin | [-> | [-> | ->]]]; try done.
    apply Hmatched in Hin. congruence. }
  assert (Hnames : String.prefix base names = false -> names ∉ keys).
  { intros Hp. apply Hout; [done | | |].
    - intros Eq. symmetry in Eq. by apply meta_key_ne_names in Eq.
    - unfold names. intros Eq. apply append_inj_l in Eq. discriminate Eq.
    - unfold names. intros Eq. apply append_inj_l in Eq.
      apply (f_equal colons) in Eq. rewrite !colons_app in Eq. cbn in Eq. lia. }
  assert (Hdone : wipe self keys r = (Ok tt, r') ->
                  published r' = published r
                  /\ (forall k,
                        String.prefix base k = false ->
                        k <> key_prefix self +:+ ":META:" +:+ strategy_name self ->
                        k <> key_prefix self +:+ ":LAST:" +:+ strategy_name self ->
                        k <> key_prefix self +:+ ":" +:+ heartbeat_prefix self +:+ ":" +:+
                             strategy_name self ->
                        k <> names ->
                        db r' !! k = db r !! k)
                  /\ (String.prefix base names = false ->
                      forall s m, db r !! names = Some (RSet s) -> m ∈ s ->
                                  m <> strategy_name self ->
                                  exists s', db r' !! names = Some (RSet s') /\ m ∈ s')).
  { intros Ew. destruct (Hwipe r' Ew) as (Hpub & Hframe & Hmem).
    split; [done |]. split.
    - intros k Hp H1 H2 H3 H4. apply Hframe; [by apply Hout | done].
    - intros Hp. by apply Hmem, Hnames. }
  case_bool_decide.
  { rewrite logger_eq in E. injection E as <-. cbn. split; [done |]. split; [done |].
    intros _ s m Hs Hm _. eauto. }
  destruct with_human; [| by apply Hdone].
  case_bool_decide; [| by apply Hdone].
  rewrite logger_eq in E. injection E as <-. cbn. split; [done |]. split; [done |].
  intros _ s m Hs Hm _. eauto.
Qed.

(** *** A reference the encoder refuses *)

Lemma forM_encode_event_refused (a b c : pynum) (u : string) (x : pyobj) (r : redis) :
  encode_arg x r = (Raise "DataError: Invalid input", r) ->
  forM encode_arg [PNum a; PStr u; PNum b; PNum c; x] r =
    (Raise "DataError: Invalid input", r).
Proof.
  intros Hx. cbn [forM]. unfold bind at 1. cbn [encode_arg ret].
  unfold bind at 1. unfold bind at 1. cbn [encode_arg ret].
  unfold bind at 1. unfold bind at 1. cbn [encode_arg ret].
  unfold bind at 1. unfold bind at 1. cbn [encode_arg ret].
  unfold bind at 1. unfold bind at 1. rewrite Hx. reflexivity.
Qed.

(** X18. A reference that cannot be sent. [publish] of an event whose
    reference is True or a list that is not empty, when the event is not
    stale (or [overwrite] is set), raises the DataError of the encoder of
    redis-py before the script is called: the store is left as it is. *)
Theorem publish_refuses_reference (self : client) (symbol : string) (dt : Z)
    (weight price : pynum) (ref : pyobj) (overwrite : bool) (now : Z) (r : redis)
    (last : option Z) :
  ref = PBool true \/ (exists x l, ref = PList (x :: l)) ->
  overwrite = true \/
  (get_last_times_str self symbol r = (Ok last, r) /\
   forall t, last = Some t -> (t < dt)%Z) ->
  publish self symbol dt weight price ref overwrite now r =
    (Raise "DataError: Invalid input", r).
Proof.
  intros Href Hcase.
  assert (Hsend : publish_send self symbol dt weight price ref overwrite now r =
                  (Raise "DataError: Invalid input", r)).
  { unfold publish_send. apply bind_raise, forM_encode_event_refused.
    destruct Href as [-> | (x & l & ->)]; reflexivity. }
  unfold publish. destruct overwrite; cbn [negb]; [exact Hsend |].
  destruct Hcase as [? | [Hlast Hlt]]; [done |].
  rewrite (bind_ok _ _ _ _ _ Hlast).
  destruct last as [t |]; [| exact Hsend].
  rewrite bool_decide_eq_false_2; [exact Hsend |].
  specialize (Hlt t eq_refl). lia.
Qed.

(** *** The time written in a record *)

Lemma substring_here (a b : string) :
  String.substring 0 (String.length a) (a +:+ b) = a.
Proof.
  induction a as [| c a IH]; [by destruct b |].
  rewrite append_cons. cbn. by rewrite IH.
Qed.

Lemma substring_skip (a b : string) (n : nat) :
  String.substring (String.length a) n (a +:+ b) = String.substring 0 n b.
Proof.
  induction a as [| c a IH]; [done |]. rewrite append_cons. cbn. apply IH.
Qed.

Lemma append_empty_r (a : string) : a +:+ "" = a.
Proof. induction a as [| c a IH]; [done |]. rewrite append_cons. by rewrite IH. Qed.

Lemma lua_sub_part (front part rest : string) (i j : nat) :
  i = S (String.length front) -> j = (String.length front + String.length part)%nat ->
  lua_sub (front +:+ part +:+ rest) i j = part.
Proof.
  intros -> ->. unfold lua_sub.
  replace (S (String.length front) - 1)%nat with (String.length front) by lia.
  replace (S (String.length front + String.length part) - S (String.length front))%nat
    with (String.length part) by lia.
  rewrite substring_skip. apply substring_here.
Qed.

(** X19. The time written in a record. For a time stamp of 14 characters,
    year, month, day, hour, minute and second, the script writes in the
    field [dt] of the record and of the LastPointer the same parts as
    [YYYY-MM-DD HH:MM:SS]. *)
Theorem lua_at_str_format (y m d h mi s : string) :
  String.length y = 4%nat -> String.length m = 2%nat -> String.length d = 2%nat ->
  String.length h = 2%nat -> String.length mi = 2%nat -> String.length s = 2%nat ->
  lua_at_str (y +:+ m +:+ d +:+ h +:+ mi +:+ s) =
  y +:+ "-" +:+ m +:+ "-" +:+ d +:+ " " +:+ h +:+ ":" +:+ mi +:+ ":" +:+ s.
Proof.
  intros Hy Hm Hd Hh Hmi Hs. unfold lua_at_str.
  set (t := y +:+ m +:+ d +:+ h +:+ mi +:+ s).
  assert (H1 : lua_sub t 1 4 = y).
  { change t with ("" +:+ y +:+ m +:+ d +:+ h +:+ mi +:+ s).
    apply lua_sub_part; cbn; lia. }
  assert (H2 : lua_sub t 5 6 = m) by (apply lua_sub_part; lia).
  assert (H3 : lua_sub t 7 8 = d).
  { replace t with ((y +:+ m) +:+ d +:+ h +:+ mi +:+ s)
      by (unfold t; by rewrite !append_assoc).
    apply lua_sub_part; rewrite ?string_length_app; lia. }
  assert (H4 : lua_sub t 9 10 = h).
  { replace t with ((y +:+ m +:+ d) +:+ h +:+ mi +:+ s)
      by (unfold t; by rewrite !append_assoc).
    apply lua_sub_part; rewrite ?string_length_app; lia. }
  assert (H5 : lua_sub t 11 12 = mi).
  { replace t with ((y +:+ m +:+ d +:+ h) +:+ mi +:+ s)
      by (unfold t; by rewrite !append_assoc).
    apply lua_sub_part; rewrite ?string_length_app; lia. }
  assert (H6 : lua_sub t 13 14 = s).
  { replace t with ((y +:+ m +:+ d +:+ h +:+ mi) +:+ s +:+ "")
      by (unfold t; by rewrite !append_assoc, append_empty_r).
    apply lua_sub_part; rewrite ?string_length_app; lia. }
  by rewrite H1, H2, H3, H4, H5, H6.
Qed.

(** *** The last weights *)

Lemma forM_same_store {A B} (f : A -> M B) (l : list A) :
  (forall x r o r', f x r = (o, r') -> r' = r) ->
  forall r ys r', forM f l r = (Ok ys, r') ->
  r' = r /\ Forall2 (fun x y => f x r = (Ok y, r)) l ys.
Proof.
  intros Hf. induction l as [| x l IH]; intros r ys r' E; cbn in E.
  - injection E as <- <-. split; [done | constructor].
  - apply bind_inv in E as (y & r1 & E1 & E).
    pose proof (Hf _ _ _ _ E1) as ->.
    apply bind_inv in E as (ys' & r2 & E2 & E). injection E as <- <-.
    apply IH in E2 as [-> Hall]. split; [done |]. by constructor.
Qed.

Lemma float_or_none_inv (x : option string) (r : redis) (w : option Q) (r' : redis) :
  float_or_none x r = (Ok w, r') -> r' = r /\ w = x ≫= py_float.
Proof.
  unfold float_or_none. destruct x as [s |]; [| by intros [= <- <-]].
  intros E. apply bind_inv in E as (q & r1 & E1 & E).
  apply need_inv in E1 as [Hq ->]. injection E as <- <-. cbn. by rewrite Hq.
Qed.

Lemma datetime_or_none_inv (x : option string) (r : redis) (t : option Z) (r' : redis) :
  datetime_or_none x r = (Ok t, r') -> r' = r /\ t = x ≫= to_datetime.
Proof.
  unfold datetime_or_none. destruct x as [s |]; [| by intros [= <- <-]].
  intros E. apply bind_inv in E as (q & r1 & E1 & E).
  apply need_inv in E1 as [Hq ->]. injection E as <- <-. cbn. by rewrite Hq.
Qed.

Lemma float_or_none_same (x : option string) r o r' :
  float_or_none x r = (o, r') -> r' = r.
Proof.
  unfold float_or_none, bind, need, ret, raise.
  destruct x as [s |]; [destruct (py_float s) |]; intros ?; by simplify_eq.
Qed.

Lemma datetime_or_none_same (x : option string) r o r' :
  datetime_or_none x r = (o, r') -> r' = r.
Proof.
  unfold datetime_or_none, bind, need, ret, raise.
  destruct x as [s |]; [destruct (to_datetime s) |]; intros ?; by simplify_eq.
Qed.

#[local] Instance ldt_symbol_le_total : Total ldt_symbol_le.
Proof.
  intros [a1 a2] [b1 b2]. unfold ldt_symbol_le. cbn.
  assert (Hz : none_lt a1 b1 \/ a1 = b1 \/ none_lt b1 a1).
  { destruct a1 as [x |], b1 as [y |]; cbn; auto.
    destruct (Z.lt_trichotomy x y) as [? | [-> | ?]]; auto. }
  assert (Hs : none_last_le a2 b2 \/ none_last_le b2 a2).
  { destruct a2 as [x |], b2 as [y |]; cbn; auto. apply String.leb_total. }
  destruct Hz as [? | [-> | ?]]; [by left; left | | by right; left].
  destruct Hs; [left | right]; right; by split.
Qed.

(** What [last_frame] answers: the rows come from the records, in order. *)
Lemma last_frame_inv (rows : list (gmap string string)) (ignore_zero : bool)
    (r : redis) (out : list lrow) (r' : redis) :
  last_frame rows ignore_zero r = (Ok out, r') ->
  r' = r
  /\ Sorted (key_le ldt_symbol_le (fun x => (l_dt x, l_symbol x))) out
  /\ (forall y, y ∈ out ->
        l_record y ∈ rows
        /\ l_symbol y = l_record y !! "symbol"
        /\ l_weight y = l_record y !! "weight" ≫= py_float
        /\ l_dt y = l_record y !! "dt" ≫= to_datetime
        /\ (ignore_zero = true -> weight_not_zero y = true)).
Proof.
  unfold last_frame. intros E.
  destruct (has_column "weight" rows); cbn [negb] in E; [| done].
  apply bind_inv in E as (weights & r1 & E1 & E).
  apply (forM_same_store (fun x => float_or_none (x !! "weight"))) in E1 as [-> Hw];
    [| intros ? ? ? ?; apply float_or_none_same].
  destruct (has_column "dt" rows); cbn [negb] in E; [| done].
  apply bind_inv in E as (dts & r2 & E2 & E).
  apply (forM_same_store (fun x => datetime_or_none (x !! "dt"))) in E2 as [-> Hd];
    [| intros ? ? ? ?; apply datetime_or_none_same].
  destruct (has_column "symbol" rows); cbn [negb] in E; [| done].
  injection E as <- <-. split; [done |].
  split; [unfold sort_values; apply Sorted_merge_sort; apply _ |].
  intros y Hy. unfold sort_values in Hy. rewrite merge_sort_Permutation in Hy.
  assert (Hall : forall y,
             y ∈ (fun x : option Q * option Z * gmap string string =>
                    LRow x.1.2 (x.2 !! "symbol") x.1.1 x.2) <$> zip (zip weights dts) rows ->
             l_record y ∈ rows
             /\ l_symbol y = l_record y !! "symbol"
             /\ l_weight y = l_record y !! "weight" ≫= py_float
             /\ l_dt y = l_record y !! "dt" ≫= to_datetime).
  { clear Hy y. intros y ([[w d] x] & -> & Hin)%list_elem_of_fmap. cbn.
    apply list_elem_of_lookup in Hin as [i Hi].
    apply lookup_zip_with_Some in Hi as (wd & x' & [= <- <-] & Hwd & Hx).
    apply lookup_zip_with_Some in Hwd as (w' & d' & [= <- <-] & Hwi & Hdi).
    destruct (Forall2_lookup_r _ _ _ _ _ Hw Hwi) as (x1 & Hx1 & Hrun1).
    destruct (Forall2_lookup_r _ _ _ _ _ Hd Hdi) as (x2 & Hx2 & Hrun2).
    rewrite Hx in Hx1, Hx2. injection Hx1 as <-. injection Hx2 as <-.
    apply float_or_none_inv in Hrun1 as [_ ->].
    apply datetime_or_none_inv in Hrun2 as [_ ->].
    split; [apply list_elem_of_lookup; eauto | done]. }
  destruct ignore_zero.
  - apply list_elem_of_In, filter_In in Hy as [Hy Hnz]. apply list_elem_of_In in Hy.
    destruct (Hall y Hy) as (H1 & H2 & H3 & H4). by repeat split.
  - destruct (Hall y Hy) as (H1 & H2 & H3 & H4). by repeat split.
Qed.
Lemma reads_HGETALL_flat key : reads_db (HGETALL_flat key).
Proof.
  unfold HGETALL_flat. apply reads_bind; [apply reads_HGETALL |].
  intros h. apply reads_ret.
Qed.

Lemma reads_lua_last_weights pattern : reads_db (lua_last_weights pattern).
Proof.
  unfold lua_last_weights. apply reads_bind; [apply reads_KEYS |].
  intros keys. apply reads_forM. apply reads_HGETALL_flat.
Qed.

Lemma reads_same {A} (m : M A) (r : redis) o r' : reads_db m -> m r = (o, r') -> r' = r.
Proof. intros Hm E. destruct (Hm r) as [Hs _]. rewrite E in Hs. done. Qed.

Lemma symbol_filter_inv (symbols : list string) (rows : list (gmap string string))
    (r : redis) kept r' :
  forM (fun x : gmap string string =>
          s <- need (x !! "symbol") "KeyError: 'symbol'" ;;
          ret (x, bool_decide (s ∈ symbols))) rows r = (Ok kept, r') ->
  r' = r
  /\ forall x, x ∈ (List.filter snd kept).*1 ->
       x ∈ rows /\ exists s, x !! "symbol" = Some s /\ s ∈ symbols.
Proof.
  intros E.
  apply (forM_same_store
           (fun x : gmap string string =>
              s <- need (x !! "symbol") "KeyError: 'symbol'" ;;
              ret (x, bool_decide (s ∈ symbols)))) in E as [-> Hall].
  2:{ intros x r0 o r0'. unfold bind, need, ret, raise.
      destruct (x !! "symbol"); intros ?; by simplify_eq. }
  split; [done |].
  intros x ([x' b] & -> & Hin)%list_elem_of_fmap. cbn.
  apply list_elem_of_In, filter_In in Hin as [Hin Hb]. cbn in Hb. subst b.
  apply list_elem_of_In, list_elem_of_lookup in Hin as [i Hi].
  destruct (Forall2_lookup_r _ _ _ _ _ Hall Hi) as (x0 & Hx0 & Hrun).
  apply bind_inv in Hrun as (s & r1 & E1 & Hrun).
  apply need_inv in E1 as [Hs ->]. injection Hrun as <- Hb.
  split; [apply list_elem_of_lookup; eauto |].
  exists s. split; [done |]. by apply bool_decide_eq_true in Hb.
Qed.

(** X20. The frame of the last weights. When [get_last_weights] answers, it
    has left the store as it is; its rows are in ascending order of time and
    then symbol, missing cells last; each row shows the symbol of its
    record, its weight as a float and its time as pandas reads it; with
    [ignore_zero] no row has the weight 0; and, read through the Lua script
    with a list of symbols, every row is of one of those symbols. *)
Theorem get_last_weights_rows (self : client) (symbols : list string)
    (ignore_zero lua : bool) (r : redis) (rows : list lrow) (r' : redis) :
  get_last_weights self symbols ignore_zero lua r = (Ok rows, r') ->
  r' = r
  /\ Sorted (key_le ldt_symbol_le (fun x => (l_dt x, l_symbol x))) rows
  /\ (forall y, y ∈ rows ->
        l_symbol y = l_record y !! "symbol"
        /\ l_weight y = l_record y !! "weight" ≫= py_float
        /\ l_dt y = l_record y !! "dt" ≫= to_datetime)
  /\ (ignore_zero = true ->
      forall y q, y ∈ rows -> l_weight y = Some q -> ~ (q == 0)%Q)
  /\ (lua = true -> symbols <> [] ->
      forall y, y ∈ rows -> exists s, l_symbol y = Some s /\ s ∈ symbols).
Proof.
  unfold get_last_weights. intros E.
  apply bind_inv in E as (rows0 & r1 & E1 & E).
  apply last_frame_inv in E as (-> & Hsorted & Hrows).
  assert (Hfirst : r1 = r /\
            (lua = true -> symbols <> [] ->
             forall x, x ∈ rows0 -> exists s, x !! "symbol" = Some s /\ s ∈ symbols)).
  { destruct lua.
    - apply bind_inv in E1 as (results & r2 & E2 & E1).
      apply (reads_same _ _ _ _ (reads_lua_last_weights _)) in E2 as ->.
      destruct symbols as [| s0 symbols].
      + injection E1 as <- <-. split; [done |]. by intros _ ?.
      + apply bind_inv in E1 as (kept & r3 & E3 & E1).
        apply symbol_filter_inv in E3 as [-> Hkept]. injection E1 as <- <-.
        split; [done |]. intros _ _ x Hx. by destruct (Hkept x Hx).
    - split; [| done].
      apply bind_inv in E1 as (syms & r2 & E2 & E1).
      assert (r2 = r) as ->.
      { destruct symbols; [| by injection E2 as _ <-].
        by apply (reads_same _ _ _ _ (reads_get_symbols self)) in E2. }
      apply (reads_same (forM (fun symbol => HGETALL (last_key self symbol)) syms)) in E1;
        [done |].
      apply reads_forM. intros s. apply reads_HGETALL. }
  destruct Hfirst as [-> Hsym].
  split; [done |]. split; [done |]. split; [| split].
  - intros y Hy. destruct (Hrows y Hy) as (_ & H1 & H2 & H3 & _). by repeat split.
  - intros -> y q Hy Hq Hzero. destruct (Hrows y Hy) as (_ & _ & _ & _ & Hnz).
    specialize (Hnz eq_refl). unfold weight_not_zero in Hnz. rewrite Hq in Hnz.
    apply negb_true_iff in Hnz. apply Qeq_bool_iff in Hzero. congruence.
  - intros Hlua Hne y Hy. destruct (Hrows y Hy) as (Hin & H1 & _).
    destruct (Hsym Hlua Hne _ Hin) as (s & Hs & Hs'). exists s. by rewrite H1.
Qed.

(** X21. No LastPointer, no frame. For a strategy of which no key matches
    [prefix:strategy:*:LAST] (it never published), [get_last_weights]
    through the Lua script raises KeyError: the frame built from no record
    has no column [weight]. The store is left as it is. *)
Theorem get_last_weights_without_records (self : client) (symbols : list string)
    (ignore_zero : bool) (r : redis) :
  let pattern := key_prefix self +:+ ":" +:+ strategy_name self +:+ ":*:LAST" in
  (forall k, is_Some (db r !! k) -> glob_match pattern k = false) ->
  get_last_weights self symbols ignore_zero true r = (Raise "KeyError: 'weight'", r).
Proof.
  intros pattern Hnone.
  assert (Hkeys : KEYS pattern r = (Ok [], r)).
  { rewrite KEYS_eq. f_equal. f_equal. apply List_filter_none.
    intros k Hk. apply Hnone. by apply elem_of_elements, elem_of_dom in Hk. }
  unfold get_last_weights. fold pattern.
  erewrite bind_ok.
  2:{ erewrite bind_ok.
      2:{ unfold lua_last_weights. rewrite (bind_ok _ _ _ _ _ Hkeys). reflexivity. }
      destruct symbols; reflexivity. }
  reflexivity.
Qed.


(** *** Publishing only adds to the store *)

Lemma grows_refl (r : redis) : grows r r.
Proof.
  split; [| split; exists []; by rewrite app_nil_r].
  intros k v Hk. destruct v; eauto.
Qed.

Lemma grows_trans (r1 r2 r3 : redis) : grows r1 r2 -> grows r2 r3 -> grows r1 r3.
Proof.
  intros (Hd1 & [p1 Hp1] & [l1 Hl1]) (Hd2 & [p2 Hp2] & [l2 Hl2]).
  split; [| split].
  - intros k v Hk. specialize (Hd1 k v Hk). destruct v as [s | h | z | s].
    + by apply (Hd2 k (RString s)).
    + destruct Hd1 as (h' & Hk' & Hsub). destruct (Hd2 k _ Hk') as (h'' & Hk'' & Hsub').
      exists h''. split; [done |]. set_solver.
    + destruct Hd1 as (z' & Hk' & Hsub). destruct (Hd2 k _ Hk') as (z'' & Hk'' & Hsub').
      exists z''. split; [done |]. set_solver.
    + by apply (Hd2 k (RSet s)).
  - exists (p1 ++ p2)%list. by rewrite Hp2, Hp1, app_assoc.
  - exists (l1 ++ l2)%list. by rewrite Hl2, Hl1, app_assoc.
Qed.

Lemma grows_insert (r : redis) (key : string) (v : rvalue) :
  match db r !! key, v with
  | None, _ => True
  | Some (RHash h), RHash h' => dom h ⊆ dom h'
  | Some (RZSet z), RZSet z' => dom z ⊆ dom z'
  | Some _, _ => False
  end ->
  grows r (set_db <[key := v]> r).
Proof.
  intros Hv. split; [| split; exists []; by rewrite app_nil_r].
  intros k w Hk. cbn. destruct (decide (k = key)) as [-> | Hne].
  - rewrite lookup_insert_eq. rewrite Hk in Hv.
    destruct w, v; try done; eauto.
  - rewrite lookup_insert_ne by done. destruct w; eauto.
Qed.

Lemma dom_hash_set (fvs : list (string * string)) (h : gmap string string) :
  dom h ⊆ dom (hash_set fvs h).
Proof.
  induction fvs as [| fv fvs IH] using rev_ind; [done |].
  destruct fv as [f v]. rewrite hash_set_snoc, dom_insert. set_solver.
Qed.

Lemma only_adds_ret {A} (a : A) : only_adds (ret a).
Proof. intros r o r' [= <- <-]. apply grows_refl. Qed.

Lemma only_adds_raise {A} (e : string) : only_adds (raise e : M A).
Proof. intros r o r' [= <- <-]. apply grows_refl. Qed.

Lemma only_adds_need {A} (o : option A) (e : string) : only_adds (need o e).
Proof. destruct o; [apply only_adds_ret | apply only_adds_raise]. Qed.

Lemma only_adds_bind {A B} (m : M A) (k : A -> M B) :
  only_adds m -> (forall a, only_adds (k a)) -> only_adds (bind m k).
Proof.
  intros Hm Hk r o r' E. rewrite bind_eq in E.
  destruct (m r) as [[a | e] r1] eqn:E1.
  - eapply grows_trans; [by eapply Hm | by eapply Hk].
  - injection E as <- <-. by eapply Hm.
Qed.

Lemma only_adds_forM {A B} (f : A -> M B) (l : list A) :
  (forall x, only_adds (f x)) -> only_adds (forM f l).
Proof.
  intros Hf. induction l as [| x l IH]; [apply only_adds_ret |].
  cbn. apply only_adds_bind; [apply Hf |]. intros y.
  apply only_adds_bind; [apply IH |]. intros ys. apply only_adds_ret.
Qed.

Lemma only_adds_reads {A} (m : M A) : reads_db m -> only_adds m.
Proof.
  intros Hm r o r' E. apply (reads_same _ _ _ _ Hm) in E as ->. apply grows_refl.
Qed.

Lemma only_adds_logger (l : level) (msg : string) : only_adds (logger l msg).
Proof.
  intros r o r' [= <- <-]. split; [| split].
  - intros k v Hk. cbn. destruct v; eauto.
  - exists []. cbn. by rewrite app_nil_r.
  - by eexists.
Qed.

Lemma only_adds_PUBLISH (channel message : string) : only_adds (PUBLISH channel message).
Proof.
  intros r o r' [= <- <-]. split; [| split].
  - intros k v Hk. cbn. destruct v; eauto.
  - by eexists.
  - exists []. cbn. by rewrite app_nil_r.
Qed.

Lemma only_adds_ZADD (key : string) (score : Q) (member : string) :
  only_adds (ZADD key score member).
Proof.
  intros r o r' E. unfold ZADD in E.
  destruct (db r !! key) as [[s | h | z | s] |] eqn:Ek; injection E as <- <-;
    try apply grows_refl; apply grows_insert; rewrite Ek; [| done].
  rewrite dom_insert. set_solver.
Qed.

Lemma only_adds_HMSET (key : string) (fvs : list (string * string)) :
  only_adds (HMSET key fvs).
Proof.
  intros r o r' E. unfold HMSET in E.
  destruct (db r !! key) as [[s | h | z | s] |] eqn:Ek; injection E as <- <-;
    try apply grows_refl; apply grows_insert; rewrite Ek; [| done].
  apply dom_hash_set.
Qed.

Lemma only_adds_HSET (key : string) (fvs : list (string * string)) :
  only_adds (HSET key fvs).
Proof.
  intros r o r' E. unfold HSET in E.
  destruct (db r !! key) as [[s | h | z | s] |] eqn:Ek; injection E as <- <-;
    try apply grows_refl; apply grows_insert; rewrite Ek; [| done].
  apply dom_hash_set.
Qed.

Lemma only_adds_lua_if_pass overwrite sig model_key :
  only_adds (lua_if_pass overwrite sig model_key).
Proof.
  intros r o r' E. apply lua_if_pass_reads in E as ->. apply grows_refl.
Qed.

Lemma only_adds_encode_arg (o : pyobj) : only_adds (encode_arg o).
Proof. intros r x r' E. apply encode_arg_reads in E as ->. apply grows_refl. Qed.

Ltac adds :=
  repeat match goal with
    | |- only_adds (bind _ _) => apply only_adds_bind; [| intros ?]
    | |- only_adds (ret _) => apply only_adds_ret
    | |- only_adds (raise _) => apply only_adds_raise
    | |- only_adds (need _ _) => apply only_adds_need
    | |- only_adds (logger _ _) => apply only_adds_logger
    | |- only_adds (PUBLISH _ _) => apply only_adds_PUBLISH
    | |- only_adds (ZADD _ _ _) => apply only_adds_ZADD
    | |- only_adds (HMSET _ _) => apply only_adds_HMSET
    | |- only_adds (HSET _ _) => apply only_adds_HSET
    | |- only_adds (lua_if_pass _ _ _) => apply only_adds_lua_if_pass
    | |- only_adds (encode_arg _) => apply only_adds_encode_arg
    | |- only_adds (forM _ _) => apply only_adds_forM; intros ?
    end.

Lemma only_adds_lua_write update_time sig price ref_str key split_str s1 s2 s3 cnt :
  only_adds (lua_write update_time sig price ref_str key split_str s1 s2 s3 cnt).
Proof. unfold lua_write. adds. case_match; adds. Qed.

Lemma only_adds_lua_publish_key overwrite update_time ARGV i key cnt :
  only_adds (lua_publish_key overwrite update_time ARGV i key cnt).
Proof.
  unfold lua_publish_key. adds. case_match; [apply only_adds_lua_write | adds].
Qed.

Lemma only_adds_lua_publish_loop overwrite update_time ARGV (keys : list string) :
  forall i cnt, only_adds (lua_publish_loop overwrite update_time ARGV i keys cnt).
Proof.
  induction keys as [| key keys IH]; intros i cnt; cbn [lua_publish_loop]; [adds |].
  apply only_adds_bind; [apply only_adds_lua_publish_key |]. intros cnt'. apply IH.
Qed.

Lemma only_adds_lua_publish (KEYS ARGV : list string) : only_adds (lua_publish KEYS ARGV).
Proof. unfold lua_publish. apply only_adds_lua_publish_loop. Qed.

Lemma only_adds_get_last_times_str self symbol : only_adds (get_last_times_str self symbol).
Proof.
  intros r o r' E. apply get_last_times_str_reads in E as ->. apply grows_refl.
Qed.

Lemma only_adds_publish_send self symbol dt weight price ref overwrite now :
  only_adds (publish_send self symbol dt weight price ref overwrite now).
Proof.
  unfold publish_send. apply only_adds_bind; [adds |].
  intros ARGV. apply only_adds_lua_publish.
Qed.

Lemma only_adds_update_last self kwargs now : only_adds (update_last self kwargs now).
Proof. unfold update_last. adds. Qed.

Lemma only_adds_prepare_rows self df overwrite : only_adds (prepare_rows self df overwrite).
Proof.
  unfold prepare_rows.
  apply only_adds_bind; [adds |]. intros u1.
  apply only_adds_bind.
  { unfold dedup_frame. apply only_adds_bind; [| intros; adds].
    unfold pd_concat. case_match; adds. }
  intros rows. apply only_adds_bind; [adds |]. intros u2.
  destruct (negb overwrite); [| adds].
  apply only_adds_bind; [apply only_adds_reads, reads_get_last_times |]. intros _time.
  apply only_adds_bind; [| intros; adds].
  unfold filter_stale, pd_concat. case_match; adds.
Qed.

Lemma only_adds_publish_chunks keys args overwrite udt batch_size starts :
  forall cnt, only_adds (publish_chunks keys args overwrite udt batch_size starts cnt).
Proof.
  induction starts as [| i starts IH]; intros cnt; cbn [publish_chunks]; [adds |].
  apply only_adds_bind; [| intros ?; apply IH].
  unfold publish_chunk. case_match.
  apply only_adds_bind; [adds |]. intros u.
  apply only_adds_bind; [adds |]. intros ARGV.
  apply only_adds_bind; [apply only_adds_lua_publish |]. intros n. adds.
Qed.

(** X23. Publishing only adds to the store. Whatever [publish] and
    [publish_dataframe] answer, a count or an error, and so also when the
    script stops half way, the store they leave holds all that it held: no
    key has gone or changed its type, no record has lost a field, no
    SymbolIndex a member, and the messages published and the lines logged
    before are still there, in their order. *)
Theorem publishing_only_adds (self : client) :
  (forall symbol dt weight price ref overwrite now,
      only_adds (publish self symbol dt weight price ref overwrite now))
  /\ (forall df overwrite batch_size now now_last,
         only_adds (publish_dataframe self df overwrite batch_size now now_last)).
Proof.
  split.
  - intros symbol dt weight price ref overwrite now. unfold publish.
    destruct (negb overwrite); [| apply only_adds_publish_send].
    apply only_adds_bind; [apply only_adds_get_last_times_str |].
    intros [last_dt |]; [| apply only_adds_publish_send].
    case_bool_decide; [adds | apply only_adds_publish_send].
  - intros df overwrite batch_size now now_last. unfold publish_dataframe.
    apply only_adds_bind; [apply only_adds_prepare_rows |]. intros rows.
    unfold send_rows. case_bool_decide; [adds |].
    apply only_adds_bind; [apply only_adds_publish_chunks |]. intros cnt.
    apply only_adds_bind; [apply only_adds_update_last |]. intros u. adds.
Qed.

End Results.

(** ** The client at work on the sample runtime *)

(** C4. [publish_dataframe] with [overwrite=False] does not send the events
    in the order of their times. On an empty store, for the frame of an
    event of B on day 1 and an event of A on day 2, the rows it prepares are
    the event of A, then the event of B, and its two messages are published
    in that order: the second filter puts the groups of the symbols one
    after the other and the frame is not sorted again. With
    [overwrite=True], where that filter is not run, the same frame is sent
    in the order of the times: B, then A. *)
Theorem publish_dataframe_order_lost :
  let df := DataFrame [Sample.event "B" 1 (3 # 10); Sample.event "A" 2 (1 # 2)] true true in
  let send overwrite :=
    @publish_dataframe Sample.runtime Sample.strategy df overwrite 100 Sample.now
      Sample.now in
  (Sample.day 1 < Sample.day 2)%Z
  /\ Sample.answer (@prepare_rows Sample.runtime Sample.strategy df false) Sample.empty =
       Ok [Sample.event "A" 2 (1 # 2); Sample.event "B" 1 (3 # 10)]
  /\ Sample.answer (send false) Sample.empty = Ok 2%nat
  /\ published (Sample.after (send false) Sample.empty) =
       [("PUBSUB:Weights:S1:A", "Weights:S1:A:20230102093000:0.5:0:{}");
        ("PUBSUB:Weights:S1:B", "Weights:S1:B:20230101093000:0.3:0:{}")]
  /\ published (Sample.after (send true) Sample.empty) =
       [("PUBSUB:Weights:S1:B", "Weights:S1:B:20230101093000:0.3:0:{}");
        ("PUBSUB:Weights:S1:A", "Weights:S1:A:20230102093000:0.5:0:{}")].
Proof. repeat split; vm_compute; reflexivity. Qed.

(** ** Witnesses *)

Ltac premise H tac := lapply H; [clear H; intros H | tac].


Lemma publish_stale_returns_zero_witness :
  @publish Sample.runtime Sample.strategy "A" (Sample.day 1) (PyFloat (3 # 4)) (PyInt 0)
    PNone false Sample.now Sample.one_event =
    (Ok 0%nat,
     log_line WARNING "不允许重复写入，已过滤 {symbol} {dt} 的重复信号" Sample.one_event).
Proof.
  eapply (@publish_stale_returns_zero Sample.runtime Sample.strategy "A" (Sample.day 1)
            _ _ _ Sample.now Sample.one_event _ "2023-01-01 09:30:00" (Sample.day 1)).
  - vm_compute. reflexivity.
  - vm_compute. reflexivity.
  - vm_compute. reflexivity.
  - lia.
Defined.

Lemma publish_dataframe_drops_repeats_witness :
  let a1 := Sample.event "A" 1 (1 # 2) in
  let a2 := Sample.event "A" 2 (1 # 2) in
  let a3 := Sample.event "A" 3 (7 # 10) in
  let b4 := Sample.event "B" 4 (3 # 10) in
  deduped [b4; a3; a2; a1] = [a1; a3; b4]
  /\ dedup_frame [b4; a3; a2; a1] Sample.empty = (Ok [a1; a3; b4], Sample.empty).
Proof.
  intros a1 a2 a3 b4.
  assert (Hd : deduped [b4; a3; a2; a1] = [a1; a3; b4]) by (vm_compute; reflexivity).
  split; [exact Hd |]. rewrite <- Hd.
  pose proof (@publish_dataframe_drops_repeats Sample.runtime Sample.strategy
                (DataFrame [b4; a3; a2; a1] true true) false 100%nat Sample.now Sample.now
                Sample.empty) as Hthm.
  premise Hthm ltac:(intros Hnil; discriminate Hnil).
  exact (proj1 Hthm).
Defined.

Lemma publish_transaction_effects_witness :
  let ARGV := ["0"; "2024-03-03 12:00:00"; "0.5"; "0"; "{}"] in
  let key := "Weights" +:+ ":" +:+ "S1" +:+ ":" +:+ "A" +:+ ":" +:+ "20230101093000" in
  exists r',
    @lua_publish_key Sample.runtime (Some "0") (Some "2024-03-03 12:00:00") ARGV 1 key 0
      Sample.empty = (Ok 1%nat, r')
    /\ published r' =
         [("PUBSUB:" +:+ "Weights" +:+ ":" +:+ "S1" +:+ ":" +:+ "A",
           key +:+ ":" +:+ "0.5" +:+ ":" +:+ "0" +:+ ":" +:+ "{}")].
Proof.
  intros ARGV key.
  pose proof (proj1 (@publish_transaction_effects Sample.runtime) (Some "0")
                "2024-03-03 12:00:00" "0.5" "0" "{}" ARGV 1%nat "Weights" "S1" "A"
                "20230101093000" 0%nat Sample.empty (20230101093000 # 1)%Q) as Hthm.
  cbv zeta in Hthm.
  premise Hthm ltac:(split; vm_compute; reflexivity).
  premise Hthm ltac:(split; vm_compute; reflexivity).
  premise Hthm ltac:(split; vm_compute; reflexivity).
  premise Hthm ltac:(split; vm_compute; reflexivity).
  premise Hthm ltac:(vm_compute; reflexivity).
  premise Hthm ltac:(vm_compute; reflexivity).
  premise Hthm ltac:(vm_compute; reflexivity).
  premise Hthm ltac:(left; vm_compute; reflexivity).
  premise Hthm ltac:(left; vm_compute; reflexivity).
  premise Hthm ltac:(left; vm_compute; reflexivity).
  premise Hthm ltac:(vm_compute; reflexivity).
  premise Hthm ltac:(vm_compute; reflexivity).
  premise Hthm ltac:(vm_compute; reflexivity).
  premise Hthm ltac:(vm_compute; reflexivity).
  destruct Hthm as (r' & Hrun & _ & _ & _ & _ & Hpub).
  exists r'. split; [exact Hrun | exact Hpub].
Defined.

Lemma matrix_reconstruction_witness :
  let pattern := key_prefix Sample.strategy +:+ ":" +:+ strategy_name Sample.strategy +:+
                 ":*:*" in
  @lua_all_weights Sample.runtime pattern Sample.live =
    (Ok ((fun k => flat_pairs (map_to_list (hash_at Sample.live k)))
           <$> ["Weights:S1:A:20230101093000"; "Weights:S1:B:20230102093000"]),
     Sample.live)
  /\ glob_match pattern
       (key_prefix Sample.strategy +:+ ":META:" +:+ strategy_name Sample.strategy) = false
  /\ forall x,
       x ∈ dense_frame [WRow 1 "A" (1 # 2) None; WRow 2 "B" (3 # 10) None;
                        WRow 3 "A" 0 None] ->
       (3 <= w_dt x)%Z -> w_symbol x = "B" -> (w_weight x == 3 # 10)%Q.
Proof.
  intros pattern.
  pose proof (proj1 (@matrix_reconstruction Sample.runtime)) as Hselect.
  pose proof (proj1 (proj2 (proj2 (@matrix_reconstruction Sample.runtime)))) as Hmiss.
  pose proof (proj2 (proj2 (proj2 (proj2 (proj2 (proj2
                (@matrix_reconstruction Sample.runtime))))))) as Hexample.
  split; [| split].
  - assert (Hkeys : List.filter (glob_match pattern) (elements (dom (db Sample.live))) =
                    ["Weights:S1:A:20230101093000"; "Weights:S1:A:LAST";
                     "Weights:S1:B:20230102093000"; "Weights:S1:B:LAST"])
      by (vm_compute; reflexivity).
    pose proof (Hselect Sample.strategy Sample.live) as Hthm. cbv zeta in Hthm.
    fold pattern in Hthm. rewrite Hkeys in Hthm.
    premise Hthm ltac:(intros k Hk; rewrite !elem_of_cons, elem_of_nil in Hk;
                       destruct Hk as [-> | [-> | [-> | [-> | []]]]];
                       vm_compute; eexists; reflexivity).
    premise Hthm ltac:(intros k lp Hk; rewrite !elem_of_cons, elem_of_nil in Hk;
                       destruct Hk as [-> | [-> | [-> | [-> | []]]]];
                       intros Hlp; vm_compute in Hlp; injection Hlp as <-;
                       intros Hlen; vm_compute in Hlen; try discriminate Hlen;
                       (split; intros _; vm_compute; [reflexivity | eexists; reflexivity])).
    premise Hthm ltac:(intros k Hk; rewrite !elem_of_cons, elem_of_nil in Hk;
                       destruct Hk as [-> | [-> | [-> | [-> | []]]]];
                       intros _; right; vm_compute; eexists; reflexivity).
    exact Hthm.
  - refine (proj1 (proj2 (Hmiss Sample.strategy "A" _ _))).
    + vm_compute. reflexivity.
    + vm_compute. reflexivity.
  - intros x Hx Ht Hs.
    refine (proj2 (proj2 (Hexample "A" "B" 1%Z 2%Z 3%Z None None None x _ _ _ Hx) Ht) Hs).
    + intros Hab. discriminate Hab.
    + lia.
    + lia.
Defined.

Lemma get_hist_weights_empty_range_witness :
  @get_hist_weights Sample.runtime Sample.strategy "A" "2023-02-01" "2023-12-31"
    Sample.one_event =
    (Ok [], log_line WARNING "no history weights: {symbol} - {sdt} - {edt}"
              Sample.one_event).
Proof.
  eapply (@get_hist_weights_empty_range Sample.runtime Sample.strategy "A" "2023-02-01"
            "2023-12-31" Sample.one_event).
  - vm_compute. reflexivity.
  - vm_compute. reflexivity.
  - vm_compute. reflexivity.
Defined.

Lemma set_metadata_existing_witness :
  @set_metadata Sample.runtime Sample.strategy "5m" "second" "ZB" "2023-01-01" false []
    Sample.now Sample.with_metadata =
    (Ok tt, log_line WARNING
              "已存在 {self.strategy_name} 的元数据，如需覆盖请设置 overwrite=True"
              Sample.with_metadata)
  /\ hash_at (Sample.after (@set_metadata Sample.runtime Sample.strategy "5m" "second" "ZB"
                              "2023-01-01" true [] Sample.now) Sample.with_metadata)
       (key_prefix Sample.strategy +:+ ":META:" +:+ strategy_name Sample.strategy)
       !! "description" = Some "second".
Proof.
  pose proof (@set_metadata_existing Sample.runtime Sample.strategy "5m" "second" "ZB"
                "2023-01-01" [] Sample.now Sample.with_metadata
                (Sample.timestamp 2023 1 1 0 0 0)) as Hthm.
  cbv zeta in Hthm.
  premise Hthm ltac:(vm_compute; eexists; reflexivity).
  premise Hthm ltac:(vm_compute; reflexivity).
  premise Hthm ltac:(right; vm_compute; eexists; reflexivity).
  destruct Hthm as (Hkeep & r' & Hrun & _ & Hrec & _).
  split; [exact Hkeep |].
  unfold Sample.after, hash_at. rewrite Hrun. cbn [snd]. rewrite Hrec.
  vm_compute. reflexivity.
Defined.

Lemma clear_all_wipes_witness :
  (exists r',
      clear_all Sample.strategy true "Y" Sample.live = (Ok tt, r')
      /\ db r' !! (key_prefix Sample.strategy +:+ ":META:" +:+
                   strategy_name Sample.strategy) = None
      /\ @get_last_times_str Sample.runtime Sample.strategy "A" r' = (Ok None, r'))
  /\ clear_all Sample.strategy true "n" Sample.live =
       (Ok tt, log_line WARNING "{self.strategy_name} 删除操作已取消" Sample.live).
Proof.
  assert (Hp : glob_plain (key_prefix Sample.strategy +:+ ":" +:+
                           strategy_name Sample.strategy) = true)
    by (vm_compute; reflexivity).
  assert (Hs : holds_set Sample.live (key_prefix Sample.strategy +:+ ":StrategyNames"))
    by (right; vm_compute; eexists; reflexivity).
  split.
  - pose proof (proj1 (@clear_all_wipes Sample.runtime Sample.strategy true "Y"
                         Sample.live Hp Hs)) as Hthm.
    premise Hthm ltac:(right; vm_compute; reflexivity).
    destruct Hthm as (r' & Hrun & _ & Hmeta & _ & _ & _ & Hlast).
    exists r'. split; [exact Hrun |]. split; [exact Hmeta | apply Hlast].
  - apply (proj2 (@clear_all_wipes Sample.runtime Sample.strategy true "n"
                    Sample.live Hp Hs)).
    + reflexivity.
    + vm_compute. intros Hy. discriminate Hy.
Defined.

Lemma reference_round_trip_witness :
  let d := PDict [("a", PNum (PyInt 1)); ("b", PStr "x")] in
  let r1 := Sample.after (@publish Sample.runtime Sample.strategy "A" (Sample.day 1)
                            (PyFloat (1 # 2)) (PyInt 0) d false Sample.now) Sample.empty in
  exists rows row,
    @get_hist_weights Sample.runtime Sample.strategy "A" "2023-01-01" "2023-12-31" r1 =
      (Ok rows, r1)
    /\ row ∈ rows /\ h_symbol row = "A" /\ h_ref row = d.
Proof.
  intros d r1.
  pose proof (@reference_round_trip Sample.runtime Sample.strategy "A" (Sample.day 1)
                (PyFloat (1 # 2)) (PyInt 0) d false Sample.now Sample.empty r1
                "2023-01-01" "2023-12-31"
                (Sample.timestamp 2023 1 1 0 0 0) (Sample.timestamp 2023 12 31 0 0 0)
                (20230101000000 # 1) (20231231000000 # 1)) as Hthm.
  cbv zeta in Hthm.
  premise Hthm ltac:(split; vm_compute; reflexivity).
  premise Hthm ltac:(split; vm_compute; reflexivity).
  premise Hthm ltac:(split; vm_compute; reflexivity).
  premise Hthm ltac:(split; vm_compute; reflexivity).
  premise Hthm ltac:(vm_compute; reflexivity).
  premise Hthm ltac:(vm_compute; reflexivity).
  premise Hthm ltac:(vm_compute; reflexivity).
  premise Hthm ltac:(vm_compute; reflexivity).
  premise Hthm ltac:(vm_compute; reflexivity).
  premise Hthm ltac:(intros score Hs; vm_compute in Hs; injection Hs as <-;
                     split; vm_compute; intros Hgt; discriminate Hgt).
  premise Hthm idtac.
  2:{ intros k Hk.
      assert (Hz : zset_at r1 (key_prefix Sample.strategy +:+ ":" +:+
                               strategy_name Sample.strategy +:+ ":" +:+ "A")
                   = {[ "Weights:S1:A:20230101093000" := (20230101093000 # 1)%Q ]})
        by (vm_compute; reflexivity).
      rewrite Hz in Hk. apply elem_of_dom in Hk as [q Hq].
      apply lookup_singleton_Some in Hq as [<- _]. clear Hz.
      split; [right; vm_compute; eexists; reflexivity |].
      split; [eexists; split; [vm_compute; reflexivity | vm_compute; eexists; reflexivity] |].
      split; intros v Hv; vm_compute in Hv; injection Hv as <-; vm_compute; eexists;
        reflexivity. }
  destruct Hthm as (text & rows & row & _ & Hread & Hin & Hsym & _ & _ & Hdict & _).
  exists rows, row. split; [exact Hread |]. split; [exact Hin |]. split; [exact Hsym |].
  apply (Hdict [("a", PNum (PyInt 1)); ("b", PStr "x")]).
  - reflexivity.
  - intros Hnil. discriminate Hnil.
  - vm_compute. reflexivity.
Defined.

(** ** Where the text of a reference is not read back *)

(** An empty text is a text that JSON does not decode; [publish] counts it
    as no reference, sends the text of two braces for it, and
    [get_hist_weights] reads the empty dict back, not the empty text. *)
Lemma reference_round_trip_counterexample :
  let r1 := Sample.after (@publish Sample.runtime Sample.strategy "A" (Sample.day 1)
                            (PyFloat (1 # 2)) (PyInt 0) (PStr "") false Sample.now)
              Sample.empty in
  @json_loads Sample.runtime "" = None
  /\ @publish Sample.runtime Sample.strategy "A" (Sample.day 1) (PyFloat (1 # 2)) (PyInt 0)
       (PStr "") false Sample.now Sample.empty = (Ok 1%nat, r1)
  /\ @get_hist_weights Sample.runtime Sample.strategy "A" "2023-01-01" "2023-12-31" r1 =
       (Ok [HistRow "S1" "A" (Sample.day 1) (Some (1 # 2)%Q) (Some 0%Q) (PDict [])], r1)
  /\ ~ (forall rows row,
           @get_hist_weights Sample.runtime Sample.strategy "A" "2023-01-01" "2023-12-31"
             r1 = (Ok rows, r1) ->
           row ∈ rows -> h_ref row = PStr "").
Proof.
  intros r1.
  assert (Hread : @get_hist_weights Sample.runtime Sample.strategy "A" "2023-01-01"
                    "2023-12-31" r1 =
                    (Ok [HistRow "S1" "A" (Sample.day 1) (Some (1 # 2)%Q) (Some 0%Q)
                           (PDict [])], r1))
    by (vm_compute; reflexivity).
  split; [vm_compute; reflexivity |].
  split; [vm_compute; reflexivity |].
  split; [exact Hread |].
  intros Hall. specialize (Hall _ _ Hread (list_elem_of_here _ _)). discriminate Hall.
Qed.


(** ** The properties at work on the sample runtime *)

(** The conditions on an event, checked by evaluation. *)
Ltac sample_event :=
  repeat split; first [vm_compute; reflexivity | vm_compute; eexists; reflexivity].

Ltac sample_typed := split; [| split]; left; vm_compute; reflexivity.

Lemma publish_sets_last_pointer_witness :
  exists r1,
    @publish Sample.runtime Sample.strategy "A" (Sample.day 1) (PyFloat (1 # 2)) (PyInt 0)
      PNone false Sample.now Sample.empty = (Ok 1%nat, r1)
    /\ @get_last_times Sample.runtime Sample.strategy ["A"] r1 =
       (Ok {[ "A" := Sample.day 1 ]}, r1).
Proof.
  pose proof (@publish_sets_last_pointer Sample.runtime Sample.strategy "A" (Sample.day 1)
                (PyFloat (1 # 2)) (PyInt 0) PNone false Sample.now Sample.empty "{}")
    as Hthm.
  premise Hthm ltac:(sample_event).
  premise Hthm ltac:(sample_typed).
  premise Hthm ltac:(vm_compute; reflexivity).
  premise Hthm ltac:(vm_compute; reflexivity).
  premise Hthm ltac:(right; vm_compute; reflexivity).
  destruct Hthm as (r1 & Hp & _ & Hl). exists r1. split; [exact Hp | exact Hl].
Defined.



Lemma get_hist_weights_rows_witness :
  exists rows,
    @get_hist_weights Sample.runtime Sample.strategy "A" "2023-01-01" "2023-12-31"
      Sample.two_events = (Ok rows, Sample.two_events)
    /\ forall row,
         row ∈ rows <->
         @row_of_key Sample.runtime Sample.strategy "A" Sample.two_events
           "Weights:S1:A:20230101093000" = Some row.
Proof.
  pose proof (@get_hist_weights_rows Sample.runtime Sample.strategy "A" "2023-01-01"
                "2023-12-31" Sample.two_events
                (Sample.timestamp 2023 1 1 0 0 0) (Sample.timestamp 2023 12 31 0 0 0)
                (20230101000000 # 1) (20231231000000 # 1)
                {[ "Weights:S1:A:20230101093000" := (20230101093000 # 1)%Q ]}) as Hthm.
  cbv zeta in Hthm.
  premise Hthm ltac:(vm_compute; reflexivity).
  premise Hthm ltac:(vm_compute; reflexivity).
  premise Hthm ltac:(vm_compute; reflexivity).
  premise Hthm ltac:(vm_compute; reflexivity).
  premise Hthm ltac:(vm_compute; reflexivity).
  premise Hthm idtac.
  2:{ intros k sc Hk _ _. apply lookup_singleton_Some in Hk as [<- _].
      split; [right; vm_compute; eexists; reflexivity |].
      split; [eexists; split; [vm_compute; reflexivity | vm_compute; eexists; reflexivity] |].
      split; intros v Hv; vm_compute in Hv; injection Hv as <-; vm_compute; eexists;
        reflexivity. }
  destruct Hthm as (rows & r' & Hread & _ & _ & Hsame & _ & Hrows).
  assert (Hone : exists row, @row_of_key Sample.runtime Sample.strategy "A" Sample.two_events
                               "Weights:S1:A:20230101093000" = Some row)
    by (eexists; vm_compute; reflexivity).
  destruct Hone as [row0 Hrow0].
  assert (Hin : row0 ∈ rows).
  { apply Hrows. exists "Weights:S1:A:20230101093000", (20230101093000 # 1)%Q.
    split; [apply lookup_singleton_eq |].
    split; [vm_compute; intros Hgt; discriminate Hgt |].
    split; [vm_compute; intros Hgt; discriminate Hgt | exact Hrow0]. }
  assert (Hne : rows <> []) by (intros ->; by apply elem_of_nil in Hin).
  rewrite (Hsame Hne) in Hread. exists rows. split; [exact Hread |].
  intros row. rewrite Hrows. split.
  - intros (k & sc & Hk & _ & _ & Hrow).
    apply lookup_singleton_Some in Hk as [<- _]. exact Hrow.
  - intros Hrow. exists "Weights:S1:A:20230101093000", (20230101093000 # 1)%Q.
    split; [apply lookup_singleton_eq |].
    split; [vm_compute; intros Hgt; discriminate Hgt |].
    split; [vm_compute; intros Hgt; discriminate Hgt | exact Hrow].
Defined.


Lemma publish_dataframe_batches_witness :
  let df := DataFrame [Sample.event "A" 1 (1 # 2); Sample.event "A" 2 (7 # 10);
                       Sample.event "B" 3 (3 # 10)] true true in
  exists rows r1,
    @prepare_rows Sample.runtime Sample.strategy df false Sample.one_event = (Ok rows, r1)
    /\ filter (fun x => symbol x = "A") rows = [Sample.event "A" 2 (7 # 10)]
    /\ concat (chunks 2 rows) = rows.
Proof.
  intros df.
  pose proof (@publish_dataframe_batches Sample.runtime Sample.strategy df 2%nat Sample.now
                Sample.now Sample.one_event {[ "A" := Sample.day 1 ]}) as Hthm.
  cbv zeta in Hthm.
  premise Hthm ltac:(intros Hnil; discriminate Hnil).
  premise Hthm ltac:(lia).
  premise Hthm ltac:(vm_compute; reflexivity).
  destruct Hthm as (rows & r1 & Hprep & _ & _ & Hsym & _ & _ & _ & Hcat & _).
  exists rows, r1. split; [exact Hprep |]. split; [| exact Hcat].
  rewrite (Hsym "A"). vm_compute. reflexivity.
Defined.

Lemma publish_dataframe_refuses_witness :
  @publish_dataframe Sample.runtime Sample.strategy (DataFrame [] true true) false 100
    Sample.now Sample.now Sample.one_event =
    (Raise "ValueError: No objects to concatenate", log_line INFO log1 Sample.one_event)
  /\ exists r1,
      @publish_dataframe Sample.runtime Sample.strategy
        (DataFrame [Sample.event "A" 2 (7 # 10)] true true) false 0 Sample.now Sample.now
        Sample.one_event = (Raise "ValueError: range() arg 3 must not be zero", r1)
      /\ db r1 = db Sample.one_event.
Proof.
  split.
  - apply (@publish_dataframe_refuses Sample.runtime Sample.strategy (DataFrame [] true true)
             false 100%nat Sample.now Sample.now Sample.one_event).
    reflexivity.
  - pose proof (proj2 (@publish_dataframe_refuses Sample.runtime Sample.strategy
                         (DataFrame [Sample.event "A" 2 (7 # 10)] true true) false 0%nat
                         Sample.now Sample.now Sample.one_event)
                  [Sample.event "A" 2 (7 # 10)]
                  (Sample.after (@prepare_rows Sample.runtime Sample.strategy
                                   (DataFrame [Sample.event "A" 2 (7 # 10)] true true) false)
                     Sample.one_event)) as Hthm.
    premise Hthm ltac:(vm_compute; reflexivity).
    destruct Hthm as (Hraise & Hdb & _). eexists. split; [exact Hraise | exact Hdb].
Defined.

Lemma publish_dataframe_all_stale_witness :
  let df := DataFrame [Sample.event "B" 1 (3 # 10); Sample.event "A" 1 (7 # 10)] true true in
  exists r',
    @publish_dataframe Sample.runtime Sample.strategy df false 100 Sample.now Sample.now
      Sample.two_events = (Ok 0%nat, r')
    /\ published r' = published Sample.two_events.
Proof.
  intros df.
  pose proof (@publish_dataframe_all_stale Sample.runtime Sample.strategy df 100%nat
                Sample.now Sample.now Sample.two_events
                {[ "A" := Sample.day 1; "B" := Sample.day 2 ]}) as Hthm.
  cbv zeta in Hthm.
  premise Hthm ltac:(intros Hnil; discriminate Hnil).
  premise Hthm ltac:(lia).
  premise Hthm ltac:(vm_compute; reflexivity).
  premise Hthm idtac.
  2:{ intros x Hx. apply elem_of_cons in Hx as [-> | Hx].
      - vm_compute. intros Hlt. discriminate Hlt.
      - apply elem_of_cons in Hx as [-> | Hx].
        + vm_compute. intros Hlt. discriminate Hlt.
        + by apply elem_of_nil in Hx. }
  premise Hthm ltac:(left; vm_compute; reflexivity).
  destruct Hthm as (r' & Hsend & Hpub & _). exists r'. split; [exact Hsend | exact Hpub].
Defined.

Lemma publish_dataframe_overwrite_in_time_order_witness :
  let df := DataFrame [Sample.event "B" 1 (3 # 10); Sample.event "A" 2 (1 # 2)] false false in
  let rows := with_defaults df (deduped (df_rows df)) in
  StronglySorted (key_le Z.le dt) rows
  /\ concat (chunks 1 rows) = rows.
Proof.
  intros df rows.
  pose proof (@publish_dataframe_overwrite_in_time_order Sample.runtime Sample.strategy df
                1%nat Sample.now Sample.now Sample.empty) as Hthm.
  cbv zeta in Hthm.
  premise Hthm ltac:(intros Hnil; discriminate Hnil).
  premise Hthm ltac:(lia).
  destruct Hthm as (Hsorted & _ & Hcat & _). split; [exact Hsorted | exact Hcat].
Defined.

Lemma publish_dataframe_updates_marker_witness :
  let df := DataFrame [Sample.event "B" 1 (3 # 10); Sample.event "A" 2 (1 # 2)] true true in
  let r' := Sample.after (@publish_dataframe Sample.runtime Sample.strategy df false 100
                            Sample.now (Sample.day 5)) Sample.empty in
  exists h,
    db r' !! "Weights:LAST:S1" = Some (RHash h)
    /\ h !! "name" = Some "S1"
    /\ h !! "time" = Some "2023-01-05 09:30:00".
Proof.
  intros df r'.
  pose proof (@publish_dataframe_updates_marker Sample.runtime Sample.strategy df false
                100%nat Sample.now (Sample.day 5) Sample.empty 2%nat r') as Hthm.
  premise Hthm ltac:(vm_compute; reflexivity).
  destruct Hthm as (h & Hh & Hname & Htime & _). exists h.
  split; [exact Hh |]. split; [exact Hname |].
  rewrite Htime. vm_compute. reflexivity.
Defined.

Lemma set_metadata_fresh_round_trip_witness :
  exists r' meta listed,
    @set_metadata Sample.runtime Sample.strategy "1m" "first" "ZB" "2022-01-01" false
      [("k", PNum (PyInt 1))] Sample.now Sample.two_events = (Ok tt, r')
    /\ metadata Sample.strategy r' = (Ok meta, r')
    /\ meta !! "outsample_sdt" = Some "20220101"
    /\ get_strategy_names "Weights" r' = (Ok listed, r')
    /\ "S1" ∈ listed.
Proof.
  pose proof (@set_metadata_fresh_round_trip Sample.runtime Sample.strategy "1m" "first"
                "ZB" "2022-01-01" false [("k", PNum (PyInt 1))] Sample.now
                Sample.two_events (Sample.timestamp 2022 1 1 0 0 0)) as Hthm.
  cbv zeta in Hthm.
  premise Hthm ltac:(vm_compute; reflexivity).
  premise Hthm ltac:(vm_compute; reflexivity).
  premise Hthm ltac:(left; vm_compute; reflexivity).
  destruct Hthm as (r' & meta & listed & Hset & Hmeta & _ & _ & _ & _ & _ & Hsdt & _ & _
                    & Hnames & Hin & _).
  exists r', meta, listed. split; [exact Hset |]. split; [exact Hmeta |].
  split; [| split; [exact Hnames | exact Hin]].
  rewrite Hsdt. vm_compute. reflexivity.
Defined.

Lemma set_metadata_overwrite_bad_date_witness :
  exists r',
    @set_metadata Sample.runtime Sample.strategy "1m" "second" "ZB" "not a date" true []
      Sample.now Sample.with_metadata = (Raise "ValueError: to_datetime", r')
    /\ metadata Sample.strategy r' = (Ok ∅, r').
Proof.
  pose proof (@set_metadata_overwrite_bad_date Sample.runtime Sample.strategy "1m" "second"
                "ZB" "not a date" [] Sample.now Sample.with_metadata) as Hthm.
  cbv zeta in Hthm.
  premise Hthm ltac:(vm_compute; eexists; reflexivity).
  premise Hthm ltac:(vm_compute; reflexivity).
  destruct Hthm as ((r' & Hset & _ & Hmeta) & _). exists r'.
  split; [exact Hset | exact Hmeta].
Defined.

Lemma heartbeat_round_trip_witness :
  exists r',
    @heartbeat Sample.strategy Sample.runtime Sample.now Sample.two_events = (Ok tt, r')
    /\ @heartbeat_time Sample.runtime Sample.strategy r' = (Ok (Some Sample.now), r')
    /\ @heartbeat_time Sample.runtime Sample.strategy Sample.two_events =
       (Ok None, Sample.two_events).
Proof.
  pose proof (@heartbeat_round_trip Sample.runtime Sample.strategy Sample.now
                Sample.two_events) as Hthm.
  cbv zeta in Hthm. destruct Hthm as [Hbeat Hnone].
  premise Hbeat ltac:(vm_compute; reflexivity).
  premise Hnone ltac:(vm_compute; reflexivity).
  destruct Hbeat as (r' & Hb & Ht & _). exists r'.
  split; [exact Hb |]. split; [exact Ht | exact Hnone].
Defined.

Lemma get_last_times_of_list_witness :
  (exists m,
      @get_last_times Sample.runtime Sample.strategy ["A"; "B"] Sample.two_events =
        (Ok m, Sample.two_events)
      /\ m !! "B" = Some (Sample.day 2))
  /\ @get_last_times Sample.runtime Sample.strategy ["A"; "Z"] Sample.two_events =
     (Raise "KeyError: 'symbol'", Sample.two_events).
Proof.
  assert (HA : @last_recorded Sample.runtime Sample.strategy Sample.two_events "A"
                 (Sample.day 1)).
  { exists (hash_at Sample.two_events "Weights:S1:A:LAST"), "2023-01-01 09:30:00".
    repeat split; vm_compute; reflexivity. }
  assert (HB : @last_recorded Sample.runtime Sample.strategy Sample.two_events "B"
                 (Sample.day 2)).
  { exists (hash_at Sample.two_events "Weights:S1:B:LAST"), "2023-01-02 09:30:00".
    repeat split; vm_compute; reflexivity. }
  split.
  - pose proof (@get_last_times_of_list Sample.runtime Sample.strategy ["A"; "B"]
                  Sample.two_events) as Hthm.
    premise Hthm ltac:(intros Hnil; discriminate Hnil).
    destruct Hthm as [Hthm _].
    premise Hthm idtac.
    2:{ intros s Hs. apply elem_of_cons in Hs as [-> | Hs]; [eexists; exact HA |].
        apply elem_of_cons in Hs as [-> | Hs]; [eexists; exact HB |].
        apply elem_of_nil in Hs. destruct Hs. }
    destruct Hthm as (m & Hm & Hall). exists m. split; [exact Hm |].
    apply Hall; [| exact HB]. apply elem_of_cons. right. apply elem_of_cons. left.
    reflexivity.
  - pose proof (@get_last_times_of_list Sample.runtime Sample.strategy ["A"; "Z"]
                  Sample.two_events) as Hthm.
    premise Hthm ltac:(intros Hnil; discriminate Hnil).
    destruct Hthm as [_ Hthm].
    premise Hthm idtac.
    2:{ intros s Hs. apply elem_of_cons in Hs as [-> | Hs]; [left; eexists; exact HA |].
        apply elem_of_cons in Hs as [-> | Hs]; [right; vm_compute; reflexivity |].
        apply elem_of_nil in Hs. destruct Hs. }
    premise Hthm idtac.
    2:{ exists "Z". split; [| vm_compute; reflexivity].
        apply elem_of_cons. right. apply elem_of_cons. left. reflexivity. }
    exact Hthm.
Defined.

Lemma get_symbols_lists_witness :
  exists syms,
    get_symbols Sample.strategy Sample.live = (Ok syms, Sample.live)
    /\ NoDup syms /\ "A" ∈ syms /\ "B" ∈ syms.
Proof.
  pose proof (get_symbols_lists Sample.strategy Sample.live) as Hthm.
  cbv zeta in Hthm.
  premise Hthm ltac:(split; vm_compute; reflexivity).
  premise Hthm ltac:(split; vm_compute; reflexivity).
  premise Hthm ltac:(vm_compute; reflexivity).
  premise Hthm ltac:(vm_compute; reflexivity).
  destruct Hthm as (syms & Hget & Hnd & Hall & _). exists syms.
  split; [exact Hget |]. split; [exact Hnd |].
  split; apply Hall; first [split; vm_compute; reflexivity | vm_compute; eexists; reflexivity].
Defined.

Lemma get_all_weights_without_records_witness :
  let r := {| db := {[ "Weights:S1:A:LAST" := RHash {[ "symbol" := "A" ]} ]};
              published := []; logged := [] |} in
  @get_all_weights Sample.runtime Sample.strategy "2023-01-01" "2023-12-31" r =
    (Raise "KeyError: 'dt'", r).
Proof.
  intros r.
  pose proof (@get_all_weights_without_records Sample.runtime Sample.strategy "2023-01-01"
                "2023-12-31" r) as Hthm.
  cbv zeta in Hthm.
  premise Hthm idtac.
  2:{ intros k Hk. vm_compute in Hk. apply list_elem_of_singleton in Hk as ->.
      exists "LAST". split; [vm_compute; reflexivity |].
      vm_compute. intros Hlen. discriminate Hlen. }
  exact Hthm.
Defined.

Lemma clear_all_leaves_others_witness :
  let r := Sample.after (@set_metadata Sample.runtime (Client "S2" "Weights" "heartbeat")
                           "1m" "other" "ZB" "2022-01-01" false [] Sample.now)
             Sample.live in
  let r' := Sample.after (clear_all Sample.strategy false "") r in
  db r' !! "Weights:META:S2" = db r !! "Weights:META:S2"
  /\ exists s', db r' !! "Weights:StrategyNames" = Some (RSet s') /\ "S2" ∈ s'.
Proof.
  intros r r'.
  pose proof (clear_all_leaves_others Sample.strategy false "" r r') as Hthm.
  cbv zeta in Hthm.
  premise Hthm ltac:(vm_compute; reflexivity).
  premise Hthm ltac:(vm_compute; reflexivity).
  destruct Hthm as (_ & Hkeys & Hnames). split.
  - apply Hkeys.
    + vm_compute. reflexivity.
    + intros Hk. discriminate Hk.
    + intros Hk. discriminate Hk.
    + intros Hk. discriminate Hk.
    + intros Hk. discriminate Hk.
  - apply (Hnames ltac:(vm_compute; reflexivity) {[ "S1"; "S2" ]} "S2").
    + vm_compute. reflexivity.
    + vm_compute. reflexivity.
    + intros Hk. discriminate Hk.
Defined.

Lemma publish_refuses_reference_witness :
  @publish Sample.runtime Sample.strategy "A" (Sample.day 2) (PyFloat (7 # 10)) (PyInt 0)
    (PList [PStr "x"]) false Sample.now Sample.one_event =
    (Raise "DataError: Invalid input", Sample.one_event).
Proof.
  eapply (@publish_refuses_reference Sample.runtime Sample.strategy "A" (Sample.day 2)
            (PyFloat (7 # 10)) (PyInt 0) (PList [PStr "x"]) false Sample.now
            Sample.one_event (Some (Sample.day 1))).
  - right. eexists _, _. reflexivity.
  - right. split; [vm_compute; reflexivity |].
    intros t Ht. injection Ht as <-. vm_compute. reflexivity.
Defined.

Lemma lua_at_str_format_witness :
  lua_at_str "20230101093000" = "2023-01-01 09:30:00".
Proof.
  exact (lua_at_str_format "2023" "01" "01" "09" "30" "00" eq_refl eq_refl eq_refl eq_refl
           eq_refl eq_refl).
Defined.

Lemma get_last_weights_rows_witness :
  exists rows,
    @get_last_weights Sample.runtime Sample.strategy ["A"] true true Sample.live =
      (Ok rows, Sample.live)
    /\ rows <> []
    /\ forall y, y ∈ rows -> l_symbol y = Some "A".
Proof.
  assert (Hrun : exists rows r',
             @get_last_weights Sample.runtime Sample.strategy ["A"] true true Sample.live =
               (Ok rows, r') /\ rows <> []).
  { eexists _, _. split; [vm_compute; reflexivity |]. intros Hnil. discriminate Hnil. }
  destruct Hrun as (rows & r' & Hrun & Hne).
  pose proof (@get_last_weights_rows Sample.runtime Sample.strategy ["A"] true true
                Sample.live rows r' Hrun) as Hthm.
  destruct Hthm as (-> & _ & _ & _ & Hsym).
  exists rows. split; [exact Hrun |]. split; [exact Hne |].
  intros y Hy.
  destruct (Hsym eq_refl ltac:(intros Hnil; discriminate Hnil) y Hy) as (s & Hs & Hin).
  apply list_elem_of_singleton in Hin as ->. exact Hs.
Defined.

Lemma get_last_weights_without_records_witness :
  let r := Sample.after (@set_metadata Sample.runtime Sample.strategy "1m" "first" "ZB"
                           "2022-01-01" false [] Sample.now) Sample.empty in
  @get_last_weights Sample.runtime Sample.strategy [] false true r =
    (Raise "KeyError: 'weight'", r).
Proof.
  intros r.
  pose proof (@get_last_weights_without_records Sample.runtime Sample.strategy [] false r)
    as Hthm.
  cbv zeta in Hthm.
  premise Hthm idtac.
  2:{ intros k Hk. apply elem_of_dom in Hk.
      assert (Hdom : dom (db r) = {[ "Weights:META:S1"; "Weights:StrategyNames" ]})
        by (vm_compute; reflexivity).
      rewrite Hdom in Hk. clear Hdom.
      apply elem_of_union in Hk as [Hk | Hk]; apply elem_of_singleton in Hk as ->;
        vm_compute; reflexivity. }
  exact Hthm.
Defined.


Lemma publishing_only_adds_witness :
  grows Sample.one_event
    (Sample.after (@publish Sample.runtime Sample.strategy "A" (Sample.day 2)
                     (PyFloat (7 # 10)) (PyInt 0) PNone true Sample.now) Sample.one_event).
Proof.
  pose proof (proj1 (@publishing_only_adds Sample.runtime Sample.strategy) "A" (Sample.day 2)
                (PyFloat (7 # 10)) (PyInt 0) PNone true Sample.now) as Hthm.
  unfold only_adds in Hthm. eapply Hthm. unfold Sample.after. apply surjective_pairing.
Defined.
